(** * VastAI_MailBot: the poll loop, the per-machine diff and the notifier

    A shallow embedding of [src/VastAI_MailBot.py].  The bot keeps everything
    it reads (API replies, [config.json], [status.json]) as untyped JSON, so
    the embedding works on JSON values with Python's dynamic semantics:
    truthiness and [or], [==] across [bool]/[int]/[float], [dict.get],
    exceptions.  Stateful methods of [VastAIBot] are functions in a state and
    exception monad over the bot's fields, the disk, and a trace of the
    interactions with the outside world (HTTP, SMTP, files, logging, timer);
    the outside world itself is an oracle indexed by a clock.

    - [Py]: JSON values and the builtins used by the bot.
    - [VastAIBot]: constants, the world, the monad, the methods (section
      [Methods], in the order of the source), and the vocabulary of the
      statements (section [Statements]).
    - [Scenario]: a small deployment on which the definitions are run.
    - [Properties]: lemmas on the methods, the properties of the
      specification, and at the end their instances on the scenario. *)

From Stdlib Require Import ZArith List String Ascii Bool Lia.
From Stdlib Require Import SpecFloat DecimalString DecimalZ DecimalPos.
Import ListNotations.

Local Open Scope string_scope.
Local Open Scope Z_scope.

(** ** Python values and the builtins the bot relies on *)

Module Py.

(** What [json.load] and [response.json()] produce.  A Python [float] is an
    IEEE binary64, kept as a [spec_float]; a [dict] keeps insertion order. *)
#[warnings="-register-all"]
Inductive value : Type :=
| VNone
| VBool (b : bool)
| VInt (n : Z)
| VFloat (f : spec_float)
| VStr (s : string)
| VList (l : list value)
| VDict (d : list (string * value)).

Inductive exn : Type :=
| KeyError | TypeError | ValueError | AttributeError | OverflowError | OSError.

Inductive result (A : Type) : Type :=
| Ok (a : A)
| Raise (e : exn).
Arguments Ok {A} a.
Arguments Raise {A} e.

Definition rbind {A B} (r : result A) (k : A -> result B) : result B :=
  match r with
  | Ok a => k a
  | Raise e => Raise e
  end.

Definition prec : Z := 53.
Definition emax : Z := 1024.

Definition float_zero : spec_float := S754_zero false.

(** [float(n)] for an [int]: round to nearest even, [OverflowError] when the
    result would be infinite. *)
Definition float_of_int (n : Z) : result spec_float :=
  match binary_normalize prec emax n 0 false with
  | S754_infinity _ => Raise OverflowError
  | f => Ok f
  end.

(** *** Truthiness, [or] *)

Definition truthy (v : value) : bool :=
  match v with
  | VNone => false
  | VBool b => b
  | VInt n => negb (n =? 0)
  | VFloat f => negb (SFeqb f float_zero)
  | VStr s => negb (String.eqb s "")
  | VList l => match l with [] => false | _ => true end
  | VDict d => match d with [] => false | _ => true end
  end.

Definition py_or (a b : value) : value := if truthy a then a else b.

(** *** Numbers: [bool] is an [int]; [int] and [float] compare exactly *)

Inductive num : Type :=
| NInt (n : Z)
| NFloat (f : spec_float).

Definition as_num (v : value) : option num :=
  match v with
  | VBool b => Some (NInt (Z.b2z b))
  | VInt n => Some (NInt n)
  | VFloat f => Some (NFloat f)
  | _ => None
  end.

(** An integer against the exact value of a float; [None] is unordered. *)
Definition compare_int_float (n : Z) (f : spec_float) : option comparison :=
  match f with
  | S754_nan => None
  | S754_zero _ => Some (n ?= 0)
  | S754_infinity s => Some (if s then Gt else Lt)
  | S754_finite s m e =>
      let z := cond_Zopp s (Zpos m) in
      if 0 <=? e then Some (n ?= z * 2 ^ e) else Some (n * 2 ^ (- e) ?= z)
  end.

Definition num_compare (a b : num) : option comparison :=
  match a, b with
  | NInt x, NInt y => Some (x ?= y)
  | NInt x, NFloat g => compare_int_float x g
  | NFloat f, NInt y => option_map CompOpp (compare_int_float y f)
  | NFloat f, NFloat g => SFcompare f g
  end.

Definition num_eqb (a b : num) : bool :=
  match num_compare a b with Some Eq => true | _ => false end.

Definition num_ltb (a b : num) : bool :=
  match num_compare a b with Some Lt => true | _ => false end.

(** *** [==] and [!=] *)

Fixpoint assoc {A} (k : string) (d : list (string * A)) : option A :=
  match d with
  | [] => None
  | (k', v) :: d' => if String.eqb k k' then Some v else assoc k d'
  end.

Fixpoint py_eq (a b : value) {struct a} : bool :=
  match as_num a, as_num b with
  | Some x, Some y => num_eqb x y
  | _, _ =>
      match a, b with
      | VNone, VNone => true
      | VStr s, VStr t => String.eqb s t
      | VList l, VList m =>
          (fix all2 (l : list value) (m : list value) : bool :=
             match l, m with
             | [], [] => true
             | x :: l', y :: m' => py_eq x y && all2 l' m'
             | _, _ => false
             end) l m
      | VDict d, VDict e =>
          Nat.eqb (List.length d) (List.length e) &&
          (fix sub (d : list (string * value)) : bool :=
             match d with
             | [] => true
             | (k, x) :: d' =>
                 match assoc k e with
                 | Some y => py_eq x y && sub d'
                 | None => false
                 end
             end) d
      | _, _ => false
      end
  end.

Definition py_ne (a b : value) : bool := negb (py_eq a b).

(** *** [<] and [>]

    Numbers against numbers and strings against strings (UTF-8 bytes order
    like code points).  Every use in the bot has a number on one side, where
    Python raises [TypeError] unless the other side is a number as well;
    ordering of lists is not needed and not modelled. *)

Fixpoint string_ltb (s t : string) : bool :=
  match s, t with
  | _, EmptyString => false
  | EmptyString, String _ _ => true
  | String a s', String b t' =>
      if (nat_of_ascii a <? nat_of_ascii b)%nat then true
      else if (nat_of_ascii b <? nat_of_ascii a)%nat then false
      else string_ltb s' t'
  end.

Definition py_lt (a b : value) : result bool :=
  match as_num a, as_num b with
  | Some x, Some y => Ok (num_ltb x y)
  | _, _ =>
      match a, b with
      | VStr s, VStr t => Ok (string_ltb s t)
      | _, _ => Raise TypeError
      end
  end.

Definition py_gt (a b : value) : result bool := py_lt b a.

(** *** Strings

    A [str] is kept as its UTF-8 bytes.  Searching and replacing whole
    characters in valid UTF-8 is the same on bytes as on code points. *)

(** [sub in s] *)
Fixpoint str_contains (sub s : string) : bool :=
  String.prefix sub s ||
  match s with
  | EmptyString => false
  | String _ r => str_contains sub r
  end.

(** [s.replace(old, new)], scanning left to right; [skip] counts the bytes of
    a match still to be dropped.  Every call in the bot has a non-empty
    [old]. *)
Fixpoint replace_from (old new : string) (skip : nat) (s : string) : string :=
  match s with
  | EmptyString => EmptyString
  | String c r =>
      match skip with
      | S k => replace_from old new k r
      | O =>
          if String.prefix old s
          then new ++ replace_from old new (Nat.pred (String.length old)) r
          else String c (replace_from old new O r)
      end
  end.

Definition str_replace (old new s : string) : string :=
  replace_from old new O s.

(** [s.count(sub)]: occurrences that do not overlap; [sub] non-empty. *)
Fixpoint count_from (sub : string) (skip : nat) (s : string) : Z :=
  match s with
  | EmptyString => 0
  | String c r =>
      match skip with
      | S k => count_from sub k r
      | O =>
          if String.prefix sub s
          then 1 + count_from sub (Nat.pred (String.length sub)) r
          else count_from sub O r
      end
  end.

Definition str_count (sub s : string) : Z := count_from sub O s.

(** The characters of a string, for iteration: a byte [10xxxxxx] continues
    the character before it. *)
Definition is_continuation (c : ascii) : bool :=
  let n := nat_of_ascii c in ((128 <=? n) && (n <? 192))%nat.

Fixpoint utf8_chars (s : string) : list string :=
  match s with
  | EmptyString => []
  | String c r =>
      let starts_inside :=
        match r with
        | String c' _ => is_continuation c'
        | EmptyString => false
        end in
      match utf8_chars r with
      | h :: t =>
          if starts_inside then String c h :: t
          else String c EmptyString :: h :: t
      | [] => [String c EmptyString]
      end
  end.

(** *** Decimal numerals: [str(n)] and [int(s)] *)

Definition str_of_int (n : Z) : string := NilZero.string_of_int (Z.to_int n).

(** ASCII whitespace as [str.strip] and [int] see it. *)
Definition is_space (c : ascii) : bool :=
  let n := nat_of_ascii c in
  ((9 <=? n) && (n <=? 13) || (28 <=? n) && (n <=? 32))%nat.

Fixpoint lstrip (s : string) : string :=
  match s with
  | String c r => if is_space c then lstrip r else s
  | EmptyString => EmptyString
  end.

Fixpoint rstrip (s : string) : string :=
  match s with
  | EmptyString => EmptyString
  | String c r =>
      match rstrip r with
      | EmptyString => if is_space c then EmptyString else String c EmptyString
      | r' => String c r'
      end
  end.

Definition is_digit (c : ascii) : bool :=
  let n := nat_of_ascii c in ((48 <=? n) && (n <=? 57))%nat.

Fixpoint all_digits (s : string) : bool :=
  match s with
  | EmptyString => true
  | String c r => is_digit c && all_digits r
  end.

(** Drop the underscores of a numeral; each must stand between two digits. *)
Fixpoint drop_underscores (after_digit : bool) (s : string) : option string :=
  match s with
  | EmptyString => Some EmptyString
  | String c r =>
      if Ascii.eqb c "_" then
        match r with
        | String c' _ =>
            if after_digit && is_digit c' then drop_underscores false r
            else None
        | EmptyString => None
        end
      else option_map (String c) (drop_underscores (is_digit c) r)
  end.

Definition digits_value (s : string) : result Z :=
  match drop_underscores false s with
  | Some t =>
      match NilZero.uint_of_string t with
      | Some d => Ok (Z.of_uint d)
      | None => Raise ValueError
      end
  | None => Raise ValueError
  end.

(** [int(s)] for a string: surrounding whitespace, an optional sign, decimal
    digits.  Digits outside ASCII, which Python would also accept, are
    rejected here. *)
Definition py_int (s : string) : result Z :=
  match rstrip (lstrip s) with
  | String "-" r => rbind (digits_value r) (fun n => Ok (- n))
  | String "+" r => digits_value r
  | t => digits_value t
  end.

(** *** [format(x, ".pf")] *)

Fixpoint zeros (n : nat) : string :=
  match n with
  | O => EmptyString
  | S k => String "0" (zeros k)
  end.

(** The numeral of [n >= 0] written with [p] digits after the point. *)
Definition fixed_point (p : nat) (n : Z) : string :=
  let ds := NilZero.string_of_uint (N.to_uint (Z.to_N n)) in
  let ds := zeros (S p - String.length ds) ++ ds in
  let k := (String.length ds - p)%nat in
  match p with
  | O => ds
  | _ => substring 0 k ds ++ "." ++ substring k p ds
  end.

(** [m * 2^e * 10^p] rounded to the nearest integer, ties to even. *)
Definition scaled_round (p : nat) (m : positive) (e : Z) : Z :=
  let num := Zpos m * 10 ^ Z.of_nat p in
  if 0 <=? e then num * 2 ^ e
  else
    let den := 2 ^ (- e) in
    let q := num / den in
    let r := num mod den in
    if (den <? 2 * r) || ((den =? 2 * r) && Z.odd q) then q + 1 else q.

Definition format_float (p : nat) (f : spec_float) : string :=
  match f with
  | S754_nan => "nan"
  | S754_infinity s => if s then "-inf" else "inf"
  | S754_zero s => (if s then "-" else "") ++ fixed_point p 0
  | S754_finite s m e =>
      (if s then "-" else "") ++ fixed_point p (scaled_round p m e)
  end.

(** An [int] or [bool] is converted to [float] first; other types have no
    [f] format. *)
Definition format_f (p : nat) (v : value) : result string :=
  match v with
  | VFloat f => Ok (format_float p f)
  | VInt n => rbind (float_of_int n) (fun f => Ok (format_float p f))
  | VBool b => rbind (float_of_int (Z.b2z b)) (fun f => Ok (format_float p f))
  | VStr _ => Raise ValueError
  | _ => Raise TypeError
  end.

Section Repr.

(** [repr] of floats, lists and dicts (shortest round-trip digits, quoting of
    strings) is left to the interpreter. *)
Variable repr_other : value -> string.

(** [str(x)], also what an f-string placeholder without a format gives. *)
Definition py_str (v : value) : string :=
  match v with
  | VNone => "None"
  | VBool b => if b then "True" else "False"
  | VInt n => str_of_int n
  | VStr s => s
  | _ => repr_other v
  end.

End Repr.

(** *** Containers *)

(** [d.get(key, default)]; only a [dict] has [get]. *)
Definition py_get (v : value) (key : string) (default : value) : result value :=
  match v with
  | VDict d => Ok (match assoc key d with Some x => x | None => default end)
  | _ => Raise AttributeError
  end.

(** [v[key]] for a string key. *)
Definition py_getitem (v : value) (key : string) : result value :=
  match v with
  | VDict d => match assoc key d with Some x => Ok x | None => Raise KeyError end
  | _ => Raise TypeError
  end.

(** A new key goes last, an existing key keeps its place. *)
Fixpoint assoc_set {A} (k : string) (x : A) (d : list (string * A))
  : list (string * A) :=
  match d with
  | [] => [(k, x)]
  | (k', y) :: d' =>
      if String.eqb k k' then (k, x) :: d' else (k', y) :: assoc_set k x d'
  end.

(** [v[key] = x] *)
Definition py_setitem (v : value) (key : string) (x : value) : result value :=
  match v with
  | VDict d => Ok (VDict (assoc_set key x d))
  | _ => Raise TypeError
  end.

(** [x in c] *)
Definition py_in (x c : value) : result bool :=
  match c with
  | VList l => Ok (existsb (py_eq x) l)
  | VDict d =>
      Ok (match x with
          | VStr k => match assoc k d with Some _ => true | None => false end
          | _ => false
          end)
  | VStr s =>
      match x with
      | VStr sub => Ok (str_contains sub s)
      | _ => Raise TypeError
      end
  | _ => Raise TypeError
  end.

(** The items of [for x in c]. *)
Definition py_iter (c : value) : result (list value) :=
  match c with
  | VList l => Ok l
  | VDict d => Ok (map (fun kv => VStr (fst kv)) d)
  | VStr s => Ok (map VStr (utf8_chars s))
  | _ => Raise TypeError
  end.

(** [d.items()] *)
Definition py_items (c : value) : result (list (string * value)) :=
  match c with
  | VDict d => Ok d
  | _ => Raise AttributeError
  end.

(** [x.count(sub)] for a string [sub]: on a [str] and on a [list]. *)
Definition py_count (x : value) (sub : string) : result Z :=
  match x with
  | VStr s => Ok (str_count sub s)
  | VList l =>
      Ok (Z.of_nat (List.length (filter (fun y => py_eq y (VStr sub)) l)))
  | _ => Raise AttributeError
  end.

(** [x.replace(old, new)]; only a [str] has it. *)
Definition py_replace (x : value) (old new : string) : result string :=
  match x with
  | VStr s => Ok (str_replace old new s)
  | _ => Raise AttributeError
  end.

(** [x * n] for an [int] [n] *)
Definition py_mul_int (x : value) (n : Z) : result value :=
  match x with
  | VInt a => Ok (VInt (a * n))
  | VBool b => Ok (VInt (Z.b2z b * n))
  | VFloat f => rbind (float_of_int n) (fun g => Ok (VFloat (SFmul prec emax f g)))
  | VStr s => Ok (VStr (String.concat "" (repeat s (Z.to_nat n))))
  | VList l => Ok (VList (List.concat (repeat l (Z.to_nat n))))
  | _ => Raise TypeError
  end.

End Py.

(** ** The bot *)

Module VastAIBot.
Import Py.

(** *** Constants (lines 17-35) *)

Definition VERSION : string := "1.0.6".
Definition STATUS_FILE : string := "status.json".
Definition CONFIG_FILE : string := "config.json".
Definition RETRY_TIMEOUT : Z := 15.
Definition REQUEST_DELAY : Z := 2.
Definition API_TIMEOUT : Z := 10.

(** The constants read from the process environment when the module loads;
    [None] is an unset variable. *)
Record settings : Type := {
  CHECK_INTERVAL : Z;
  VAST_URL : string;
  SMTP_SERVER : option string;
  SMTP_PORT : Z;
  SMTP_USE_TLS : bool;
  SMTP_USERNAME : option string;
  SMTP_PASSWORD : option string;
  EMAIL_FROM : option string;
  EMAIL_TO : option string
}.

Definition nl : string := String (ascii_of_nat 10) EmptyString.

(** Truthiness of an optional string. *)
Definition is_set (o : option string) : bool :=
  match o with
  | Some s => negb (String.eqb s "")
  | None => false
  end.

(** *** The outside world *)

Inductive http_result : Type :=
| HttpOk (body : value)      (* status 2xx and a JSON body *)
| HttpClientError            (* aiohttp.ClientError, raise_for_status included *)
| HttpInvalidJSON            (* json.JSONDecodeError *)
| HttpOtherError.            (* any other Exception, e.g. a timeout *)

Inductive file : Type :=
| FileAbsent                 (* open raises FileNotFoundError *)
| FileJson (v : value)
| FileGarbage                (* json.load raises JSONDecodeError *)
| FileUnreadable.            (* open or read raises another OSError *)

Inductive write_outcome : Type :=
| WriteOk
| WriteRefused               (* open fails, the file is left as it was *)
| WriteTorn.                 (* fails after truncation, half a document is left *)

Inductive smtp_cmd : Type :=
| SmtpConnect (host : option string) (port : Z)
| SmtpStartTLS
| SmtpLogin (user password : string)
| SmtpSendmail (sender : option string) (recipient : value)
               (subject body : string)
| SmtpQuit.

Inductive wait_outcome : Type :=
| TimedOut                   (* the full timeout elapsed *)
| Signalled.                 (* SIGINT or SIGTERM arrived first *)

Definition filesystem : Type := string -> file.

(** What the world does at each moment.  The moment is the count of the
    requests, SMTP commands, writes and waits made so far; a reply may depend
    on it and on what is asked. *)
Record world : Type := {
  http : nat -> string -> string -> http_result;
  smtp : nat -> smtp_cmd -> bool;
  disk_write : nat -> string -> write_outcome;
  (* how the wait that starts at a moment ends *)
  timer : nat -> wait_outcome;
  (* whether a signal arrives while the request made at a moment is awaited *)
  signal : nat -> bool;
  (* what is done to the files during that request or wait *)
  operator : nat -> filesystem -> filesystem
}.

Inductive log_level : Type := INFO | WARNING | ERROR.

(** One constructor per logging call of the source. *)
Inductive log_msg : Type :=
| LogJsonNotFound (path : string)
| LogInvalidJsonFile (path : string)
| LogSaveError (path : string)
| LogNoRecipients
| LogEmailSent (recipient : value)
| LogEmailError
| LogFetchError (url : string)
| LogInvalidJsonResponse (url : string)
| LogUnexpectedError
| LogNoChanges (account_name : string)
| LogLoopCompleted (interval : Z)
| LogShutdown.

Inductive event : Type :=
| EvLog (level : log_level) (msg : log_msg)
| EvHttpGet (url authorization : string) (timeout : Z)
| EvReadFile (path : string)
| EvWriteFile (path : string) (data : value) (o : write_outcome)
| EvSmtp (c : smtp_cmd) (ok : bool)
| EvWait (timeout : Z) (o : wait_outcome).

(** *** State: the fields of [VastAIBot], the disk, the clock, the trace *)

Record state : Type := mkState {
  previous_status : value;
  vast_accounts : value;
  shutdown_event : bool;
  disk : filesystem;
  clock : nat;
  trace : list event
}.

Definition set_previous_status (v : value) (s : state) : state :=
  mkState v (vast_accounts s) (shutdown_event s) (disk s) (clock s) (trace s).
Definition set_vast_accounts (v : value) (s : state) : state :=
  mkState (previous_status s) v (shutdown_event s) (disk s) (clock s) (trace s).
Definition set_shutdown_event (b : bool) (s : state) : state :=
  mkState (previous_status s) (vast_accounts s) b (disk s) (clock s) (trace s).
Definition set_disk (d : filesystem) (s : state) : state :=
  mkState (previous_status s) (vast_accounts s) (shutdown_event s) d (clock s)
          (trace s).
Definition set_clock (n : nat) (s : state) : state :=
  mkState (previous_status s) (vast_accounts s) (shutdown_event s) (disk s) n
          (trace s).
Definition set_trace (t : list event) (s : state) : state :=
  mkState (previous_status s) (vast_accounts s) (shutdown_event s) (disk s)
          (clock s) t.

(** [__init__] (lines 39-42) on a given disk. *)
Definition init (d : filesystem) : state :=
  mkState (VDict []) (VDict []) false d O [].

Definition write_file (path : string) (f : file) (d : filesystem) : filesystem :=
  fun p => if String.eqb p path then f else d p.

(** *** The monad: state, and an exception or a value *)

Definition M (A : Type) : Type := state -> result A * state.

Definition ret {A} (a : A) : M A := fun s => (Ok a, s).

Definition bind {A B} (m : M A) (k : A -> M B) : M B :=
  fun s =>
    match m s with
    | (Ok a, s') => k a s'
    | (Raise e, s') => (Raise e, s')
    end.

(** A pure computation that may raise. *)
Definition lift {A} (r : result A) : M A := fun s => (r, s).

(** [try: m  except Exception: h] *)
Definition try_except {A} (m : M A) (h : exn -> M A) : M A :=
  fun s =>
    match m s with
    | (Ok a, s') => (Ok a, s')
    | (Raise e, s') => h e s'
    end.

Definition gets {A} (f : state -> A) : M A := fun s => (Ok (f s), s).
Definition modify (f : state -> state) : M unit := fun s => (Ok tt, f s).

Declare Scope bot_scope.
Delimit Scope bot_scope with bot.
Notation "x <- m ;; k" := (bind m (fun x => k))
  (at level 61, m at next level, right associativity) : bot_scope.
Notation "x <~ r ;; k" := (bind (lift r) (fun x => k))
  (at level 61, r at next level, right associativity) : bot_scope.
Notation "m ;; k" := (bind m (fun _ => k))
  (at level 61, right associativity) : bot_scope.
Local Open Scope bot_scope.

Fixpoint for_each {A S} (body : A -> S -> M S) (l : list A) (acc : S) : M S :=
  match l with
  | [] => ret acc
  | x :: l' => acc' <- body x acc ;; for_each body l' acc'
  end.

Definition emit (e : event) : M unit :=
  modify (fun s => set_trace (trace s ++ [e]) s).

Definition tick : M nat :=
  fun s => (Ok (clock s), set_clock (S (clock s)) s).

Definition logging (level : log_level) (msg : log_msg) : M unit :=
  emit (EvLog level msg).

Section Methods.

Variable cfg : settings.
Variable env : world.
Variable repr_other : value -> string.

Abbreviation str := (py_str repr_other).

(** [load_json] (lines 44-54) *)
Definition load_json (file_path : string) : M value :=
  emit (EvReadFile file_path) ;;
  d <- gets disk ;;
  match d file_path with
  | FileJson v => ret v
  | FileAbsent =>
      logging WARNING (LogJsonNotFound file_path) ;; ret (VDict [])
  | FileGarbage =>
      logging ERROR (LogInvalidJsonFile file_path) ;; ret (VDict [])
  | FileUnreadable => lift (Raise OSError)
  end.

(** [save_json] (lines 56-62); [IOError] is [OSError]. *)
Definition save_json (file_path : string) (data : value) : M unit :=
  t <- tick ;;
  let o := disk_write env t file_path in
  emit (EvWriteFile file_path data o) ;;
  match o with
  | WriteOk =>
      modify (fun s => set_disk (write_file file_path (FileJson data) (disk s)) s)
  | WriteRefused => logging ERROR (LogSaveError file_path)
  | WriteTorn =>
      modify (fun s => set_disk (write_file file_path FileGarbage (disk s)) s) ;;
      logging ERROR (LogSaveError file_path)
  end.

(** [format_for_email] (lines 104-133).  The dict literal names the key
    [👤] twice: it keeps its first place and its last value. *)
Definition emoji_map : list (string * string) :=
  [ ("🟢", "[START]");
    ("🔴", "[STOP]");
    ("👤", "Running:");
    ("💰", "Balance:");
    ("🏦", "Earnings:");
    ("🖥️", "Server:");
    ("✅", "[RENTED]");
    ("❌", "[FREE]");
    ("🚀", "[NEW RENTAL]");
    ("🛬", "[RENTAL ENDED]");
    ("⚠️", "[WARNING]");
    ("💵", "Price:");
    ("🎯", "Reliability:");
    ("🗄️", "Resident:");
    ("💾", "storage");
    ("🎞", "min gpu");
    ("🪫", "min bid");
    ("🚨", "reports") ].

Definition format_for_email (message : string) : string :=
  fold_left (fun formatted_message kv => str_replace (fst kv) (snd kv) formatted_message)
            emoji_map message.

(** [[EMAIL_TO] if EMAIL_TO else []] *)
Definition default_recipients : value :=
  match EMAIL_TO cfg with
  | Some e => if is_set (Some e) then VList [VStr e] else VList []
  | None => VList []
  end.

(** One step with the SMTP server, the making of what is sent included; a
    step that fails raises. *)
Definition smtp_do (c : smtp_cmd) : M unit :=
  t <- tick ;;
  let ok := smtp env t c in
  emit (EvSmtp c ok) ;;
  if ok then ret tt else lift (Raise OSError).

(** [send_email] (lines 64-102); [VNone] is the default [recipients=None]. *)
Definition send_email (subject message : string) (recipients : value) : M unit :=
  let recipients :=
    match recipients with
    | VNone => default_recipients
    | _ => recipients
    end in
  if negb (truthy recipients) then logging ERROR LogNoRecipients
  else
    try_except
      (let email_body := format_for_email message in
       smtp_do (SmtpConnect (SMTP_SERVER cfg) (SMTP_PORT cfg)) ;;
       (if SMTP_USE_TLS cfg then smtp_do SmtpStartTLS else ret tt) ;;
       (match SMTP_USERNAME cfg, SMTP_PASSWORD cfg with
        | Some u, Some p =>
            if is_set (Some u) && is_set (Some p) then smtp_do (SmtpLogin u p)
            else ret tt
        | _, _ => ret tt
        end) ;;
       rs <~ py_iter recipients ;;
       for_each
         (fun recipient _ =>
            smtp_do (SmtpSendmail (EMAIL_FROM cfg) recipient subject email_body) ;;
            logging INFO (LogEmailSent recipient))
         rs tt ;;
       smtp_do SmtpQuit)
      (fun _ => logging ERROR LogEmailError).

(** [handle_shutdown] (lines 351-353) *)
Definition handle_shutdown : M unit :=
  logging INFO LogShutdown ;;
  modify (set_shutdown_event true).

(** What happens around the coroutine while it awaits a reply: files may be
    edited, and the loop runs the signal handler if a signal arrived. *)
Definition suspended (t : nat) : M unit :=
  modify (fun s => set_disk (operator env t (disk s)) s) ;;
  if signal env t then handle_shutdown else ret tt.

(** [call_vast_api] (lines 135-151) *)
Definition call_vast_api (url : string) (api_key : value) : M value :=
  let authorization := "Bearer " ++ str api_key in
  t <- tick ;;
  emit (EvHttpGet url authorization API_TIMEOUT) ;;
  suspended t ;;
  match http env t url authorization with
  | HttpOk body => ret body
  | HttpClientError => logging ERROR (LogFetchError url) ;; ret (VDict [])
  | HttpInvalidJSON => logging ERROR (LogInvalidJsonResponse url) ;; ret (VDict [])
  | HttpOtherError => logging ERROR LogUnexpectedError ;; ret (VDict [])
  end.

(** [get_server_status] (lines 153-157) *)
Definition get_server_status (api_key : value) : M value :=
  data <- call_vast_api (VAST_URL cfg ++ "/machines") api_key ;;
  lift (py_get data "machines" (VList [])).

(** [get_current_user] (lines 159-162) *)
Definition get_current_user (api_key : value) : M value :=
  call_vast_api (VAST_URL cfg ++ "/users/current") api_key.

(** [get_user_earnings] (lines 164-167) *)
Definition get_user_earnings (api_key : value) : M value :=
  call_vast_api (VAST_URL cfg ++ "/user/earnings") api_key.

(** What one pass of the loop over the servers observes of a machine
    (lines 202-235): the locals that the diff, the snapshot and the server
    line use. *)
Record observation : Type := {
  rented : bool;
  rented_gpus : value;
  num_gpus : value;
  listed_gpu_cost : value;
  listed_storage_cost : value;
  min_bid_price : value;
  listed_min_gpu_count : value;
  earn_hour : value;
  earn_day : value;
  reliability : value;
  num_reports : value;
  gpu_occupancy : value;
  status_str : string;
  server_line : string
}.

Definition f0 : value := VFloat float_zero.

(** Lines 202-235 *)
Definition observe (server : value) (server_id : string) : result observation :=
  rbind (py_get server "listed" (VInt 0)) (fun listed_raw =>
  let listed := py_or listed_raw (VBool false) in
  rbind (py_get server "current_rentals_running" (VInt 0)) (fun running =>
  rbind (py_get server "current_rentals_resident" (VInt 0)) (fun resident =>
  rbind (py_gt running (VInt 0)) (fun rented =>
  rbind (py_get server "reliability2" (VInt 0)) (fun reliability_raw =>
  let reliability := py_or reliability_raw f0 in
  rbind (py_get server "num_gpus" (VInt 0)) (fun num_gpus =>
  rbind (py_get server "earn_hour" (VInt 0)) (fun earn_hour_raw =>
  let earn_hour := py_or earn_hour_raw f0 in
  rbind (py_get server "earn_day" (VInt 0)) (fun earn_day_raw =>
  let earn_day := py_or earn_day_raw f0 in
  rbind (py_get server "gpu_occupancy" (VStr "")) (fun gpu_occupancy_raw =>
  let gpu_occupancy := py_or gpu_occupancy_raw (VStr "") in
  rbind (py_get server "num_reports" (VStr "")) (fun num_reports_raw =>
  let num_reports := py_or num_reports_raw (VInt 0) in
  rbind (py_get server "min_bid_price" (VInt 0)) (fun min_bid_price_raw =>
  let min_bid_price := py_or min_bid_price_raw f0 in
  rbind
    (if truthy listed then
       rbind (py_count gpu_occupancy "D") (fun count_d =>
       rbind (py_count gpu_occupancy "I") (fun count_i =>
       let rented_gpus := VInt (count_d + count_i) in
       rbind (py_get server "listed_gpu_cost" (VInt 0)) (fun gpu_cost_raw =>
       let listed_gpu_cost := py_or gpu_cost_raw f0 in
       rbind (py_get server "listed_storage_cost" (VInt 0)) (fun storage_raw =>
       let listed_storage_cost := py_or storage_raw f0 in
       rbind (py_get server "listed_min_gpu_count" (VInt 0)) (fun min_gpu_raw =>
       let listed_min_gpu_count := py_or min_gpu_raw (VInt 0) in
       rbind (format_f 2 listed_gpu_cost) (fun s1 =>
       rbind (format_f 2 min_bid_price) (fun s2 =>
       rbind (format_f 2 listed_storage_cost) (fun s3 =>
       let price_info := "💵" ++ s1 ++ " " ++ s2 ++ " " ++ s3 in
       Ok (rented_gpus, listed_gpu_cost, listed_storage_cost,
           listed_min_gpu_count, price_info)))))))))
     else
       Ok (running, f0, f0, VInt 0, "❌ NotList ❌"))
    (fun '(rented_gpus, listed_gpu_cost, listed_storage_cost,
           listed_min_gpu_count, price_info) =>
  let status_str := if rented then "✅" else "❌" in
  let gpu_status := str rented_gpus ++ "/" ++ str num_gpus in
  rbind (py_mul_int reliability 100) (fun percent =>
  rbind (format_f 2 percent) (fun percent_s =>
  let reliability_info := "🎯" ++ percent_s ++ "%" in
  rbind (py_gt resident (VInt 0)) (fun has_resident =>
  let running_info :=
    (if has_resident then "🗄️" ++ str resident else "") ++
    (if rented then "👤" ++ str running else "") in
  let server_line :=
    "🖥️" ++ server_id ++ " " ++ status_str ++ gpu_status ++ "«" ++
    str listed_min_gpu_count ++ " " ++ price_info ++ " " ++
    reliability_info ++ " " ++ running_info ++ nl in
  Ok {| rented := rented;
        rented_gpus := rented_gpus;
        num_gpus := num_gpus;
        listed_gpu_cost := listed_gpu_cost;
        listed_storage_cost := listed_storage_cost;
        min_bid_price := min_bid_price;
        listed_min_gpu_count := listed_min_gpu_count;
        earn_hour := earn_hour;
        earn_day := earn_day;
        reliability := reliability;
        num_reports := num_reports;
        gpu_occupancy := gpu_occupancy;
        status_str := status_str;
        server_line := server_line |}))))))))))))))).

(** [old_data.get(key) or default] (lines 239-245) *)
Definition prior (old_data : value) (key : string) (default : value)
  : result value :=
  rbind (py_get old_data key VNone) (fun x => Ok (py_or x default)).

(** One [if] of the diff: when the test holds, the flag is set and the line
    is formatted and appended. *)
Definition when_changed (test : bool) (line : result string)
  (acc : bool * list string) : result (bool * list string) :=
  if test then rbind line (fun l => Ok (true, (snd acc ++ [l])%list))
  else Ok acc.

(** Lines 239-283: the comparison against an entry of the snapshot, on
    [changes_detected] and [changes_lines]. *)
Definition compare_with (old_data : value) (server_id : string)
  (o : observation) (acc : bool * list string) : result (bool * list string) :=
  rbind (prior old_data "listed_gpu_cost" f0) (fun p_listed_gpu_cost =>
  rbind (prior old_data "listed_storage_cost" f0) (fun p_listed_storage_cost =>
  rbind (prior old_data "rented" (VBool false)) (fun p_rented =>
  rbind (prior old_data "rented_gpus" (VInt 0)) (fun p_rented_gpus =>
  rbind (prior old_data "min_bid_price" f0) (fun p_min_bid_price =>
  rbind (prior old_data "listed_min_gpu_count" f0) (fun p_listed_min_gpu_count =>
  rbind (prior old_data "num_reports" (VInt 0)) (fun p_num_reports =>
  let p_gpu_status := str p_rented_gpus ++ "/" ++ str (num_gpus o) in
  rbind
    (when_changed
       (py_ne p_rented (VBool (rented o)) || py_ne p_rented_gpus (rented_gpus o))
       (rbind (py_lt p_rented_gpus (rented_gpus o)) (fun more =>
        let ico_status := if more then "🚀" else "🛬" in
        rbind (py_replace (gpu_occupancy o) " " "") (fun occupancy =>
        Ok (ico_status ++ server_id ++ " " ++ status_str o ++ " " ++
            p_gpu_status ++ " » " ++ str (rented_gpus o) ++ "/" ++
            str (num_gpus o) ++ " = " ++ occupancy ++ nl))))
       acc) (fun acc =>
  rbind
    (when_changed
       (py_ne p_listed_gpu_cost (listed_gpu_cost o))
       (rbind (format_f 4 p_listed_gpu_cost) (fun was =>
        rbind (format_f 4 (listed_gpu_cost o)) (fun now =>
        Ok ("⚠️" ++ server_id ++ " 💰 price change, " ++ was ++ "$ » " ++
            now ++ "$" ++ nl))))
       acc) (fun acc =>
  rbind
    (when_changed
       (py_ne p_listed_storage_cost (listed_storage_cost o))
       (rbind (format_f 4 p_listed_storage_cost) (fun was =>
        rbind (format_f 4 (listed_storage_cost o)) (fun now =>
        Ok ("⚠️" ++ server_id ++ " 💾 price change, " ++ was ++ "$ » " ++
            now ++ "$" ++ nl))))
       acc) (fun acc =>
  rbind
    (when_changed
       (py_ne p_listed_min_gpu_count (listed_min_gpu_count o))
       (Ok ("⚠️" ++ server_id ++ " 🎞 min gpu change, " ++
            str p_listed_min_gpu_count ++ " » " ++
            str (listed_min_gpu_count o) ++ nl))
       acc) (fun acc =>
  rbind
    (when_changed
       (py_ne p_min_bid_price (min_bid_price o))
       (Ok ("⚠️" ++ server_id ++ " 🪫 min bid change, " ++
            str p_min_bid_price ++ " » " ++ str (min_bid_price o) ++ nl))
       acc) (fun acc =>
  when_changed
    (py_ne p_num_reports (num_reports o))
    (Ok ("⚠️" ++ server_id ++ " 🚨 num reports change, " ++
         str p_num_reports ++ " » " ++ str (num_reports o) ++ nl))
    acc)))))))))))).

(** The dict literal of lines 288-300 *)
Definition snapshot (o : observation) : value :=
  VDict [ ("rented", VBool (rented o));
          ("rented_gpus", rented_gpus o);
          ("listed_gpu_cost", listed_gpu_cost o);
          ("listed_storage_cost", listed_storage_cost o);
          ("min_bid_price", min_bid_price o);
          ("listed_min_gpu_count", listed_min_gpu_count o);
          ("earn_hour", earn_hour o);
          ("earn_day", earn_day o);
          ("reliability", reliability o);
          ("num_reports", num_reports o);
          ("gpu_occupancy", gpu_occupancy o) ].

(** The locals of [process_account] that the loop over the servers updates
    (lines 178-181). *)
Record locals : Type := {
  changes_detected : bool;
  changes_lines : list string;
  account_lines : list string
}.

(** The test of line 199: whether the machine is passed over. *)
Definition skipped (all_server : bool) (server_ids : value) (server_id : string)
  : result bool :=
  if all_server then Ok false
  else
    rbind (py_int server_id) (fun n =>
    rbind (py_in (VInt n) server_ids) (fun listed_id =>
    Ok (negb listed_id))).

(** The body of [for server in servers] (lines 198-301) *)
Definition process_server (all_server : bool) (server_ids : value)
  (server : value) (l : locals) : M locals :=
  id <~ py_get server "id" VNone ;;
  let server_id := str id in
  skip <~ skipped all_server server_ids server_id ;;
  if skip then ret l
  else
    o <~ observe server server_id ;;
    previous <- gets previous_status ;;
    old_data <~ py_get previous server_id VNone ;;
    diff <~
       match old_data with
       | VNone => Ok (true, changes_lines l)
       | _ => compare_with old_data server_id o
                (changes_detected l, changes_lines l)
       end ;;
    previous <- gets previous_status ;;
    updated <~ py_setitem previous server_id (snapshot o) ;;
    modify (set_previous_status updated) ;;
    ret {| changes_detected := fst diff;
           changes_lines := snd diff;
           account_lines := (account_lines l ++ [server_line o])%list |}.

(** [any(mark in line for line in lines)] *)
Definition any_contains (mark : string) (lines : list string) : bool :=
  existsb (str_contains mark) lines.

(** Lines 313-320 *)
Definition email_subject (account_name : string) (first_run : bool)
  (l : locals) : string :=
  if changes_detected l && negb first_run then
    if any_contains "🚀" (changes_lines l)
    then "🚀 VastAI New Rental - " ++ account_name
    else if any_contains "🛬" (changes_lines l)
    then "🛬 VastAI Rental Ended - " ++ account_name
    else if any_contains "⚠️" (changes_lines l)
    then "⚠️ VastAI Price Change - " ++ account_name
    else "VastAI Status Update - " ++ account_name
  else "VastAI Status Update - " ++ account_name.

(** Lines 303-304: a blank line closes the change lines, if any. *)
Definition close_changes (l : locals) : locals :=
  match changes_lines l with
  | [] => l
  | _ => {| changes_detected := changes_detected l;
            changes_lines := (changes_lines l ++ [nl])%list;
            account_lines := account_lines l |}
  end.

(** The first line of the message (line 308), from the formatted balance
    and earnings. *)
Definition message_head (account_name balance_s earnings_s : string) : string :=
  "👤 " ++ account_name ++ " 💰 " ++ balance_s ++ "$ 🏦 " ++ earnings_s ++
  "$" ++ nl ++ nl.

(** Lines 307-311 *)
Definition message_body (account_name balance_s earnings_s : string)
  (l : locals) : string :=
  message_head account_name balance_s earnings_s ++
  String.concat "" (changes_lines l) ++
  String.concat "" (account_lines l).

(** The test of line 306 *)
Definition worth_telling (first_run : bool) (l : locals) : bool :=
  (first_run || changes_detected l) &&
  match account_lines l with [] => false | _ => true end.

Definition no_locals : locals :=
  {| changes_detected := false; changes_lines := []; account_lines := [] |}.

(** [process_account] (lines 169-324) *)
Definition process_account (account_name : string) (account_data : value)
  : M unit :=
  previous <- gets previous_status ;;
  let first_run := negb (truthy previous) in
  api_key <~ py_getitem account_data "api_key" ;;
  notify_emails <~ py_get account_data "notify" default_recipients ;;
  server_ids <~ py_getitem account_data "machine_ids" ;;
  user <- get_current_user api_key ;;
  balance <~ py_get user "balance" (VInt 0) ;;
  earnings <- get_user_earnings api_key ;;
  machine_earnings_raw <~ py_get earnings "machine_earnings" (VInt 0) ;;
  let machine_earnings := py_or machine_earnings_raw f0 in
  servers <- get_server_status api_key ;;
  all_server <~ py_in (VInt (-1)) server_ids ;;
  items <~ py_iter servers ;;
  l <- for_each (process_server all_server server_ids) items no_locals ;;
  let l := close_changes l in
  if worth_telling first_run l then
    balance_s <~ format_f 2 balance ;;
    earnings_s <~ format_f 2 machine_earnings ;;
    send_email (email_subject account_name first_run l)
               (message_body account_name balance_s earnings_s l)
               notify_emails
  else logging INFO (LogNoChanges account_name).

(** One turn of the [while] of [monitor_servers], up to the wait
    (lines 331-341). *)
Definition poll_iteration : M unit :=
  loaded <- load_json STATUS_FILE ;;
  modify (set_previous_status loaded) ;;
  loaded <- load_json CONFIG_FILE ;;
  modify (set_vast_accounts loaded) ;;
  accounts <- gets vast_accounts ;;
  items <~ py_items accounts ;;
  for_each (fun kv _ => process_account (fst kv) (snd kv)) items tt ;;
  previous <- gets previous_status ;;
  save_json STATUS_FILE previous ;;
  logging INFO (LogLoopCompleted (CHECK_INTERVAL cfg)).

(** [wait_for(shutdown_event.wait(), timeout=CHECK_INTERVAL)] with its
    [except TimeoutError: continue] (lines 342-347): nothing to wait for
    when the event is already set. *)
Definition wait_for_shutdown : M unit :=
  already <- gets shutdown_event ;;
  if already then ret tt
  else
    t <- tick ;;
    let o := timer env t in
    emit (EvWait (CHECK_INTERVAL cfg) o) ;;
    modify (fun s => set_disk (operator env t (disk s)) s) ;;
    match o with
    | Signalled => handle_shutdown
    | TimedOut => ret tt
    end.

(** How a bounded run of the loop ends. *)
Inductive run : Type :=
| Returned              (* the [while] condition failed *)
| StillRunning.         (* a further turn would start, beyond the bound *)

(** [monitor_servers] (lines 326-349), at most [turns] turns of the loop. *)
Fixpoint monitor_servers (turns : nat) : M run :=
  stop <- gets shutdown_event ;;
  if stop then ret Returned
  else
    match turns with
    | O => ret StillRunning
    | S turns' =>
        poll_iteration ;;
        wait_for_shutdown ;;
        monitor_servers turns'
    end.

(** [main] (lines 355-364) *)
Definition main (turns : nat) : M run :=
  send_email "VastAI Bot Started"
             ("🟢 VastAIBot v" ++ VERSION ++ " started successfully") VNone ;;
  fun s =>
    match monitor_servers turns s with
    | (Ok StillRunning, s') => (Ok StillRunning, s')
    | (r, s') =>
        match send_email "VastAI Bot Stopped"
                ("🔴 VastAIBot v" ++ VERSION ++ " stopped") VNone s' with
        | (Ok _, s'') => (r, s'')
        | (Raise e, s'') => (Raise e, s'')
        end
    end.

End Methods.

(** *** Vocabulary of the statements *)

Section Statements.

Variable cfg : settings.
Variable env : world.
Variable repr_other : value -> string.

Abbreviation str := (py_str repr_other).

(** Whether a compared field of the observation differs from the entry:
    the tests of lines 249, 256, 262, 268, 274 and 279 taken together, on
    the recorded values as lines 239-245 read them. *)
Definition differs (old_data : value) (o : observation) : result bool :=
  rbind (prior old_data "listed_gpu_cost" f0) (fun p_listed_gpu_cost =>
  rbind (prior old_data "listed_storage_cost" f0) (fun p_listed_storage_cost =>
  rbind (prior old_data "rented" (VBool false)) (fun p_rented =>
  rbind (prior old_data "rented_gpus" (VInt 0)) (fun p_rented_gpus =>
  rbind (prior old_data "min_bid_price" f0) (fun p_min_bid_price =>
  rbind (prior old_data "listed_min_gpu_count" f0) (fun p_listed_min_gpu_count =>
  rbind (prior old_data "num_reports" (VInt 0)) (fun p_num_reports =>
  Ok (py_ne p_rented (VBool (rented o)) || py_ne p_rented_gpus (rented_gpus o)
      || py_ne p_listed_gpu_cost (listed_gpu_cost o)
      || py_ne p_listed_storage_cost (listed_storage_cost o)
      || py_ne p_listed_min_gpu_count (listed_min_gpu_count o)
      || py_ne p_min_bid_price (min_bid_price o)
      || py_ne p_num_reports (num_reports o))))))))).

(** A machine that is not passed over gets its server line and its entry,
    and is compared with the entry it had. *)
Definition monitored (server : value) (server_id : string)
  (l l' : locals) (s s' : state) : Prop :=
  exists o d,
    observe repr_other server server_id = Ok o /\
    previous_status s = VDict d /\
    s' = set_previous_status (VDict (assoc_set server_id (snapshot o) d)) s /\
    account_lines l' = (account_lines l ++ [server_line o])%list /\
    match assoc server_id d with
    | None | Some VNone =>
        changes_detected l' = true /\ changes_lines l' = changes_lines l
    | Some old_data =>
        compare_with repr_other old_data server_id o
          (changes_detected l, changes_lines l)
        = Ok (changes_detected l', changes_lines l')
    end.

(** Two observations that agree on every field the diff reads. *)
Definition same_monitored_fields (o o' : observation) : Prop :=
  rented o = rented o' /\
  rented_gpus o = rented_gpus o' /\
  listed_gpu_cost o = listed_gpu_cost o' /\
  listed_storage_cost o = listed_storage_cost o' /\
  listed_min_gpu_count o = listed_min_gpu_count o' /\
  min_bid_price o = min_bid_price o' /\
  num_reports o = num_reports o'.

(** What [call_vast_api] makes of the reply the world gives at time [t]. *)
Definition api_reply (t : nat) (url : string) (api_key : value) : value :=
  match http env t url ("Bearer " ++ str api_key) with
  | HttpOk body => body
  | _ => VDict []
  end.

Definition is_log (e : event) : bool :=
  match e with
  | EvLog _ _ => true
  | _ => false
  end.

(** What [call_vast_api] may log, the signal handler included. *)
Definition is_api_log (e : event) : bool :=
  match e with
  | EvLog ERROR (LogFetchError _) => true
  | EvLog ERROR (LogInvalidJsonResponse _) => true
  | EvLog ERROR LogUnexpectedError => true
  | EvLog INFO LogShutdown => true
  | _ => false
  end.

Definition is_http_get (e : event) : bool :=
  match e with
  | EvHttpGet _ _ _ => true
  | _ => false
  end.

Definition is_wait (e : event) : bool :=
  match e with
  | EvWait _ _ => true
  | _ => false
  end.

Definition is_sendmail (e : event) : bool :=
  match e with
  | EvSmtp (SmtpSendmail _ _ _ _) _ => true
  | _ => false
  end.

(** Only [send_email] talks to the SMTP server or complains about missing
    recipients, and it always does one of the two first. *)
Definition is_notification (e : event) : bool :=
  match e with
  | EvSmtp _ _ => true
  | EvLog ERROR LogNoRecipients => true
  | EvLog INFO (LogEmailSent _) => true
  | EvLog ERROR LogEmailError => true
  | _ => false
  end.

Definition notification_attempted (events : list event) : bool :=
  existsb is_notification events.

Definition is_error (r : http_result) : bool :=
  match r with
  | HttpOk _ => false
  | _ => true
  end.

(** The request made at time [t] fails, whatever it asks for. *)
Definition failing (t : nat) : Prop :=
  forall url authorization, is_error (http env t url authorization) = true.

(** A message handed to the SMTP server carries the given subject and
    body. *)
Definition carries (subject body : string) (e : event) : Prop :=
  match e with
  | EvSmtp (SmtpSendmail _ _ subject' body') _ =>
      subject' = subject /\ body' = body
  | _ => True
  end.

(** A computation that only appends events satisfying [P] to the trace and
    advances the clock. *)
Definition only_emits {A} (P : event -> Prop) (m : M A) : Prop :=
  forall s,
    let s' := snd (m s) in
    previous_status s' = previous_status s /\
    vast_accounts s' = vast_accounts s /\
    disk s' = disk s /\
    shutdown_event s' = shutdown_event s /\
    exists events, trace s' = (trace s ++ events)%list /\ Forall P events.

(** The entries of the snapshot. *)
Definition entries (s : state) : list (string * value) :=
  match previous_status s with
  | VDict d => d
  | _ => []
  end.

(** The key under which a machine of the reply is recorded. *)
Definition server_key (server : value) : option string :=
  match py_get server "id" VNone with
  | Ok id => Some (str id)
  | Raise _ => None
  end.

(** What the loop records for a machine of the reply: nothing when the
    machine is passed over. *)
Definition recorded (all_server : bool) (server_ids server : value)
  : option (string * observation) :=
  match py_get server "id" VNone with
  | Ok id =>
      match skipped all_server server_ids (str id),
            observe repr_other server (str id) with
      | Ok false, Ok o => Some (str id, o)
      | _, _ => None
      end
  | Raise _ => None
  end.

Definition observed (all_server : bool) (server_ids : value)
  (machines : list value) : list (string * observation) :=
  flat_map (fun server =>
              match recorded all_server server_ids server with
              | Some ko => [ko]
              | None => []
              end) machines.

(** The last observation recorded under a key. *)
Fixpoint last_recorded (rs : list (string * observation)) (key : string)
  : option observation :=
  match rs with
  | [] => None
  | (k, o) :: rest =>
      match last_recorded rest key with
      | Some o' => Some o'
      | None => if String.eqb key k then Some o else None
      end
  end.

(** A monitored machine is new when the snapshot has no entry for it, and
    changed when a compared field differs from its entry. *)
Definition new_or_changed (d : list (string * value))
  (ko : string * observation) : bool :=
  match assoc (fst ko) d with
  | None | Some VNone => true
  | Some old_data =>
      match differs old_data (snd ko) with
      | Ok b => b
      | Raise _ => false
      end
  end.

(** The machine list that [process_account] gets when it starts in [s]: the
    reply to its third request. *)
Definition fetched_machines (s : state) (api_key : value)
  : result (list value) :=
  rbind (py_get (api_reply (2 + clock s) (VAST_URL cfg ++ "/machines") api_key)
                "machines" (VList []))
        py_iter.

(** The three requests of [process_account], in order. *)
Definition account_requests (api_key : value) : list event :=
  let authorization := "Bearer " ++ str api_key in
  [ EvHttpGet (VAST_URL cfg ++ "/users/current") authorization API_TIMEOUT;
    EvHttpGet (VAST_URL cfg ++ "/user/earnings") authorization API_TIMEOUT;
    EvHttpGet (VAST_URL cfg ++ "/machines") authorization API_TIMEOUT ].

(** The balance and the machine earnings that [process_account] reads when
    it starts in [s]: from the replies to its first and second request. *)
Definition fetched_balance (s : state) (api_key : value) : result value :=
  py_get (api_reply (clock s) (VAST_URL cfg ++ "/users/current") api_key)
         "balance" (VInt 0).

Definition fetched_earnings (s : state) (api_key : value) : result value :=
  rbind (py_get (api_reply (1 + clock s) (VAST_URL cfg ++ "/user/earnings")
                           api_key)
                "machine_earnings" (VInt 0))
        (fun raw => Ok (py_or raw f0)).

(** A computation that appends at least one event. *)
Definition grows {A} (m : M A) : Prop :=
  forall s,
    (List.length (trace s) < List.length (trace (snd (m s))))%nat.

(** What [process_account] records when it starts in [s]: the observations
    of the monitored machines of the reply, in order. *)
Definition account_observed (s : state) (account_data : value)
  : list (string * observation) :=
  match py_getitem account_data "api_key",
        py_getitem account_data "machine_ids" with
  | Ok api_key, Ok server_ids =>
      match py_in (VInt (-1)) server_ids, fetched_machines s api_key with
      | Ok all_server, Ok machines => observed all_server server_ids machines
      | _, _ => []
      end
  | _, _ => []
  end.

(** The loop over the accounts (lines 334-335). *)
Definition process_accounts (accounts : list (string * value)) : M unit :=
  for_each (fun kv _ => process_account cfg env repr_other (fst kv) (snd kv))
           accounts tt.

(** All that one turn of the poll loop records, account after account. *)
Fixpoint observed_in_turn (accounts : list (string * value)) (s : state)
  : list (string * observation) :=
  match accounts with
  | [] => []
  | (account_name, account_data) :: rest =>
      (account_observed s account_data ++
       observed_in_turn rest
         (snd (process_account cfg env repr_other account_name account_data s)))%list
  end.

(** What [load_json] returns for a file that can be read. *)
Definition file_content (f : file) : value :=
  match f with
  | FileJson v => v
  | _ => VDict []
  end.

Definition load_events (path : string) (f : file) : list event :=
  EvReadFile path ::
  match f with
  | FileAbsent => [EvLog WARNING (LogJsonNotFound path)]
  | FileGarbage => [EvLog ERROR (LogInvalidJsonFile path)]
  | _ => []
  end.

(** The state once a turn has reloaded both files (lines 331-332). *)
Definition reloaded (s : state) : state :=
  mkState (file_content (disk s STATUS_FILE))
          (file_content (disk s CONFIG_FILE))
          (shutdown_event s) (disk s) (clock s)
          (trace s ++ load_events STATUS_FILE (disk s STATUS_FILE) ++
           load_events CONFIG_FILE (disk s CONFIG_FILE))%list.

(** The rest of the turn (lines 334-341). *)
Definition after_reload : M unit :=
  bind (gets vast_accounts) (fun accounts =>
  bind (lift (py_items accounts)) (fun items =>
  bind (process_accounts items) (fun _ =>
  bind (gets previous_status) (fun previous =>
  bind (save_json env STATUS_FILE previous) (fun _ =>
  logging INFO (LogLoopCompleted (CHECK_INTERVAL cfg))))))).

(** The keys of an entry of the snapshot, in the order they are written. *)
Definition snapshot_keys : list string :=
  [ "rented"; "rented_gpus"; "listed_gpu_cost"; "listed_storage_cost";
    "min_bid_price"; "listed_min_gpu_count"; "earn_hour"; "earn_day";
    "reliability"; "num_reports"; "gpu_occupancy" ].







(** The pace of the poll loop, read off a trace.  A turn starts by reading
    the status file; it may start at the beginning and after a wait that
    timed out, and not once the signal handler has run.  The loop waits only
    after a turn, with the configured interval as timeout, and not once the
    handler has run. *)
Record pace : Type := mkPace {
  may_start : bool;
  stopping : bool
}.

Definition pace_step (interval : Z) (p : pace) (e : event) : option pace :=
  match e with
  | EvReadFile path =>
      if String.eqb path STATUS_FILE then
        if may_start p && negb (stopping p) then Some (mkPace false false)
        else None
      else Some p
  | EvWait timeout o =>
      if (timeout =? interval) && negb (may_start p) && negb (stopping p) then
        match o with
        | TimedOut => Some (mkPace true false)
        | Signalled => Some p
        end
      else None
  | EvLog INFO LogShutdown => Some (mkPace (may_start p) true)
  | _ => Some p
  end.

Fixpoint paced (interval : Z) (p : pace) (events : list event) : option pace :=
  match events with
  | [] => Some p
  | e :: rest =>
      match pace_step interval p e with
      | Some q => paced interval q rest
      | None => None
      end
  end.

(** An event that says nothing about the pace. *)
Definition neutral (e : event) : Prop :=
  forall interval p, pace_step interval p e = Some p.

(** A computation inside a turn: whatever its outcome, it only appends to
    the trace, starts no turn and does not wait, and the handler has run by
    the end exactly if the event is set. *)
Definition keeps_pace {A} (m : M A) : Prop :=
  forall interval may s,
  exists events,
    trace (snd (m s)) = (trace s ++ events)%list /\
    paced interval (mkPace may (shutdown_event s)) events
    = Some (mkPace may (shutdown_event (snd (m s)))).

(** *** Vocabulary of the further properties *)

(** Whom [send_email] writes to: the given recipients, or the configured
    address when none are given (lines 66-67). *)
Definition addressees (recipients : value) : value :=
  match recipients with
  | VNone => default_recipients cfg
  | _ => recipients
  end.

(** The state after one step with the SMTP server. *)
Definition smtp_step (c : smtp_cmd) (ok : bool) (s : state) : state :=
  set_trace (trace s ++ [EvSmtp c ok]) (set_clock (S (clock s)) s).

(** The recipients whose message the SMTP server accepted, in order. *)
Definition delivered (events : list event) : list value :=
  flat_map (fun e =>
              match e with
              | EvSmtp (SmtpSendmail _ recipient _ _) true => [recipient]
              | _ => []
              end) events.

(** The recipients a message was handed over for, accepted or not. *)
Definition attempted (events : list event) : list value :=
  flat_map (fun e =>
              match e with
              | EvSmtp (SmtpSendmail _ recipient _ _) _ => [recipient]
              | _ => []
              end) events.

(** The recipients are served in order, up to the first step that fails. *)
Definition serves {A} (rs : list value) (m : M A) : Prop :=
  forall s,
    exists events later,
      trace (snd (m s)) = (trace s ++ events)%list /\
      rs = (delivered events ++ later)%list /\
      (attempted events = delivered events \/
       attempted events = (delivered events ++ firstn 1 later)%list).


(** A computation that, whatever its outcome, only appends events
    satisfying [P] to the trace. *)
Definition appends {A} (P : event -> Prop) (m : M A) : Prop :=
  forall s,
    exists events,
      trace (snd (m s)) = (trace s ++ events)%list /\ Forall P events.

Definition is_file_access (e : event) : bool :=
  match e with
  | EvReadFile _ => true
  | EvWriteFile _ _ _ => true
  | _ => false
  end.

Definition is_write (e : event) : bool :=
  match e with
  | EvWriteFile _ _ _ => true
  | _ => false
  end.

(** An event of an account: no file is read or written, and nothing is
    waited for. *)
Definition within_account (e : event) : Prop :=
  is_file_access e = false /\ is_wait e = false.

(** An event of the part of a turn that comes before the snapshot is saved. *)
Definition before_saving (e : event) : Prop :=
  is_write e = false /\ is_wait e = false.

(** A computation that, when it raises, has only appended events
    satisfying [P]. *)
Definition fails_within {A} (P : event -> Prop) (m : M A) : Prop :=
  forall s e s1,
    m s = (Raise e, s1) ->
    exists events, trace s1 = (trace s ++ events)%list /\ Forall P events.

(** The two mails of [main] (lines 360 and 364). *)
Definition started_mail : string * string :=
  ("VastAI Bot Started", "🟢 VastAIBot v" ++ VERSION ++ " started successfully").

Definition stopped_mail : string * string :=
  ("VastAI Bot Stopped", "🔴 VastAIBot v" ++ VERSION ++ " stopped").

(** The same world in which no signal ever arrives during a request. *)
Definition without_signal : world :=
  {| http := http env;
     smtp := smtp env;
     disk_write := disk_write env;
     timer := timer env;
     signal := fun _ => false;
     operator := operator env |}.

(** The log line of the signal handler. *)
Definition is_shutdown_log (e : event) : bool :=
  match e with
  | EvLog INFO LogShutdown => true
  | _ => false
  end.

(** The trace without the log lines of the signal handler. *)
Definition undisturbed (events : list event) : list event :=
  filter (fun e => negb (is_shutdown_log e)) events.

(** Two states that differ at most in the shutdown event and in the log
    lines of the signal handler. *)
Definition alike (s s' : state) : Prop :=
  previous_status s = previous_status s' /\
  vast_accounts s = vast_accounts s' /\
  disk s = disk s' /\
  clock s = clock s' /\
  undisturbed (trace s) = undisturbed (trace s').

(** Two computations that, from states that are alike, end alike. *)
Definition simulates {A} (m m' : M A) : Prop :=
  forall s s',
    alike s s' ->
    fst (m s) = fst (m' s') /\ alike (snd (m s)) (snd (m' s')).

(** A message as a sequence of pieces: text without any byte of an emoji,
    and symbols of the table with the text that stands for them. *)
Inductive piece : Type :=
| Text (s : string)
| Emoji (symbol text : string).

Definition is_plain_char (c : ascii) : bool := (N_of_ascii c <? 128)%N.

Definition plain (s : string) : bool :=
  forallb is_plain_char (list_ascii_of_string s).

Definition well_formed (p : piece) : Prop :=
  match p with
  | Text s => plain s = true
  | Emoji symbol text => In (symbol, text) emoji_map
  end.

(** A string that starts with a byte of a character beyond ASCII. *)
Definition starts_high (s : string) : bool :=
  match s with
  | String c _ => negb (is_plain_char c)
  | EmptyString => false
  end.

(** Two strings that differ at a byte both have. *)
Fixpoint clash (s t : string) : bool :=
  match s, t with
  | String a s', String b t' => if Ascii.eqb a b then clash s' t' else true
  | _, _ => false
  end.

(** [symbol] occurs nowhere in a string that starts with [other]: they
    differ where they overlap, and no later byte of [other] is the first
    byte of [symbol]. *)
Definition apart (symbol other : string) : bool :=
  clash symbol other &&
  match symbol, other with
  | String c _, String _ tail =>
      forallb (fun b => negb (Ascii.eqb b c)) (list_ascii_of_string tail)
  | _, _ => false
  end.

(** What the replacing relies on: every symbol of the table starts beyond
    ASCII, every text is plain, two entries with the same symbol have the
    same text, and different symbols are apart. *)
Definition table_sound : bool :=
  forallb (fun kv =>
             starts_high (fst kv) && plain (snd kv) &&
             forallb (fun kv' =>
                        if String.eqb (fst kv') (fst kv)
                        then String.eqb (snd kv') (snd kv)
                        else apart (fst kv) (fst kv'))
                     emoji_map)
          emoji_map.

(** The message as the bot builds it, and as the mail shows it. *)
Definition written (pieces : list piece) : string :=
  fold_right (fun p rest =>
                match p with
                | Text s => s ++ rest
                | Emoji symbol _ => symbol ++ rest
                end) "" pieces.

Definition shown (pieces : list piece) : string :=
  fold_right (fun p rest =>
                match p with
                | Text s => s ++ rest
                | Emoji _ text => text ++ rest
                end) "" pieces.

(** The message while the table is gone through: the symbols of [done] are
    replaced, the others are not yet. *)
Definition replaced (done : list (string * string)) (pieces : list piece)
  : string :=
  fold_right (fun p rest =>
                match p with
                | Text s => s ++ rest
                | Emoji symbol text =>
                    if existsb (fun kv => String.eqb symbol (fst kv)) done
                    then text ++ rest else symbol ++ rest
                end) "" pieces.

(** A monitored machine has more rented GPUs than its entry records. *)
Definition rental_started (d : list (string * value))
  (ko : string * observation) : bool :=
  match assoc (fst ko) d with
  | None | Some VNone => false
  | Some old_data =>
      match prior old_data "rented_gpus" (VInt 0) with
      | Ok p =>
          match py_lt p (rented_gpus (snd ko)) with
          | Ok true => true
          | _ => false
          end
      | Raise _ => false
      end
  end.

(** The subject and the body of every message handed to the server. *)
Definition mails (events : list event) : list (string * string) :=
  flat_map (fun e =>
              match e with
              | EvSmtp (SmtpSendmail _ _ subject body) _ => [(subject, body)]
              | _ => []
              end) events.

End Statements.

End VastAIBot.

(** ** A small deployment, for running the definitions

    One account [main] that monitors every machine, one machine [101] with
    two GPUs.  The API is polled twice: the machine is idle at first, and in
    the second poll only its reliability has moved. *)

Module Scenario.
Import Py VastAIBot.

Definition cfg : settings :=
  {| CHECK_INTERVAL := 300;
     VAST_URL := "https://console.vast.ai/api/v0";
     SMTP_SERVER := Some "smtp.example.org";
     SMTP_PORT := 587;
     SMTP_USE_TLS := true;
     SMTP_USERNAME := Some "bot";
     SMTP_PASSWORD := Some "secret";
     EMAIL_FROM := Some "bot@example.org";
     EMAIL_TO := Some "owner@example.org" |}.

(** Stands for [repr] on floats and containers. *)
Definition repr_other (v : value) : string := "<repr>".

(** 0.5, 0.25, 0.995 and 0.75 as binary64 *)
Definition half : spec_float := S754_finite false 4503599627370496 (-53).
Definition quarter : spec_float := S754_finite false 4503599627370496 (-54).
Definition f0995 : spec_float := S754_finite false 8962163258467287 (-53).
Definition f075 : spec_float := S754_finite false 6755399441055744 (-53).

Definition machine (id running : Z) (occupancy : string)
  (reliability2 : spec_float) : value :=
  VDict [ ("id", VInt id);
          ("listed", VBool true);
          ("current_rentals_running", VInt running);
          ("current_rentals_resident", VInt 0);
          ("gpu_occupancy", VStr occupancy);
          ("reliability2", VFloat reliability2);
          ("num_gpus", VInt 2);
          ("listed_gpu_cost", VFloat half);
          ("listed_storage_cost", VFloat quarter);
          ("min_bid_price", VFloat quarter);
          ("listed_min_gpu_count", VInt 1);
          ("num_reports", VInt 0) ].

Definition idle : value := machine 101 0 "x x" f0995.
Definition idle_less_reliable : value := machine 101 0 "x x" f075.
Definition rented_out : value := machine 101 1 "D x" f0995.

Definition account : value :=
  VDict [ ("api_key", VStr "key-1"); ("machine_ids", VList [VInt (-1)]) ].

Definition account_of_102 : value :=
  VDict [ ("api_key", VStr "key-1"); ("machine_ids", VList [VInt 102]) ].

Definition config : value := VDict [ ("main", account) ].

Definition ends_with (suffix s : string) : bool :=
  String.eqb
    (substring (String.length s - String.length suffix)
               (String.length suffix) s)
    suffix.

(** The API serving [machines] as the machine list. *)
Definition serve (machines : list value) (url : string) : http_result :=
  if ends_with "/machines" url then
    HttpOk (VDict [ ("machines", VList machines) ])
  else if ends_with "/users/current" url then
    HttpOk (VDict [ ("balance", VFloat half) ])
  else HttpOk (VDict [ ("machine_earnings", VInt 3) ]).

Definition quiet (reply : nat -> string -> http_result) (mail : bool) : world :=
  {| http := fun t url _ => reply t url;
     smtp := fun _ _ => mail;
     disk_write := fun _ _ => WriteOk;
     timer := fun _ => TimedOut;
     signal := fun _ => false;
     operator := fun _ d => d |}.

(** The machine is idle, then idle and less reliable. *)
Definition env : world :=
  quiet (fun t url =>
           if (t <? 5)%nat then serve [idle] url
           else serve [idle_less_reliable] url) true.

(** The machine is rented out, with one GPU taken. *)
Definition env_rented : world := quiet (fun _ url => serve [rented_out] url) true.

(** The API is down. *)
Definition env_down : world := quiet (fun _ _ => HttpClientError) true.


Definition disk0 : filesystem :=
  fun path => if String.eqb path CONFIG_FILE then FileJson config else FileAbsent.

(** The state after the first turn of the loop. *)
Definition after_first_poll : state :=
  snd (poll_iteration cfg env repr_other (init disk0)).

Definition no_changes : locals := no_locals.

Definition value_of {A} (default : A) (r : result A) : A :=
  match r with
  | Ok a => a
  | Raise _ => default
  end.

Definition blank : observation :=
  {| rented := false; rented_gpus := VNone; num_gpus := VNone;
     listed_gpu_cost := VNone; listed_storage_cost := VNone;
     min_bid_price := VNone; listed_min_gpu_count := VNone;
     earn_hour := VNone; earn_day := VNone; reliability := VNone;
     num_reports := VNone; gpu_occupancy := VNone;
     status_str := ""; server_line := "" |}.

(** What is observed of a machine, under the key 101. *)
Definition seen (server : value) : observation :=
  value_of blank (observe repr_other server "101").

(** What the first poll recorded for machine 101. *)
Definition entry_idle : list (string * value) :=
  [ ("rented", VBool false);
    ("rented_gpus", VInt 0);
    ("listed_gpu_cost", VFloat half);
    ("listed_storage_cost", VFloat quarter);
    ("min_bid_price", VFloat quarter);
    ("listed_min_gpu_count", VInt 1);
    ("earn_hour", VFloat float_zero);
    ("earn_day", VFloat float_zero);
    ("reliability", VFloat f0995);
    ("num_reports", VInt 0);
    ("gpu_occupancy", VStr "x x") ].

(** The loop body on a machine, after the first poll. *)
Definition look_at (server_ids server : value) : result locals * state :=
  process_server repr_other
    (value_of false (py_in (VInt (-1)) server_ids)) server_ids server
    no_changes after_first_poll.

(** The machine withdrawn from the market, its price still in the reply. *)
Definition withdrawn : value :=
  VDict [ ("id", VInt 101);
          ("listed", VBool false);
          ("current_rentals_running", VInt 0);
          ("current_rentals_resident", VInt 0);
          ("gpu_occupancy", VStr "");
          ("reliability2", VFloat f0995);
          ("num_gpus", VInt 2);
          ("listed_gpu_cost", VFloat half);
          ("num_reports", VInt 0) ].

(** An account whose key was left out of the configuration. *)
Definition account_without_key : list (string * value) :=
  [ ("machine_ids", VList [VInt (-1)]) ].

Definition disk_without_key : filesystem :=
  fun path =>
    if String.eqb path CONFIG_FILE
    then FileJson (VDict [ ("main", VDict account_without_key) ])
    else FileAbsent.


(** Two people to write to. *)
Definition two_recipients : list value :=
  [ VStr "owner@example.org"; VStr "second@example.org" ].

(** The first line of a mail, piece by piece. *)
Definition headline : list piece :=
  [ Emoji "👤" "Running:"; Text " main "; Emoji "💰" "Balance:";
    Text " 0.50$ "; Emoji "🏦" "Earnings:"; Text " 3.00$" ].

End Scenario.

Module Properties.
Import Py VastAIBot.

(** ** Properties *)

(** *** Running a computation to a value *)

Lemma bind_ok {A B} (m : M A) (k : A -> M B) s b s' :
  bind m k s = (Ok b, s') ->
  exists a s1, m s = (Ok a, s1) /\ k a s1 = (Ok b, s').
Proof.
  unfold bind. destruct (m s) as [[a|e] s1]; intros H.
  - exists a, s1. auto.
  - discriminate.
Qed.

Lemma lift_ok {A} (r : result A) s a s' :
  lift r s = (Ok a, s') -> r = Ok a /\ s' = s.
Proof. unfold lift. intros H. inversion H. auto. Qed.

Lemma ret_ok {A} (x : A) s a s' : ret x s = (Ok a, s') -> a = x /\ s' = s.
Proof. unfold ret. intros H. inversion H. auto. Qed.

Lemma gets_ok {A} (f : state -> A) s a s' :
  gets f s = (Ok a, s') -> a = f s /\ s' = s.
Proof. unfold gets. intros H. inversion H. auto. Qed.

Lemma modify_ok (f : state -> state) s a s' :
  modify f s = (Ok a, s') -> s' = f s.
Proof. unfold modify. intros H. inversion H. auto. Qed.

Lemma rbind_ok {A B} (r : result A) (k : A -> result B) b :
  rbind r k = Ok b -> exists a, r = Ok a /\ k a = Ok b.
Proof. destruct r as [a|e]; simpl; intros H; [eauto | discriminate]. Qed.

(** Take a successful run apart, one step at a time. *)
Ltac step_in H :=
  match type of H with
  | bind _ _ _ = (Ok _, _) =>
      let a := fresh "a" in
      let s1 := fresh "s" in
      let H1 := fresh "H" in
      apply bind_ok in H; destruct H as (a & s1 & H1 & H); cbv beta in H;
      step_in H1
  | lift _ _ = (Ok _, _) =>
      let E := fresh "E" in apply lift_ok in H; destruct H as (E & ->)
  | ret _ _ = (Ok _, _) =>
      let E := fresh "E" in apply ret_ok in H; destruct H as (E & ->);
      try subst
  | gets _ _ = (Ok _, _) =>
      let E := fresh "E" in apply gets_ok in H; destruct H as (E & ->);
      try subst
  | modify _ _ = (Ok _, _) => apply modify_ok in H; try subst
  | _ => idtac
  end.

Ltac steps_in H := repeat (progress step_in H).

Lemma bind_run {A B} (m : M A) (k : A -> M B) s a s1 :
  m s = (Ok a, s1) -> bind m k s = k a s1.
Proof. unfold bind. now intros ->. Qed.

Lemma bind_lift {A B} (r : result A) (k : A -> M B) s a :
  r = Ok a -> bind (lift r) k s = k a s.
Proof. unfold bind, lift. now intros ->. Qed.

Lemma bind_gets {A B} (f : state -> A) (k : A -> M B) s :
  bind (gets f) k s = k (f s) s.
Proof. reflexivity. Qed.

Lemma bind_modify {B} (f : state -> state) (k : unit -> M B) s :
  bind (modify f) k s = k tt (f s).
Proof. reflexivity. Qed.

Lemma filter_none {A} (p q : A -> bool) l :
  (forall x, q x = true -> p x = false) ->
  Forall (fun x => q x = true) l -> filter p l = [].
Proof.
  intros D H. induction H as [|x l Hx _ IH]; simpl.
  - reflexivity.
  - now rewrite (D x Hx).
Qed.

(** *** Computations that only emit events *)

Lemma only_emits_ret {A} P (a : A) : only_emits P (ret a).
Proof.
  intros s. simpl. repeat split. exists []. now rewrite app_nil_r.
Qed.

Lemma only_emits_lift {A} P (r : result A) : only_emits P (lift r).
Proof.
  intros s. simpl. repeat split. exists []. now rewrite app_nil_r.
Qed.

Lemma only_emits_emit (P : event -> Prop) e : P e -> only_emits P (emit e).
Proof.
  intros H s. simpl. repeat split. exists [e]. split; [reflexivity|].
  now constructor.
Qed.

Lemma only_emits_bind {A B} P (m : M A) (k : A -> M B) :
  only_emits P m -> (forall a, only_emits P (k a)) -> only_emits P (bind m k).
Proof.
  intros Hm Hk s. specialize (Hm s). unfold bind.
  destruct (m s) as [[a|e] s1]; simpl in *.
  - specialize (Hk a s1). destruct (k a s1) as [r s2]; simpl in *.
    destruct Hm as (P1 & V1 & D1 & S1 & ev1 & T1 & F1).
    destruct Hk as (P2 & V2 & D2 & S2 & ev2 & T2 & F2).
    repeat split; try congruence. exists (ev1 ++ ev2)%list. split.
    + now rewrite T2, T1, app_assoc.
    + now apply Forall_app.
  - exact Hm.
Qed.

Lemma only_emits_tick {B} P (k : nat -> M B) :
  (forall t, only_emits P (k t)) -> only_emits P (bind tick k).
Proof.
  intros Hk s. unfold bind, tick.
  specialize (Hk (clock s) (set_clock (S (clock s)) s)).
  destruct s; exact Hk.
Qed.

Lemma only_emits_try_except {A} P (m : M A) (h : exn -> M A) :
  only_emits P m -> (forall e, only_emits P (h e)) ->
  only_emits P (try_except m h).
Proof.
  intros Hm Hh s. specialize (Hm s). unfold try_except.
  destruct (m s) as [[a|e] s1]; simpl in *.
  - exact Hm.
  - specialize (Hh e s1). destruct (h e s1) as [r s2]; simpl in *.
    destruct Hm as (P1 & V1 & D1 & S1 & ev1 & T1 & F1).
    destruct Hh as (P2 & V2 & D2 & S2 & ev2 & T2 & F2).
    repeat split; try congruence. exists (ev1 ++ ev2)%list. split.
    + now rewrite T2, T1, app_assoc.
    + now apply Forall_app.
Qed.

Lemma only_emits_for_each {A S} P (body : A -> S -> M S) l :
  (forall x acc, only_emits P (body x acc)) ->
  forall acc, only_emits P (for_each body l acc).
Proof.
  intros Hb. induction l as [|x l IH]; intros acc; simpl.
  - apply only_emits_ret.
  - apply only_emits_bind; [apply Hb | exact IH].
Qed.

Lemma only_emits_length {A} P (m : M A) s :
  only_emits P m ->
  (List.length (trace s) <= List.length (trace (snd (m s))))%nat.
Proof.
  intros H. destruct (H s) as (_ & _ & _ & _ & ev & -> & _).
  rewrite length_app. lia.
Qed.

Lemma grows_emit e : grows (emit e).
Proof. intros s. simpl. rewrite length_app. simpl. lia. Qed.

Lemma grows_bind {A B} P (m : M A) (k : A -> M B) :
  grows m -> (forall a, only_emits P (k a)) -> grows (bind m k).
Proof.
  intros Hm Hk s. specialize (Hm s). unfold bind.
  destruct (m s) as [[a|e] s1]; simpl in *.
  - pose proof (only_emits_length P (k a) s1 (Hk a)). lia.
  - exact Hm.
Qed.

Lemma grows_try_except {A} P (m : M A) (h : exn -> M A) :
  grows m -> (forall e, only_emits P (h e)) -> grows (try_except m h).
Proof.
  intros Hm Hh s. specialize (Hm s). unfold try_except.
  destruct (m s) as [[a|e] s1]; simpl in *.
  - exact Hm.
  - pose proof (only_emits_length P (h e) s1 (Hh e)). lia.
Qed.

Lemma existsb_agree {A} (f g : A -> bool) l :
  (forall x, In x l -> f x = g x) -> existsb f l = existsb g l.
Proof.
  induction l as [|x l IH]; simpl; intros H.
  - reflexivity.
  - rewrite (H x) by now left. rewrite IH; [reflexivity|].
    intros y Hy. apply H. now right.
Qed.

(** *** Decimal numerals: [int(str(n))] is [n] *)

Lemma digit_is_plain c :
  is_digit c = true ->
  is_space c = false /\ Ascii.eqb c "_" = false /\
  Ascii.eqb c "-" = false /\ Ascii.eqb c "+" = false.
Proof.
  destruct c as [[] [] [] [] [] [] [] []]; intros H;
    try discriminate H; repeat split; reflexivity.
Qed.

Lemma string_of_uint_digits d :
  all_digits (NilEmpty.string_of_uint d) = true.
Proof. induction d; simpl; auto. Qed.

Lemma lstrip_digits s : all_digits s = true -> lstrip s = s.
Proof.
  destruct s as [|c r]; simpl; [reflexivity|].
  intros H. apply andb_prop in H. destruct H as (Hc & _).
  destruct (digit_is_plain c Hc) as (-> & _). reflexivity.
Qed.

Lemma rstrip_digits s : all_digits s = true -> rstrip s = s.
Proof.
  induction s as [|c r IH]; simpl; [reflexivity|].
  intros H. apply andb_prop in H. destruct H as (Hc & Hr).
  rewrite (IH Hr). destruct (digit_is_plain c Hc) as (-> & _).
  now destruct r.
Qed.

Lemma drop_underscores_digits s :
  forall after_digit,
    all_digits s = true -> drop_underscores after_digit s = Some s.
Proof.
  induction s as [|c r IH]; intros b; simpl; [reflexivity|].
  intros H. apply andb_prop in H. destruct H as (Hc & Hr).
  destruct (digit_is_plain c Hc) as (_ & -> & _).
  now rewrite (IH _ Hr).
Qed.

Lemma digits_value_of_uint d :
  d <> Decimal.Nil ->
  digits_value (NilEmpty.string_of_uint d) = Ok (Z.of_uint d).
Proof.
  intros H. unfold digits_value.
  rewrite (drop_underscores_digits _ _ (string_of_uint_digits d)).
  assert (E : NilZero.uint_of_string (NilEmpty.string_of_uint d) = Some d).
  { rewrite <- (NilZero.usu d H). now destruct d. }
  now rewrite E.
Qed.

Lemma py_int_of_uint d :
  d <> Decimal.Nil ->
  py_int (NilEmpty.string_of_uint d) = Ok (Z.of_uint d) /\
  py_int (String "-" (NilEmpty.string_of_uint d)) = Ok (- Z.of_uint d).
Proof.
  intros H. pose proof (string_of_uint_digits d) as A.
  pose proof (digits_value_of_uint d H) as V. split.
  - unfold py_int. rewrite (lstrip_digits _ A), (rstrip_digits _ A).
    destruct d; try contradiction; exact V.
  - unfold py_int. change (lstrip (String "-" (NilEmpty.string_of_uint d)))
      with (String "-" (NilEmpty.string_of_uint d)).
    change (rstrip (String "-" (NilEmpty.string_of_uint d)))
      with (match rstrip (NilEmpty.string_of_uint d) with
            | EmptyString => String "-" EmptyString
            | r' => String "-" r'
            end).
    rewrite (rstrip_digits _ A).
    destruct d; try contradiction; cbn [NilEmpty.string_of_uint] in *;
      cbv beta iota; now rewrite V.
Qed.

Lemma py_int_str_of_int n : py_int (str_of_int n) = Ok n.
Proof.
  unfold str_of_int. rewrite <- (DecimalZ.of_to n) at 2.
  destruct n as [|p|p]; simpl Z.to_int.
  - reflexivity.
  - pose proof (DecimalPos.Unsigned.to_uint_nonnil p) as H.
    destruct (py_int_of_uint _ H) as (E & _).
    simpl. destruct (Pos.to_uint p); try contradiction; exact E.
  - pose proof (DecimalPos.Unsigned.to_uint_nonnil p) as H.
    destruct (py_int_of_uint _ H) as (_ & E).
    simpl. destruct (Pos.to_uint p); try contradiction; exact E.
Qed.

(** *** The pace of computations *)

Lemma paced_app interval p ev1 ev2 :
  paced interval p (ev1 ++ ev2)
  = match paced interval p ev1 with
    | Some q => paced interval q ev2
    | None => None
    end.
Proof.
  revert p. induction ev1 as [|e ev1 IH]; intros p; simpl.
  - reflexivity.
  - destruct (pace_step interval p e); [apply IH | reflexivity].
Qed.

Lemma paced_neutral interval p events :
  Forall neutral events -> paced interval p events = Some p.
Proof.
  induction 1 as [|e events He _ IH]; simpl.
  - reflexivity.
  - now rewrite He.
Qed.

Lemma keeps_pace_ret {A} (a : A) : keeps_pace (ret a).
Proof. intros i may s. exists []. simpl. now rewrite app_nil_r. Qed.

Lemma keeps_pace_lift {A} (r : result A) : keeps_pace (lift r).
Proof. intros i may s. exists []. simpl. now rewrite app_nil_r. Qed.

Lemma keeps_pace_gets {A} (f : state -> A) : keeps_pace (gets f).
Proof. intros i may s. exists []. simpl. now rewrite app_nil_r. Qed.

Lemma keeps_pace_emit e : neutral e -> keeps_pace (emit e).
Proof.
  intros H i may s. exists [e]. simpl. split; [reflexivity|]. now rewrite H.
Qed.

Lemma keeps_pace_modify (f : state -> state) :
  (forall s, trace (f s) = trace s /\ shutdown_event (f s) = shutdown_event s) ->
  keeps_pace (modify f).
Proof.
  intros H i may s. exists []. simpl. destruct (H s) as (-> & ->).
  now rewrite app_nil_r.
Qed.

Lemma keeps_pace_bind {A B} (m : M A) (k : A -> M B) :
  keeps_pace m -> (forall a, keeps_pace (k a)) -> keeps_pace (bind m k).
Proof.
  intros Hm Hk i may s. destruct (Hm i may s) as (ev1 & T1 & P1).
  unfold bind. destruct (m s) as [[a|e] s1]; simpl in *.
  - destruct (Hk a i may s1) as (ev2 & T2 & P2).
    exists (ev1 ++ ev2)%list. split.
    + now rewrite T2, T1, app_assoc.
    + now rewrite paced_app, P1.
  - exists ev1. auto.
Qed.

Lemma keeps_pace_tick {B} (k : nat -> M B) :
  (forall t, keeps_pace (k t)) -> keeps_pace (bind tick k).
Proof.
  intros Hk i may s. unfold bind, tick.
  specialize (Hk (clock s) i may (set_clock (S (clock s)) s)).
  destruct s; exact Hk.
Qed.

Lemma keeps_pace_try_except {A} (m : M A) (h : exn -> M A) :
  keeps_pace m -> (forall e, keeps_pace (h e)) -> keeps_pace (try_except m h).
Proof.
  intros Hm Hh i may s. destruct (Hm i may s) as (ev1 & T1 & P1).
  unfold try_except. destruct (m s) as [[a|e] s1]; simpl in *.
  - exists ev1. auto.
  - destruct (Hh e i may s1) as (ev2 & T2 & P2).
    exists (ev1 ++ ev2)%list. split.
    + now rewrite T2, T1, app_assoc.
    + now rewrite paced_app, P1.
Qed.

Lemma keeps_pace_for_each {A S} (body : A -> S -> M S) l :
  (forall x acc, keeps_pace (body x acc)) ->
  forall acc, keeps_pace (for_each body l acc).
Proof.
  intros Hb. induction l as [|x l IH]; intros acc; simpl.
  - apply keeps_pace_ret.
  - apply keeps_pace_bind; [apply Hb | exact IH].
Qed.

Lemma only_emits_keeps_pace {A} (P : event -> Prop) (m : M A) :
  (forall e, P e -> neutral e) -> only_emits P m -> keeps_pace m.
Proof.
  intros HP Hm i may s.
  destruct (Hm s) as (_ & _ & _ & Hs & events & Ht & Hf).
  exists events. split; [exact Ht|]. rewrite Hs.
  apply paced_neutral. eapply Forall_impl; [|exact Hf]. exact HP.
Qed.

(** *** Falsy numbers *)







(** *** Dictionaries *)

Lemma assoc_set_same {A} k (x : A) d : assoc k (assoc_set k x d) = Some x.
Proof.
  induction d as [|[k' y] d IH]; simpl.
  - now rewrite String.eqb_refl.
  - destruct (String.eqb k k') eqn:E; simpl.
    + now rewrite String.eqb_refl.
    + now rewrite E.
Qed.

Lemma assoc_set_other {A} k k' (x : A) d :
  k <> k' -> assoc k (assoc_set k' x d) = assoc k d.
Proof.
  intros N. induction d as [|[k2 y] d IH]; simpl.
  - destruct (String.eqb_spec k k'); [contradiction | reflexivity].
  - destruct (String.eqb_spec k' k2) as [->|N2]; simpl.
    + destruct (String.eqb_spec k k2); [contradiction | reflexivity].
    + destruct (String.eqb_spec k k2); [reflexivity | exact IH].
Qed.

Lemma py_get_dict v key default x :
  py_get v key default = Ok x -> exists d, v = VDict d.
Proof. destruct v; simpl; intros H; try discriminate. eauto. Qed.

Section Bot.

Variable cfg : settings.
Variable env : world.
Variable repr_other : value -> string.

Abbreviation str := (py_str repr_other).

Lemma process_server_ok all_server server_ids server l s l' s' :
  process_server repr_other all_server server_ids server l s = (Ok l', s') ->
  exists id skip,
    py_get server "id" VNone = Ok id /\
    skipped all_server server_ids (str id) = Ok skip /\
    if skip then l' = l /\ s' = s
    else monitored repr_other server (str id) l l' s s'.
Proof.
  unfold process_server. intros H. steps_in H.
  exists a, a0. split; [assumption|]. split; [assumption|].
  destruct a0.
  - steps_in H. auto.
  - steps_in H.
    match goal with
    | E : py_get (previous_status s) _ _ = Ok ?x |- _ =>
        destruct (py_get_dict _ _ _ _ E) as [d Ed]; rewrite Ed in E;
        simpl in E; inversion E; subst x; clear E
    end.
    match goal with
    | E : py_setitem _ _ _ = Ok ?x |- _ =>
        rewrite Ed in E; simpl in E; inversion E; subst x; clear E
    end.
    match goal with
    | E : observe _ _ _ = Ok ?o |- _ => exists o, d
    end.
    repeat split; try assumption.
    destruct (assoc (str a) d) as [old|]; simpl.
    + match goal with
      | E : _ = Ok ?x |- _ =>
          destruct old; try (now inversion E);
            rewrite E; destruct x; reflexivity
      end.
    + match goal with E : Ok _ = Ok _ |- _ => now inversion E end.
Qed.

Lemma when_changed_ok test line acc acc' :
  when_changed test line acc = Ok acc' ->
  fst acc' = fst acc || test /\
  exists added,
    snd acc' = (snd acc ++ added)%list /\ (added = [] <-> test = false).
Proof.
  unfold when_changed. destruct test.
  - intros H. apply rbind_ok in H. destruct H as (x & _ & H).
    inversion H; subst; simpl. split; [now rewrite orb_true_r|].
    exists [x]. split; [reflexivity|]. split; discriminate.
  - intros H. inversion H; subst. split; [now rewrite orb_false_r|].
    exists []. split; [now rewrite app_nil_r|]. tauto.
Qed.

Ltac rsteps_in H :=
  repeat match type of H with
         | rbind _ _ = Ok _ =>
             let x := fresh "x" in
             let E := fresh "E" in
             apply rbind_ok in H; destruct H as (x & E & H); cbv beta in H
         end.

(** The comparison sets the flag, and appends lines, exactly when a
    monitored field differs. *)
Lemma compare_with_ok old_data server_id o acc acc' :
  compare_with repr_other old_data server_id o acc = Ok acc' ->
  exists d,
    differs old_data o = Ok d /\
    fst acc' = fst acc || d /\
    exists added,
      snd acc' = (snd acc ++ added)%list /\ (added = [] <-> d = false).
Proof.
  unfold compare_with, differs. intros H. rsteps_in H.
  repeat match goal with
         | E : prior _ _ _ = Ok _ |- _ => rewrite E; clear E
         end.
  simpl rbind.
  repeat match goal with
         | E : when_changed _ _ _ = Ok _ |- _ =>
             apply when_changed_ok in E;
             let A := fresh "added" in
             let F := fresh "F" in
             let L := fresh "L" in
             let N := fresh "N" in
             destruct E as (F & A & L & N)
         end.
  match goal with
  | N : _ <-> ?a || ?b = false |- _ => set (t1 := a || b) in *
  end.
  eexists. split; [reflexivity|]. split.
  - rewrite F, F0, F1, F2, F3, F4. now rewrite !orb_assoc.
  - exists (added4 ++ added3 ++ added2 ++ added1 ++ added0 ++ added)%list.
    split.
    + rewrite L, L0, L1, L2, L3, L4. now rewrite <- !app_assoc.
    + rewrite !orb_false_iff. split.
      * intros Z.
        repeat match goal with
               | Z : (_ ++ _)%list = [] |- _ =>
                   apply app_eq_nil in Z; destruct Z as (? & Z)
               end.
        intuition.
      * intros Z. 
        assert (added0 = []) as -> by intuition.
        assert (added1 = []) as -> by intuition.
        assert (added2 = []) as -> by intuition.
        assert (added3 = []) as -> by intuition.
        assert (added4 = []) as -> by intuition.
        assert (added = []) as -> by intuition.
        reflexivity.
Qed.

(** C1 (as amended).  For a machine with an entry in the snapshot,
    processing sets [changes_detected] and appends change lines exactly when
    one of the compared fields differs from the entry: [rented],
    [rented_gpus], [listed_gpu_cost], [listed_storage_cost],
    [listed_min_gpu_count], [min_bid_price], [num_reports].  Nothing else is
    compared: observations that agree on these fields, whatever their
    reliability, earnings or occupancy string, are told apart from the entry
    in the same way. *)
Theorem changes_detected_iff_compared_field_differs
  all_server server_ids server id entry l s l' s' :
  py_get server "id" VNone = Ok id ->
  skipped all_server server_ids (str id) = Ok false ->
  py_get (previous_status s) (str id) VNone = Ok (VDict entry) ->
  process_server repr_other all_server server_ids server l s = (Ok l', s') ->
  exists o d,
    observe repr_other server (str id) = Ok o /\
    differs (VDict entry) o = Ok d /\
    changes_detected l' = changes_detected l || d /\
    (exists added,
        changes_lines l' = (changes_lines l ++ added)%list /\
        (added = [] <-> d = false)) /\
    forall o', same_monitored_fields o o' -> differs (VDict entry) o' = Ok d.
Proof.
  intros Hid Hskip Hentry Hrun.
  apply process_server_ok in Hrun.
  destruct Hrun as (id' & skip & Hid' & Hskip' & Hrun).
  rewrite Hid in Hid'. inversion Hid'; subst id'; clear Hid'.
  rewrite Hskip in Hskip'. inversion Hskip'; subst skip; clear Hskip'.
  destruct Hrun as (o & d & Hobs & Hprev & _ & _ & Hcmp).
  rewrite Hprev in Hentry. simpl in Hentry.
  destruct (assoc (str id) d) as [old|]; [|discriminate].
  inversion Hentry; subst old; clear Hentry.
  apply compare_with_ok in Hcmp. simpl in Hcmp.
  destruct Hcmp as (b & Hd & Hflag & Hlines).
  exists o, b. repeat split; try assumption.
  intros o' (E1 & E2 & E3 & E4 & E5 & E6 & E7).
  rewrite <- Hd. unfold differs.
  now rewrite E1, E2, E3, E4, E5, E6, E7.
Qed.


(** *** The loop over the machines *)

Lemma process_server_recorded all_server server_ids server l s l' s' :
  process_server repr_other all_server server_ids server l s = (Ok l', s') ->
  match recorded repr_other all_server server_ids server with
  | None => l' = l /\ s' = s
  | Some (key, o) =>
      exists d,
        previous_status s = VDict d /\
        s' = set_previous_status (VDict (assoc_set key (snapshot o) d)) s /\
        account_lines l' = (account_lines l ++ [server_line o])%list /\
        changes_detected l' = changes_detected l || new_or_changed d (key, o) /\
        (new_or_changed d (key, o) = false ->
         changes_lines l' = changes_lines l)
  end.
Proof.
  intros H. apply process_server_ok in H.
  destruct H as (id & skip & Hid & Hskip & H).
  unfold recorded. rewrite Hid, Hskip. destruct skip; [exact H|].
  destruct H as (o & d & Ho & Hd & Hs & Hl & Hc). rewrite Ho.
  exists d. do 3 (split; [assumption|]).
  unfold new_or_changed. simpl.
  destruct (assoc (str id) d) as [old|].
  - destruct old;
      try (apply compare_with_ok in Hc;
           destruct Hc as (c & -> & F & added & L & N);
           simpl in F, L; split; [exact F|];
           intros ->; rewrite L;
           replace added with (@nil string) by (symmetry; now apply N);
           apply app_nil_r).
    destruct Hc as (-> & _). split; [now rewrite orb_true_r | discriminate].
  - destruct Hc as (-> & _). split; [now rewrite orb_true_r | discriminate].
Qed.

Lemma servers_loop_ok all_server server_ids machines :
  forall l s l' s',
    for_each (process_server repr_other all_server server_ids) machines l s
    = (Ok l', s') ->
    let rs := observed repr_other all_server server_ids machines in
    s' = set_previous_status (previous_status s') s /\
    (rs = [] -> l' = l /\ s' = s) /\
    (rs <> [] ->
     (exists d, previous_status s = VDict d) /\
     (exists d', previous_status s' = VDict d')) /\
    (forall key,
        assoc key (entries s')
        = match last_recorded rs key with
          | Some o => Some (snapshot o)
          | None => assoc key (entries s)
          end) /\
    account_lines l'
    = (account_lines l ++ map (fun ko => server_line (snd ko)) rs)%list /\
    (NoDup (map fst rs) ->
     changes_detected l'
     = changes_detected l || existsb (new_or_changed (entries s)) rs).
Proof.
  induction machines as [|server machines IH]; intros l s l' s' H; simpl in H.
  - apply ret_ok in H. destruct H as (-> & ->). simpl.
    split; [now destruct s|]. split; [tauto|]. split; [tauto|].
    split; [reflexivity|]. split; [now rewrite app_nil_r|].
    intros _. now rewrite orb_false_r.
  - apply bind_ok in H. destruct H as (l1 & s1 & H1 & H).
    apply process_server_recorded in H1.
    specialize (IH _ _ _ _ H). clear H. cbv zeta in IH.
    destruct IH as (IHs & IHnil & IHdict & IHkey & IHlines & IHflag).
    unfold observed. simpl flat_map. fold (observed repr_other all_server
                                             server_ids machines).
    set (rest := observed repr_other all_server server_ids machines) in *.
    destruct (recorded repr_other all_server server_ids server)
      as [[key o]|].
    + destruct H1 as (d & Hd & Hs1 & Hl1 & Hc1 & _). simpl app.
      assert (E1 : entries s1 = assoc_set key (snapshot o) d).
      { unfold entries. now rewrite Hs1. }
      assert (E0 : entries s = d).
      { unfold entries. now rewrite Hd. }
      split; [rewrite IHs; rewrite Hs1; now destruct s|].
      split; [discriminate|].
      split.
      { intros _. split; [eauto|].
        destruct rest as [|r rest'] eqn:Er.
        - destruct (IHnil eq_refl) as (_ & ->). rewrite Hs1. simpl. eauto.
        - apply IHdict. discriminate. }
      split.
      { intros k. rewrite IHkey. simpl.
        destruct (last_recorded rest k); [reflexivity|].
        rewrite E1, E0.
        destruct (String.eqb_spec k key) as [->|N].
        - apply assoc_set_same.
        - now apply assoc_set_other. }
      split; [rewrite IHlines, Hl1; simpl; now rewrite <- app_assoc|].
      intros ND. simpl in ND. apply NoDup_cons_iff in ND.
      destruct ND as (Hnotin & ND').
      rewrite (IHflag ND'), Hc1, E0. simpl. rewrite <- orb_assoc. f_equal.
      f_equal. apply existsb_agree. intros ko Hin.
      unfold new_or_changed. rewrite E1.
      rewrite assoc_set_other; [reflexivity|].
      intros E. apply Hnotin. rewrite <- E. now apply in_map.
    + destruct H1 as (-> & ->). simpl app.
      repeat (split; [assumption|]). assumption.
Qed.

(** *** The API client *)

Lemma call_vast_api_spec url api_key s :
  exists s' logs,
    call_vast_api env repr_other url api_key s
    = (Ok (api_reply env repr_other (clock s) url api_key), s') /\
    previous_status s' = previous_status s /\
    vast_accounts s' = vast_accounts s /\
    clock s' = S (clock s) /\
    (shutdown_event s = true -> shutdown_event s' = true) /\
    trace s' = (trace s ++
                EvHttpGet url ("Bearer " ++ str api_key) API_TIMEOUT :: logs)%list /\
    Forall (fun e => is_api_log e = true) logs.
Proof.
  unfold call_vast_api, api_reply, suspended, handle_shutdown, logging, emit,
    tick, modify, bind, ret.
  cbv zeta. generalize ("Bearer " ++ str api_key). intros authorization.
  destruct s as [ps va sh dk ck tr]; simpl.
  destruct (signal env ck); simpl;
    destruct (http env ck url authorization); simpl;
    eexists; eexists;
    (split; [reflexivity|]); simpl;
    rewrite <- ?app_assoc; simpl;
    repeat (split; [first [reflexivity | tauto]|]);
    repeat constructor.
Qed.


(** *** The notifier *)

Lemma smtp_do_only_emits (P : event -> Prop) c :
  (forall ok, P (EvSmtp c ok)) -> only_emits P (smtp_do env c).
Proof.
  intros H. unfold smtp_do. apply only_emits_tick. intros t.
  apply only_emits_bind; [apply only_emits_emit, H|]. intros _.
  destruct (smtp env t c); [apply only_emits_ret | apply only_emits_lift].
Qed.

Lemma send_email_only_emits subject message recipients :
  only_emits
    (fun e => is_notification e = true /\
              carries subject (format_for_email message) e)
    (send_email cfg env subject message recipients).
Proof.
  unfold send_email.
  match goal with
  | |- only_emits _ (if ?b then _ else _) => destruct b
  end.
  - apply only_emits_emit. simpl. auto.
  - apply only_emits_try_except.
    + cbv zeta.
      repeat first
        [ apply smtp_do_only_emits; intros ?; simpl; now auto
        | apply only_emits_emit; simpl; now auto
        | apply only_emits_for_each; intros ? ?
        | apply only_emits_ret
        | apply only_emits_lift
        | apply only_emits_bind; [|intros ?]
        | match goal with
          | |- only_emits _ (if ?b then _ else _) => destruct b
          | |- only_emits _ (match ?o with Some _ => _ | None => _ end) =>
              destruct o
          end ].
    + intros e. apply only_emits_emit. simpl. auto.
Qed.

Lemma smtp_do_grows c : grows (smtp_do env c).
Proof.
  intros s. unfold smtp_do, bind, tick, emit, modify.
  destruct s as [ps va sh dk ck tr]; simpl.
  destruct (smtp env ck c); simpl; rewrite length_app; simpl; lia.
Qed.

Lemma send_email_grows subject message recipients :
  grows (send_email cfg env subject message recipients).
Proof.
  unfold send_email.
  match goal with
  | |- grows (if ?b then _ else _) => destruct b
  end.
  - apply grows_emit.
  - apply grows_try_except with (P := fun _ => True).
    + cbv zeta. apply grows_bind with (P := fun _ => True).
      * apply smtp_do_grows.
      * intros _.
        repeat first
          [ apply smtp_do_only_emits; intros ?; exact I
          | apply only_emits_emit; exact I
          | apply only_emits_for_each; intros ? ?
          | apply only_emits_ret
          | apply only_emits_lift
          | apply only_emits_bind; [|intros ?]
          | match goal with
            | |- only_emits _ (if ?b then _ else _) => destruct b
            | |- only_emits _ (match ?o with Some _ => _ | None => _ end) =>
                destruct o
            end ].
    + intros e. apply only_emits_emit. exact I.
Qed.

Lemma send_email_returns subject message recipients s :
  fst (send_email cfg env subject message recipients s) = Ok tt.
Proof.
  unfold send_email.
  match goal with
  | |- fst ((if ?b then _ else _) s) = _ => destruct b
  end.
  - reflexivity.
  - unfold try_except.
    match goal with
    | |- fst (match ?m s with _ => _ end) = _ =>
        destruct (m s) as [[[]|e] s1]
    end; reflexivity.
Qed.

(** [send_email] returns normally whatever the SMTP server does, and starts
    by talking to it or by reporting that nobody is to be told. *)
Lemma send_email_spec subject message recipients s :
  exists s' events,
    send_email cfg env subject message recipients s = (Ok tt, s') /\
    previous_status s' = previous_status s /\
    vast_accounts s' = vast_accounts s /\
    disk s' = disk s /\
    shutdown_event s' = shutdown_event s /\
    trace s' = (trace s ++ events)%list /\
    notification_attempted events = true /\
    Forall (fun e => is_notification e = true /\
                     carries subject (format_for_email message) e) events.
Proof.
  pose proof (send_email_only_emits subject message recipients s) as H.
  pose proof (send_email_grows subject message recipients s) as G.
  pose proof (send_email_returns subject message recipients s) as R.
  destruct (send_email cfg env subject message recipients s) as [r s'].
  simpl in H, G, R. subst r.
  destruct H as (Hp & Hv & Hd & Hs & events & Ht & Hf).
  exists s', events. repeat split; try assumption.
  destruct events as [|e events].
  - rewrite Ht, app_nil_r in G. lia.
  - unfold notification_attempted. simpl.
    inversion Hf as [|? ? (He & _) _]; subst. now rewrite He.
Qed.

(** *** An account, step by step *)

Lemma process_account_ok account_name account_data s s' :
  process_account cfg env repr_other account_name account_data s
  = (Ok tt, s') ->
  exists api_key notify_emails server_ids all_server machines balance
         machine_earnings,
    py_getitem account_data "api_key" = Ok api_key /\
    py_get account_data "notify" (default_recipients cfg) = Ok notify_emails /\
    py_getitem account_data "machine_ids" = Ok server_ids /\
    py_in (VInt (-1)) server_ids = Ok all_server /\
    fetched_balance cfg env repr_other s api_key = Ok balance /\
    fetched_earnings cfg env repr_other s api_key = Ok machine_earnings /\
    fetched_machines cfg env repr_other s api_key = Ok machines /\
    exists s3 events l s4,
      previous_status s3 = previous_status s /\
      vast_accounts s3 = vast_accounts s /\
      (shutdown_event s = true -> shutdown_event s3 = true) /\
      clock s3 = (3 + clock s)%nat /\
      trace s3 = (trace s ++ events)%list /\
      filter is_http_get events = account_requests cfg repr_other api_key /\
      Forall (fun e => is_http_get e || is_api_log e = true) events /\
      for_each (process_server repr_other all_server server_ids) machines
        no_locals s3 = (Ok l, s4) /\
      let first_run := negb (truthy (previous_status s)) in
      let l := close_changes l in
      if worth_telling first_run l then
        exists balance_s earnings_s,
          format_f 2 balance = Ok balance_s /\
          format_f 2 machine_earnings = Ok earnings_s /\
          send_email cfg env (email_subject account_name first_run l)
            (message_body account_name balance_s earnings_s l) notify_emails s4
          = (Ok tt, s')
      else s' = set_trace (trace s4 ++ [EvLog INFO (LogNoChanges account_name)]) s4.
Proof.
  unfold process_account. intros H.
  rewrite bind_gets in H.
  apply bind_ok in H. destruct H as (api_key & s0 & E & H).
  apply lift_ok in E. destruct E as (Ekey & ->).
  apply bind_ok in H. destruct H as (notify & s0 & E & H).
  apply lift_ok in E. destruct E as (Enotify & ->).
  apply bind_ok in H. destruct H as (server_ids & s0 & E & H).
  apply lift_ok in E. destruct E as (Eids & ->).
  apply bind_ok in H. destruct H as (user & s1 & E1 & H).
  unfold get_current_user in E1.
  destruct (call_vast_api_spec (VAST_URL cfg ++ "/users/current") api_key s)
    as (s1' & logs1 & R1 & P1 & V1 & C1 & S1 & T1 & L1).
  rewrite R1 in E1. inversion E1; subst user s1'; clear E1.
  apply bind_ok in H. destruct H as (balance & s0 & E & H).
  apply lift_ok in E. destruct E as (Ebalance & ->).
  apply bind_ok in H. destruct H as (earnings & s2 & E2 & H).
  unfold get_user_earnings in E2.
  destruct (call_vast_api_spec (VAST_URL cfg ++ "/user/earnings") api_key s1)
    as (s2' & logs2 & R2 & P2 & V2 & C2 & S2 & T2 & L2).
  rewrite R2 in E2. inversion E2; subst earnings s2'; clear E2.
  apply bind_ok in H. destruct H as (raw & s0 & E & H).
  apply lift_ok in E. destruct E as (Eraw & ->).
  apply bind_ok in H. destruct H as (servers & s3 & E3 & H).
  unfold get_server_status in E3.
  destruct (call_vast_api_spec (VAST_URL cfg ++ "/machines") api_key s2)
    as (s3' & logs3 & R3 & P3 & V3 & C3 & S3 & T3 & L3).
  rewrite (bind_run _ _ _ _ _ R3) in E3.
  apply lift_ok in E3. destruct E3 as (Eservers & ->).
  apply bind_ok in H. destruct H as (all_server & s0 & E & H).
  apply lift_ok in E. destruct E as (Eall & ->).
  apply bind_ok in H. destruct H as (machines & s0 & E & H).
  apply lift_ok in E. destruct E as (Eiter & ->).
  apply bind_ok in H. destruct H as (l & s4 & Eloop & H).
  exists api_key, notify, server_ids, all_server, machines, balance,
    (py_or raw f0).
  do 4 (split; [assumption|]).
  split; [exact Ebalance|].
  split.
  { unfold fetched_earnings. rewrite C1 in Eraw. simpl.
    now rewrite Eraw. }
  split.
  { unfold fetched_machines. rewrite C2, C1 in Eservers. simpl.
    now rewrite Eservers. }
  exists s3', (EvHttpGet (VAST_URL cfg ++ "/users/current")
                 ("Bearer " ++ str api_key) API_TIMEOUT :: logs1 ++
               EvHttpGet (VAST_URL cfg ++ "/user/earnings")
                 ("Bearer " ++ str api_key) API_TIMEOUT :: logs2 ++
               EvHttpGet (VAST_URL cfg ++ "/machines")
                 ("Bearer " ++ str api_key) API_TIMEOUT :: logs3)%list,
    l, s4.
  split; [congruence|]. split; [congruence|]. split; [tauto|].
  split; [lia|].
  split.
  { rewrite T3, T2, T1. rewrite <- !app_assoc. reflexivity. }
  split.
  { cbn [filter is_http_get]. rewrite filter_app. cbn [filter is_http_get].
    rewrite filter_app. cbn [filter is_http_get].
    rewrite !(filter_none is_http_get is_api_log)
      by (assumption || now intros []).
    reflexivity. }
  split.
  { repeat first [ apply Forall_cons; [reflexivity|]
                 | apply Forall_app; split ];
      (eapply Forall_impl; [|eassumption]); intros e He; rewrite He;
      apply orb_true_r. }
  split; [assumption|].
  cbv zeta.
  destruct (worth_telling (negb (truthy (previous_status s))) (close_changes l)).
  - apply bind_ok in H. destruct H as (bs & s0 & E & H).
    apply lift_ok in E. destruct E as (Ebs & ->).
    apply bind_ok in H. destruct H as (es & s0 & E & H).
    apply lift_ok in E. destruct E as (Ees & ->).
    exists bs, es. repeat (split; [assumption|]). assumption.
  - unfold logging, emit, modify in H. now inversion H.
Qed.

Lemma close_changes_detected l :
  changes_detected (close_changes l) = changes_detected l.
Proof. unfold close_changes. now destruct (changes_lines l). Qed.

Lemma close_changes_account_lines l :
  account_lines (close_changes l) = account_lines l.
Proof. unfold close_changes. now destruct (changes_lines l). Qed.

Lemma api_events_are_no_notification events :
  Forall (fun e => is_http_get e || is_api_log e = true) events ->
  notification_attempted events = false.
Proof.
  unfold notification_attempted.
  induction 1 as [|e events He _ IH]; simpl; [reflexivity|].
  rewrite IH, orb_false_r.
  destruct e as [[] []| | | | |]; simpl in *; congruence.
Qed.

Lemma notification_attempted_app ev1 ev2 :
  notification_attempted (ev1 ++ ev2)
  = notification_attempted ev1 || notification_attempted ev2.
Proof. apply existsb_app. Qed.

(** C2 (as amended).  Processing an account calls [send_email] exactly when
    at least one monitored machine is new (no entry in the snapshot) or
    changed in a compared field; machines of the reply are taken to have
    distinct ids.  On the first run this is the case as soon as one machine
    is monitored; with no monitored machine nothing is sent, first run or
    not. *)
Theorem notification_iff_new_or_changed
  account_name account_data s s' api_key server_ids all_server machines :
  py_getitem account_data "api_key" = Ok api_key ->
  py_getitem account_data "machine_ids" = Ok server_ids ->
  py_in (VInt (-1)) server_ids = Ok all_server ->
  fetched_machines cfg env repr_other s api_key = Ok machines ->
  NoDup (map fst (observed repr_other all_server server_ids machines)) ->
  process_account cfg env repr_other account_name account_data s
  = (Ok tt, s') ->
  exists events,
    trace s' = (trace s ++ events)%list /\
    (notification_attempted events = true <->
     existsb (new_or_changed (entries s))
       (observed repr_other all_server server_ids machines) = true) /\
    (truthy (previous_status s) = false ->
     (notification_attempted events = true <->
      observed repr_other all_server server_ids machines <> [])) /\
    (observed repr_other all_server server_ids machines = [] ->
     notification_attempted events = false).
Proof.
  intros Hkey Hids Hall Hmachines Hnodup Hrun.
  apply process_account_ok in Hrun.
  destruct Hrun as (api_key' & notify & server_ids' & all_server' & machines'
                    & balance & earnings & Hkey' & _ & Hids' & Hall' & _ & _
                    & Hmachines' & s3 & gets & l & s4 & Hprev & _ & _ & _
                    & Htrace & _ & Hgets & Hloop & Hend).
  rewrite Hkey in Hkey'. inversion Hkey'; subst api_key'; clear Hkey'.
  rewrite Hids in Hids'. inversion Hids'; subst server_ids'; clear Hids'.
  rewrite Hall in Hall'. inversion Hall'; subst all_server'; clear Hall'.
  rewrite Hmachines in Hmachines'.
  inversion Hmachines'; subst machines'; clear Hmachines'.
  apply servers_loop_ok in Hloop. cbv zeta in Hloop.
  set (rs := observed repr_other all_server server_ids machines) in *.
  destruct Hloop as (Hs4 & _ & Hdict & _ & Hlines & Hflag).
  specialize (Hflag Hnodup). simpl in Hflag, Hlines.
  assert (Hentries : entries s3 = entries s).
  { unfold entries. now rewrite Hprev. }
  rewrite Hentries in Hflag.
  assert (Htrace4 : trace s4 = trace s3) by (rewrite Hs4; reflexivity).
  assert (Hfirst : truthy (previous_status s) = false -> rs <> [] ->
                   existsb (new_or_changed (entries s)) rs = true).
  { intros Hf Hne. destruct (Hdict Hne) as ((d & Hd) & _).
    rewrite Hprev in Hd. unfold entries. rewrite Hd in *.
    destruct d; [|discriminate].
    destruct rs as [|ko rs']; [contradiction|]. reflexivity. }
  assert (Hnone : rs = [] ->
                  existsb (new_or_changed (entries s)) rs = false).
  { now intros ->. }
  assert (Hworth :
            worth_telling (negb (truthy (previous_status s))) (close_changes l)
            = existsb (new_or_changed (entries s)) rs).
  { unfold worth_telling.
    rewrite close_changes_detected, close_changes_account_lines, Hlines, Hflag.
    destruct rs as [|ko rs'] eqn:Ers.
    - simpl. apply andb_false_r.
    - change (map _ (ko :: rs')) with
        (server_line (snd ko) :: map (fun ko => server_line (snd ko)) rs').
      rewrite andb_true_r.
      destruct (truthy (previous_status s)) eqn:Ht; [reflexivity|].
      simpl negb. rewrite orb_true_l. symmetry. apply Hfirst; congruence. }
  cbv zeta in Hend. rewrite Hworth in Hend.
  destruct (existsb (new_or_changed (entries s)) rs) eqn:Hex.
  - destruct Hend as (bs & es & _ & _ & Hmail).
    destruct (send_email_spec
                (email_subject account_name
                   (negb (truthy (previous_status s))) (close_changes l))
                (message_body account_name bs es (close_changes l))
                notify s4)
      as (s'' & mail & Hmail' & _ & _ & _ & _ & Htr & Hatt & _).
    rewrite Hmail in Hmail'. inversion Hmail'; subst s''; clear Hmail'.
    exists (gets ++ mail)%list.
    assert (Hyes : notification_attempted (gets ++ mail) = true).
    { rewrite notification_attempted_app, Hatt. apply orb_true_r. }
    split; [rewrite Htr, Htrace4, Htrace; now rewrite app_assoc|].
    split; [tauto|].
    split.
    + intros _. split; [|tauto]. intros _ E. pose proof (Hnone E).
      congruence.
    + intros E. pose proof (Hnone E). congruence.
  - exists (gets ++ [EvLog INFO (LogNoChanges account_name)])%list.
    assert (Hno : notification_attempted
                    (gets ++ [EvLog INFO (LogNoChanges account_name)])
                  = false).
    { rewrite notification_attempted_app,
        (api_events_are_no_notification _ Hgets). reflexivity. }
    split; [rewrite Hend; simpl; rewrite Htrace4, Htrace;
            now rewrite app_assoc|].
    rewrite Hno.
    split; [split; discriminate|].
    split; [|reflexivity].
    intros Hf. split; [discriminate|].
    intros Hne. specialize (Hfirst Hf Hne). congruence.
Qed.



Lemma api_reply_failing t url api_key :
  failing env t -> api_reply env repr_other t url api_key = VDict [].
Proof.
  intros H. unfold api_reply. specialize (H url ("Bearer " ++ str api_key)).
  now destruct (http env t url ("Bearer " ++ str api_key)).
Qed.

(** C9.  [call_vast_api] always returns a value, the empty dict when the
    request fails in any of the three ways; [get_server_status] then returns
    the empty list; and an account with a key and a list of machine ids is
    processed to the end when all its requests fail: balance 0, earnings 0,
    no machine, so the snapshot is left alone, nothing is sent and the "no
    changes" line is logged. *)
Theorem api_failure_is_absorbed :
  (forall url api_key s,
      exists v s',
        call_vast_api env repr_other url api_key s = (Ok v, s') /\
        (is_error (http env (clock s) url ("Bearer " ++ str api_key)) = true ->
         v = VDict [])) /\
  (forall api_key s,
      failing env (clock s) ->
      exists s', get_server_status cfg env repr_other api_key s
                 = (Ok (VList []), s')) /\
  (forall account_name account_data api_key server_ids all_server s,
      py_getitem account_data "api_key" = Ok api_key ->
      py_getitem account_data "machine_ids" = Ok server_ids ->
      py_in (VInt (-1)) server_ids = Ok all_server ->
      failing env (clock s) ->
      failing env (1 + clock s) ->
      failing env (2 + clock s) ->
      fetched_balance cfg env repr_other s api_key = Ok (VInt 0) /\
      fetched_earnings cfg env repr_other s api_key = Ok f0 /\
      fetched_machines cfg env repr_other s api_key = Ok [] /\
      exists s' events,
        process_account cfg env repr_other account_name account_data s
        = (Ok tt, s') /\
        previous_status s' = previous_status s /\
        trace s' = (trace s ++ events ++
                    [EvLog INFO (LogNoChanges account_name)])%list /\
        notification_attempted events = false).
Proof.
  split; [|split].
  - intros url api_key s.
    destruct (call_vast_api_spec url api_key s) as (s' & logs & Hrun & _).
    eexists. exists s'. split; [exact Hrun|].
    unfold api_reply.
    now destruct (http env (clock s) url ("Bearer " ++ str api_key)).
  - intros api_key s Hfail. unfold get_server_status.
    destruct (call_vast_api_spec (VAST_URL cfg ++ "/machines") api_key s)
      as (s' & logs & Hrun & _).
    exists s'. rewrite (bind_run _ _ _ _ _ Hrun).
    now rewrite api_reply_failing.
  - intros account_name account_data api_key server_ids all_server s
      Hkey Hids Hall F0 F1 F2.
    unfold fetched_balance, fetched_earnings, fetched_machines.
    rewrite !api_reply_failing by assumption.
    do 3 (split; [reflexivity|]).
    assert (Hnotify : exists notify,
               py_get account_data "notify" (default_recipients cfg)
               = Ok notify).
    { destruct account_data; try discriminate. simpl. eauto. }
    destruct Hnotify as (notify & Hnotify).
    destruct (call_vast_api_spec (VAST_URL cfg ++ "/users/current") api_key s)
      as (s1 & logs1 & R1 & P1 & _ & C1 & _ & T1 & L1).
    destruct (call_vast_api_spec (VAST_URL cfg ++ "/user/earnings") api_key s1)
      as (s2 & logs2 & R2 & P2 & _ & C2 & _ & T2 & L2).
    destruct (call_vast_api_spec (VAST_URL cfg ++ "/machines") api_key s2)
      as (s3 & logs3 & R3 & P3 & _ & C3 & _ & T3 & L3).
    rewrite C1 in R2. rewrite C2, C1 in R3.
    rewrite api_reply_failing in R1, R2, R3 by assumption.
    exists (set_trace (trace s3 ++ [EvLog INFO (LogNoChanges account_name)]) s3).
    exists (EvHttpGet (VAST_URL cfg ++ "/users/current")
              ("Bearer " ++ str api_key) API_TIMEOUT :: logs1 ++
            EvHttpGet (VAST_URL cfg ++ "/user/earnings")
              ("Bearer " ++ str api_key) API_TIMEOUT :: logs2 ++
            EvHttpGet (VAST_URL cfg ++ "/machines")
              ("Bearer " ++ str api_key) API_TIMEOUT :: logs3)%list.
    split.
    { unfold process_account. rewrite bind_gets.
      rewrite (bind_lift _ _ _ _ Hkey), (bind_lift _ _ _ _ Hnotify),
        (bind_lift _ _ _ _ Hids).
      unfold get_current_user. rewrite (bind_run _ _ _ _ _ R1).
      rewrite (bind_lift _ _ _ _
                 (eq_refl : py_get (VDict []) "balance" (VInt 0)
                            = Ok (VInt 0))).
      unfold get_user_earnings. rewrite (bind_run _ _ _ _ _ R2).
      rewrite (bind_lift _ _ _ _
                 (eq_refl : py_get (VDict []) "machine_earnings" (VInt 0)
                            = Ok (VInt 0))).
      assert (R3' : get_server_status cfg env repr_other api_key s2
                    = (Ok (VList []), s3)).
      { unfold get_server_status. now rewrite (bind_run _ _ _ _ _ R3). }
      rewrite (bind_run _ _ _ _ _ R3').
      rewrite (bind_lift _ _ _ _ Hall).
      rewrite (bind_lift _ _ _ _ (eq_refl : py_iter (VList []) = Ok [])).
      simpl for_each.
      rewrite (bind_run _ _ _ _ _ (eq_refl : ret no_locals s3
                                             = (Ok no_locals, s3))).
      unfold worth_telling. simpl close_changes. simpl account_lines.
      rewrite andb_false_r. reflexivity. }
    split; [simpl; congruence|].
    split.
    { cbn [trace set_trace]. rewrite T3, T2, T1.
      repeat (rewrite <- app_assoc || rewrite <- app_comm_cons).
      reflexivity. }
    apply api_events_are_no_notification.
    repeat first [ apply Forall_cons; [reflexivity|]
                 | apply Forall_app; split ];
      (eapply Forall_impl; [|eassumption]); intros e He; rewrite He;
      apply orb_true_r.
Qed.

(** *** Accounts and turns of the loop *)

Lemma last_recorded_app rs1 rs2 key :
  last_recorded (rs1 ++ rs2) key
  = match last_recorded rs2 key with
    | Some o => Some o
    | None => last_recorded rs1 key
    end.
Proof.
  induction rs1 as [|[k o] rs1 IH]; simpl.
  - now destruct (last_recorded rs2 key).
  - rewrite IH. now destruct (last_recorded rs2 key).
Qed.

(** What an account that is processed to the end leaves behind. *)
Lemma process_account_frame account_name account_data s s' :
  process_account cfg env repr_other account_name account_data s
  = (Ok tt, s') ->
  vast_accounts s' = vast_accounts s /\
  (shutdown_event s = true -> shutdown_event s' = true) /\
  (exists events, trace s' = (trace s ++ events)%list) /\
  forall key,
    assoc key (entries s')
    = match last_recorded (account_observed cfg env repr_other s account_data)
              key with
      | Some o => Some (snapshot o)
      | None => assoc key (entries s)
      end.
Proof.
  intros Hrun. apply process_account_ok in Hrun.
  destruct Hrun as (api_key & notify & server_ids & all_server & machines
                    & balance & earnings & Hkey & _ & Hids & Hall & _ & _
                    & Hmachines & s3 & gets & l & s4 & Hprev & Hva & Hsh & _
                    & Htrace & _ & _ & Hloop & Hend).
  apply servers_loop_ok in Hloop. cbv zeta in Hloop.
  destruct Hloop as (Hs4 & _ & _ & Hentries & _).
  assert (E3 : entries s3 = entries s) by (unfold entries; now rewrite Hprev).
  assert (F4 : vast_accounts s4 = vast_accounts s /\
               shutdown_event s4 = shutdown_event s3 /\
               trace s4 = trace s3).
  { rewrite Hs4. simpl. auto. }
  destruct F4 as (V4 & S4 & T4).
  assert (Hobs : account_observed cfg env repr_other s account_data
                 = observed repr_other all_server server_ids machines).
  { unfold account_observed. now rewrite Hkey, Hids, Hall, Hmachines. }
  rewrite Hobs. rewrite E3 in Hentries.
  cbv zeta in Hend.
  destruct (worth_telling (negb (truthy (previous_status s))) (close_changes l)).
  - destruct Hend as (bs & es & _ & _ & Hmail).
    destruct (send_email_spec
                (email_subject account_name
                   (negb (truthy (previous_status s))) (close_changes l))
                (message_body account_name bs es (close_changes l))
                notify s4)
      as (s'' & mail & Hmail' & P5 & V5 & _ & S5 & T5 & _).
    rewrite Hmail in Hmail'. inversion Hmail'; subst s''; clear Hmail'.
    split; [congruence|]. split; [intros H; rewrite S5, S4; auto|].
    split.
    { exists (gets ++ mail)%list. rewrite T5, T4, Htrace.
      now rewrite app_assoc. }
    intros key. rewrite <- Hentries. unfold entries. now rewrite P5.
  - subst s'. split; [exact V4|].
    split; [intros H; simpl; rewrite S4; auto|].
    split.
    { exists (gets ++ [EvLog INFO (LogNoChanges account_name)])%list.
      simpl. rewrite T4, Htrace. now rewrite app_assoc. }
    intros key. rewrite <- Hentries. reflexivity.
Qed.

Lemma process_accounts_frame accounts :
  forall s s',
    process_accounts cfg env repr_other accounts s = (Ok tt, s') ->
    vast_accounts s' = vast_accounts s /\
    (shutdown_event s = true -> shutdown_event s' = true) /\
    (exists events, trace s' = (trace s ++ events)%list) /\
    forall key,
      assoc key (entries s')
      = match last_recorded (observed_in_turn cfg env repr_other accounts s)
                key with
        | Some o => Some (snapshot o)
        | None => assoc key (entries s)
        end.
Proof.
  unfold process_accounts.
  induction accounts as [|[account_name account_data] accounts IH];
    intros s s' H; simpl in H.
  - apply ret_ok in H. destruct H as (_ & ->).
    repeat split; auto. exists []. now rewrite app_nil_r.
  - apply bind_ok in H. destruct H as ([] & s1 & H1 & H).
    simpl in H1. pose proof (process_account_frame _ _ _ _ H1) as F1.
    destruct F1 as (V1 & S1 & (ev1 & T1) & E1).
    destruct (IH _ _ H) as (V2 & S2 & (ev2 & T2) & E2).
    split; [congruence|]. split; [auto|].
    split; [exists (ev1 ++ ev2)%list; rewrite T2, T1; now rewrite app_assoc|].
    intros key. simpl observed_in_turn. rewrite H1. simpl snd.
    rewrite last_recorded_app, E2.
    destruct (last_recorded
                (observed_in_turn cfg env repr_other accounts s1) key);
      [reflexivity | apply E1].
Qed.

Lemma save_json_spec path data s :
  exists s' logs,
    save_json env path data s = (Ok tt, s') /\
    previous_status s' = previous_status s /\
    vast_accounts s' = vast_accounts s /\
    shutdown_event s' = shutdown_event s /\
    clock s' = S (clock s) /\
    trace s' = (trace s ++
                EvWriteFile path data (disk_write env (clock s) path) :: logs)%list /\
    Forall (fun e => is_log e = true) logs /\
    (disk_write env (clock s) path = WriteOk ->
     disk s' path = FileJson data).
Proof.
  unfold save_json, bind, tick, emit, logging, emit, modify.
  destruct s as [ps va sh dk ck tr]; simpl.
  destruct (disk_write env ck path); simpl; eexists; eexists;
    (split; [reflexivity|]); simpl;
    rewrite <- ?app_assoc; simpl;
    repeat (split; [reflexivity|]);
    (split; [repeat constructor|]); try discriminate.
  intros _. unfold write_file. now rewrite String.eqb_refl.
Qed.

Lemma load_json_spec path s :
  disk s path <> FileUnreadable ->
  load_json path s
  = (Ok (file_content (disk s path)),
     set_trace (trace s ++ load_events path (disk s path)) s).
Proof.
  intros H. unfold load_json, bind, emit, logging, emit, modify, gets, ret,
              load_events, file_content.
  destruct s as [ps va sh dk ck tr]; simpl in *.
  destruct (dk path); try contradiction; simpl;
    rewrite <- ?app_assoc; reflexivity.
Qed.

Lemma load_json_raises path s r s' :
  disk s path = FileUnreadable -> load_json path s = (r, s') ->
  r = Raise OSError.
Proof.
  intros H. unfold load_json, bind, emit, modify, gets, lift. simpl.
  rewrite H. intros E. now inversion E.
Qed.

(** A turn that can read both files continues from the reloaded state. *)
Lemma poll_iteration_reloads s :
  disk s STATUS_FILE <> FileUnreadable ->
  disk s CONFIG_FILE <> FileUnreadable ->
  poll_iteration cfg env repr_other s
  = after_reload cfg env repr_other (reloaded s).
Proof.
  intros H1 H2. unfold poll_iteration.
  rewrite (bind_run _ _ _ _ _ (load_json_spec STATUS_FILE s H1)).
  rewrite bind_modify.
  match goal with
  | |- bind (load_json _) _ ?s1 = _ =>
      rewrite (bind_run _ _ _ _ _ (load_json_spec CONFIG_FILE s1 H2))
  end.
  rewrite bind_modify.
  unfold after_reload, process_accounts. f_equal.
  unfold reloaded. destruct s; simpl. now rewrite <- app_assoc.
Qed.

Lemma poll_iteration_readable s s' :
  poll_iteration cfg env repr_other s = (Ok tt, s') ->
  disk s STATUS_FILE <> FileUnreadable /\
  disk s CONFIG_FILE <> FileUnreadable.
Proof.
  unfold poll_iteration. intros H.
  apply bind_ok in H. destruct H as (v1 & s1 & L1 & H).
  assert (R1 : disk s STATUS_FILE <> FileUnreadable).
  { intros E. pose proof (load_json_raises _ _ _ _ E L1). discriminate. }
  split; [exact R1|].
  rewrite (load_json_spec _ _ R1) in L1. inversion L1; subst v1 s1; clear L1.
  rewrite bind_modify in H.
  apply bind_ok in H. destruct H as (v2 & s2 & L2 & H).
  intros E. assert (R : v2 = v2 -> Ok v2 = Raise OSError).
  { intros _. eapply load_json_raises; [|exact L2]. exact E. }
  specialize (R eq_refl). discriminate.
Qed.

Lemma after_reload_ok s0 s' :
  after_reload cfg env repr_other s0 = (Ok tt, s') ->
  exists accounts sA logs,
    py_items (vast_accounts s0) = Ok accounts /\
    process_accounts cfg env repr_other accounts s0 = (Ok tt, sA) /\
    previous_status s' = previous_status sA /\
    vast_accounts s' = vast_accounts sA /\
    shutdown_event s' = shutdown_event sA /\
    clock s' = S (clock sA) /\
    trace s' = (trace sA ++
                EvWriteFile STATUS_FILE (previous_status sA)
                  (disk_write env (clock sA) STATUS_FILE) :: logs)%list /\
    Forall (fun e => is_log e = true) logs /\
    (disk_write env (clock sA) STATUS_FILE = WriteOk ->
     disk s' STATUS_FILE = FileJson (previous_status sA)).
Proof.
  unfold after_reload. intros H.
  rewrite bind_gets in H.
  apply bind_ok in H. destruct H as (accounts & sx & E & H).
  apply lift_ok in E. destruct E as (Eitems & ->).
  apply bind_ok in H. destruct H as ([] & sA & Hloop & H).
  rewrite bind_gets in H.
  destruct (save_json_spec STATUS_FILE (previous_status sA) sA)
    as (sB & logs & Hsave & P & V & S & C & T & L & D).
  rewrite (bind_run _ _ _ _ _ Hsave) in H.
  unfold logging, emit, modify in H. inversion H; subst s'; clear H.
  exists accounts, sA,
    (logs ++ [EvLog INFO (LogLoopCompleted (CHECK_INTERVAL cfg))])%list.
  simpl. repeat (split; [assumption|]).
  split; [rewrite T; now rewrite <- app_assoc|].
  split; [apply Forall_app; split; [assumption | repeat constructor]|].
  exact D.
Qed.

(** C4.  An entry of the snapshot has the eleven fields [rented],
    [rented_gpus], [listed_gpu_cost], [listed_storage_cost],
    [min_bid_price], [listed_min_gpu_count], [earn_hour], [earn_day],
    [reliability], [num_reports], [gpu_occupancy].  After an account, and
    after all accounts of a turn of the loop, the entry of every machine that
    was processed holds the fields of its last observation, the other entries
    are those read from the status file; and the last thing a turn does,
    apart from logging, is to write the whole map to the status file, which
    then holds it unless the write fails. *)
Theorem snapshot_holds_last_observation_and_is_saved :
  (forall o, exists e, snapshot o = VDict e /\ map fst e = snapshot_keys) /\
  (forall account_name account_data s s',
      process_account cfg env repr_other account_name account_data s
      = (Ok tt, s') ->
      forall key,
        assoc key (entries s')
        = match last_recorded
                  (account_observed cfg env repr_other s account_data) key with
          | Some o => Some (snapshot o)
          | None => assoc key (entries s)
          end) /\
  (forall s s',
      poll_iteration cfg env repr_other s = (Ok tt, s') ->
      exists accounts before logs,
        let outcome := disk_write env (pred (clock s')) STATUS_FILE in
        py_items (file_content (disk s CONFIG_FILE)) = Ok accounts /\
        (forall key,
            assoc key (entries s')
            = match last_recorded
                      (observed_in_turn cfg env repr_other accounts
                         (reloaded s)) key with
              | Some o => Some (snapshot o)
              | None =>
                  match file_content (disk s STATUS_FILE) with
                  | VDict d => assoc key d
                  | _ => None
                  end
              end) /\
        trace s'
        = (before ++
           EvWriteFile STATUS_FILE (previous_status s') outcome :: logs)%list /\
        Forall (fun e => is_log e = true) logs /\
        (outcome = WriteOk ->
         disk s' STATUS_FILE = FileJson (previous_status s'))).
Proof.
  split; [|split].
  - intros o. eexists. split; reflexivity.
  - intros account_name account_data s s' H.
    apply (process_account_frame _ _ _ _ H).
  - intros s s' H.
    destruct (poll_iteration_readable _ _ H) as (R1 & R2).
    rewrite (poll_iteration_reloads _ R1 R2) in H.
    apply after_reload_ok in H.
    destruct H as (accounts & sA & logs & Hitems & Hloop & P & _ & _ & C & T
                   & L & D).
    apply process_accounts_frame in Hloop.
    destruct Hloop as (_ & _ & _ & Hentries).
    exists accounts, (trace sA), logs. cbv zeta. rewrite C. simpl pred.
    split; [exact Hitems|].
    split.
    { intros key. unfold entries at 1. rewrite P. fold (entries sA).
      rewrite Hentries. unfold entries, reloaded. simpl.
      destruct (file_content (disk s STATUS_FILE)); reflexivity. }
    rewrite P. auto.
Qed.

(** C5.  A turn of the loop that completes has first read the status file
    and then the configuration file, before anything else, and has gone on
    from what it read: the accounts it iterates over are those of the
    configuration file as it is on disk when the turn starts, and neither the
    snapshot nor the configuration held in memory from earlier turns play any
    part. *)
Theorem turn_starts_by_reloading s s' :
  poll_iteration cfg env repr_other s = (Ok tt, s') ->
  after_reload cfg env repr_other (reloaded s) = (Ok tt, s') /\
  vast_accounts s' = file_content (disk s CONFIG_FILE) /\
  (exists accounts sA,
      py_items (file_content (disk s CONFIG_FILE)) = Ok accounts /\
      process_accounts cfg env repr_other accounts (reloaded s)
      = (Ok tt, sA)) /\
  (exists rest,
      trace s'
      = (trace s ++ load_events STATUS_FILE (disk s STATUS_FILE) ++
         load_events CONFIG_FILE (disk s CONFIG_FILE) ++ rest)%list) /\
  forall previous accounts,
    poll_iteration cfg env repr_other
      (set_previous_status previous (set_vast_accounts accounts s))
    = (Ok tt, s').
Proof.
  intros H.
  destruct (poll_iteration_readable _ _ H) as (R1 & R2).
  rewrite (poll_iteration_reloads _ R1 R2) in H.
  split; [exact H|].
  pose proof (after_reload_ok _ _ H) as H'.
  destruct H' as (accounts & sA & logs & Hitems & Hloop & _ & V & _ & _ & T
                  & _).
  pose proof (process_accounts_frame _ _ _ Hloop) as F.
  destruct F as (VA & _ & (events & TA) & _).
  split; [rewrite V, VA; reflexivity|].
  split; [exists accounts, sA; split; assumption|].
  split.
  { exists (events ++
            EvWriteFile STATUS_FILE (previous_status sA)
              (disk_write env (clock sA) STATUS_FILE) :: logs)%list.
    rewrite T, TA. unfold reloaded. cbn [trace].
    rewrite <- !app_assoc. reflexivity. }
  intros previous accounts'.
  rewrite poll_iteration_reloads by assumption. exact H.
Qed.

(** *** The pace of the bot *)

Ltac keep_pace :=
  repeat first
    [ apply keeps_pace_ret
    | apply keeps_pace_lift
    | apply keeps_pace_gets
    | apply keeps_pace_emit; intros ? ?; reflexivity
    | apply keeps_pace_modify; intros []; split; reflexivity
    | apply keeps_pace_for_each; intros ? ?
    | apply keeps_pace_tick; intros ?
    | apply keeps_pace_bind; [|intros ?]
    | match goal with
      | |- keeps_pace (if ?b then _ else _) => destruct b
      | |- keeps_pace (match ?x with _ => _ end) => destruct x
      end ].

Lemma handle_shutdown_keeps_pace : keeps_pace handle_shutdown.
Proof.
  intros i may s. exists [EvLog INFO LogShutdown]. split; reflexivity.
Qed.

Lemma call_vast_api_keeps_pace url api_key :
  keeps_pace (call_vast_api env repr_other url api_key).
Proof.
  unfold call_vast_api, suspended. cbv zeta.
  apply keeps_pace_tick. intros t.
  apply keeps_pace_bind; [keep_pace|]. intros _.
  apply keeps_pace_bind.
  - apply keeps_pace_bind; [keep_pace|]. intros _.
    destruct (signal env t); [apply handle_shutdown_keeps_pace | keep_pace].
  - intros _. keep_pace.
Qed.

Lemma process_server_keeps_pace all_server server_ids server l :
  keeps_pace (process_server repr_other all_server server_ids server l).
Proof. unfold process_server. keep_pace. Qed.

Lemma send_email_keeps_pace subject message recipients :
  keeps_pace (send_email cfg env subject message recipients).
Proof.
  eapply only_emits_keeps_pace; [|apply send_email_only_emits].
  intros e (He & _) i p.
  destruct e as [[] []| | | | |]; try discriminate; reflexivity.
Qed.

Lemma process_account_keeps_pace account_name account_data :
  keeps_pace (process_account cfg env repr_other account_name account_data).
Proof.
  unfold process_account, get_current_user, get_user_earnings,
    get_server_status. cbv zeta.
  repeat first
    [ apply call_vast_api_keeps_pace
    | apply send_email_keeps_pace
    | apply process_server_keeps_pace
    | apply keeps_pace_ret
    | apply keeps_pace_lift
    | apply keeps_pace_gets
    | apply keeps_pace_emit; intros ? ?; reflexivity
    | apply keeps_pace_for_each; intros ? ?
    | apply keeps_pace_bind; [|intros ?]
    | match goal with
      | |- keeps_pace (if ?b then _ else _) => destruct b
      end ].
Qed.

Lemma save_json_keeps_pace path data : keeps_pace (save_json env path data).
Proof. unfold save_json. keep_pace. Qed.

(** Reading the status file starts a turn; what follows keeps the pace. *)
Lemma load_status_then {B} (k : value -> M B) interval s :
  (forall loaded, keeps_pace (k loaded)) ->
  shutdown_event s = false ->
  exists events,
    trace (snd (bind (load_json STATUS_FILE) k s)) = (trace s ++ events)%list /\
    paced interval (mkPace true false) events
    = Some (mkPace false
              (shutdown_event (snd (bind (load_json STATUS_FILE) k s)))).
Proof.
  intros Hk Hs.
  assert (Hload : exists v logs,
             Forall neutral logs /\
             (load_json STATUS_FILE s
              = (Ok v, set_trace (trace s ++ EvReadFile STATUS_FILE :: logs) s)
              \/
              load_json STATUS_FILE s
              = (Raise OSError,
                 set_trace (trace s ++ EvReadFile STATUS_FILE :: logs) s))).
  { unfold load_json, bind, emit, logging, emit, modify, gets, ret, lift.
    destruct s as [ps va sh dk ck tr]; simpl.
    destruct (dk STATUS_FILE); simpl.
    - exists (VDict []), [EvLog WARNING (LogJsonNotFound STATUS_FILE)].
      split; [repeat constructor|]. left. now rewrite <- app_assoc.
    - exists v, []. split; [constructor|]. now left.
    - exists (VDict []), [EvLog ERROR (LogInvalidJsonFile STATUS_FILE)].
      split; [repeat constructor|]. left. now rewrite <- app_assoc.
    - exists VNone, []. split; [constructor|]. now right. }
  destruct Hload as (v & logs & Hlogs & [E|E]); unfold bind; rewrite E.
  - destruct (Hk v interval false
                (set_trace (trace s ++ EvReadFile STATUS_FILE :: logs) s))
      as (ev & T & P).
    exists (EvReadFile STATUS_FILE :: logs ++ ev)%list. split.
    + rewrite T. simpl. rewrite <- app_assoc. reflexivity.
    + simpl. rewrite paced_app, (paced_neutral _ _ _ Hlogs).
      simpl in P. rewrite Hs in P. exact P.
  - exists (EvReadFile STATUS_FILE :: logs)%list. split; [reflexivity|].
    simpl. rewrite (paced_neutral _ _ _ Hlogs). now rewrite Hs.
Qed.

(** A turn read off the trace: it starts, and then keeps the pace. *)
Lemma poll_iteration_pace interval s :
  shutdown_event s = false ->
  exists events,
    trace (snd (poll_iteration cfg env repr_other s))
    = (trace s ++ events)%list /\
    paced interval (mkPace true false) events
    = Some (mkPace false
              (shutdown_event (snd (poll_iteration cfg env repr_other s)))).
Proof.
  unfold poll_iteration. apply load_status_then.
  intros loaded. unfold load_json.
  repeat first
    [ apply process_account_keeps_pace
    | apply save_json_keeps_pace
    | apply keeps_pace_ret
    | apply keeps_pace_lift
    | apply keeps_pace_gets
    | apply keeps_pace_emit; intros ? ?; reflexivity
    | apply keeps_pace_modify; intros []; split; reflexivity
    | apply keeps_pace_for_each; intros ? ?
    | apply keeps_pace_bind; [|intros ?]
    | match goal with
      | |- keeps_pace (match ?x with _ => _ end) => destruct x
      end ].
Qed.

(** *** The poll loop *)

Lemma monitor_servers_stopped turns s :
  shutdown_event s = true ->
  monitor_servers cfg env repr_other turns s = (Ok Returned, s).
Proof.
  intros H. destruct turns; simpl; rewrite bind_gets, H; reflexivity.
Qed.

Lemma monitor_servers_turn turns s s1 s2 :
  shutdown_event s = false ->
  poll_iteration cfg env repr_other s = (Ok tt, s1) ->
  wait_for_shutdown cfg env s1 = (Ok tt, s2) ->
  monitor_servers cfg env repr_other (S turns) s
  = monitor_servers cfg env repr_other turns s2.
Proof.
  intros H P W. simpl. rewrite bind_gets, H.
  rewrite (bind_run _ _ _ _ _ P). now rewrite (bind_run _ _ _ _ _ W).
Qed.

(** The wait after a turn: none when the event is set already; otherwise up
    to [CHECK_INTERVAL], cut short by a signal, whose handler sets the
    event. *)
Lemma wait_for_shutdown_spec s1 :
  exists s2,
    wait_for_shutdown cfg env s1 = (Ok tt, s2) /\
    previous_status s2 = previous_status s1 /\
    vast_accounts s2 = vast_accounts s1 /\
    if shutdown_event s1 then s2 = s1
    else
      clock s2 = S (clock s1) /\
      disk s2 = operator env (clock s1) (disk s1) /\
      match timer env (clock s1) with
      | TimedOut =>
          trace s2 = (trace s1 ++ [EvWait (CHECK_INTERVAL cfg) TimedOut])%list /\
          shutdown_event s2 = false
      | Signalled =>
          trace s2 = (trace s1 ++ [EvWait (CHECK_INTERVAL cfg) Signalled;
                                   EvLog INFO LogShutdown])%list /\
          shutdown_event s2 = true
      end.
Proof.
  unfold wait_for_shutdown. rewrite bind_gets.
  destruct (shutdown_event s1) eqn:E.
  - exists s1. auto.
  - unfold bind, tick, emit, handle_shutdown, logging, emit, modify, ret.
    destruct s1 as [ps va sh dk ck tr]; simpl in *. subst sh.
    destruct (timer env ck); simpl; eexists;
      (split; [reflexivity|]); simpl; rewrite <- ?app_assoc;
      repeat split; reflexivity.
Qed.

Lemma monitor_servers_pace turns :
  forall s,
    shutdown_event s = false ->
    exists events p,
      trace (snd (monitor_servers cfg env repr_other turns s))
      = (trace s ++ events)%list /\
      paced (CHECK_INTERVAL cfg) (mkPace true false) events = Some p /\
      stopping p
      = shutdown_event (snd (monitor_servers cfg env repr_other turns s)).
Proof.
  induction turns as [|turns IH]; intros s Hs.
  - simpl. rewrite bind_gets, Hs.
    exists [], (mkPace true false). simpl. now rewrite app_nil_r.
  - destruct (poll_iteration_pace (CHECK_INTERVAL cfg) s Hs) as (ev1 & T1 & P1).
    assert (E : monitor_servers cfg env repr_other (S turns) s
                = bind (poll_iteration cfg env repr_other)
                    (fun _ => bind (wait_for_shutdown cfg env)
                                (fun _ => monitor_servers cfg env repr_other
                                            turns)) s).
    { simpl. now rewrite bind_gets, Hs. }
    rewrite E. clear E. unfold bind at 1 3.
    destruct (poll_iteration cfg env repr_other s) as [[[]|e] s1];
      simpl in T1, P1.
    + destruct (wait_for_shutdown_spec s1) as (s2 & W & _ & _ & Hw).
      rewrite !(bind_run _ _ _ _ _ W).
      destruct (shutdown_event s1) eqn:S1.
      * subst s2. rewrite (monitor_servers_stopped turns s1 S1).
        exists ev1, (mkPace false true). simpl. auto.
      * destruct Hw as (_ & _ & Hw).
        destruct (timer env (clock s1)); destruct Hw as (T2 & S2).
        -- destruct (IH s2 S2) as (ev3 & p3 & T3 & P3 & F3).
           exists (ev1 ++ EvWait (CHECK_INTERVAL cfg) TimedOut :: ev3)%list, p3.
           split; [rewrite T3, T2, T1; now rewrite <- !app_assoc|].
           split; [|exact F3].
           rewrite paced_app, P1. simpl. now rewrite Z.eqb_refl.
        -- rewrite (monitor_servers_stopped turns s2 S2).
           exists (ev1 ++ [EvWait (CHECK_INTERVAL cfg) Signalled;
                           EvLog INFO LogShutdown])%list,
             (mkPace false true).
           split; [simpl; rewrite T2, T1; now rewrite <- app_assoc|].
           split; [|simpl; now rewrite S2].
           rewrite paced_app, P1. simpl. now rewrite Z.eqb_refl.
    + exists ev1, (mkPace false (shutdown_event s1)). simpl. auto.
Qed.

(** C6.  Once the shutdown event is set the loop returns without starting a
    turn.  After a turn that completes, the loop waits with the configured
    interval as timeout, unless the event was set during the turn; when the
    wait times out the next turn starts, and when a signal cuts it short the
    handler sets the event and the loop returns.  The loop returns only with
    the event set.  On the trace of any run, however it ends: every turn but
    the first starts after a wait of the configured interval that timed out,
    every wait follows a turn, and after the signal handler has run no turn
    starts and no wait begins. *)
Theorem loop_waits_between_turns_and_stops_on_shutdown :
  (forall turns s,
      shutdown_event s = true ->
      monitor_servers cfg env repr_other turns s = (Ok Returned, s)) /\
  (forall turns s s1,
      shutdown_event s = false ->
      poll_iteration cfg env repr_other s = (Ok tt, s1) ->
      exists s2,
        monitor_servers cfg env repr_other (S turns) s
        = monitor_servers cfg env repr_other turns s2 /\
        (shutdown_event s2 = true ->
         monitor_servers cfg env repr_other (S turns) s = (Ok Returned, s2)) /\
        if shutdown_event s1 then s2 = s1
        else
          match timer env (clock s1) with
          | TimedOut =>
              trace s2
              = (trace s1 ++ [EvWait (CHECK_INTERVAL cfg) TimedOut])%list /\
              shutdown_event s2 = false
          | Signalled =>
              trace s2
              = (trace s1 ++ [EvWait (CHECK_INTERVAL cfg) Signalled;
                              EvLog INFO LogShutdown])%list /\
              shutdown_event s2 = true
          end) /\
  (forall turns s r s',
      monitor_servers cfg env repr_other turns s = (Ok r, s') ->
      (r = Returned <-> shutdown_event s' = true)) /\
  (forall turns s,
      shutdown_event s = false ->
      exists events p,
        trace (snd (monitor_servers cfg env repr_other turns s))
        = (trace s ++ events)%list /\
        paced (CHECK_INTERVAL cfg) (mkPace true false) events = Some p /\
        stopping p
        = shutdown_event (snd (monitor_servers cfg env repr_other turns s))).
Proof.
  split; [|split; [|split; [|intros; now apply monitor_servers_pace]]].
  - intros turns s H. now apply monitor_servers_stopped.
  - intros turns s s1 H P.
    destruct (wait_for_shutdown_spec s1) as (s2 & W & _ & _ & Hw).
    exists s2.
    pose proof (monitor_servers_turn turns s s1 s2 H P W) as E.
    split; [exact E|].
    split; [intros S2; rewrite E; now apply monitor_servers_stopped|].
    destruct (shutdown_event s1); [exact Hw|].
    destruct Hw as (_ & _ & Hw). exact Hw.
  - induction turns as [|turns IH]; intros s r s' H; simpl in H;
      rewrite bind_gets in H; destruct (shutdown_event s) eqn:E.
    + apply ret_ok in H. destruct H as (-> & ->). tauto.
    + apply ret_ok in H. destruct H as (-> & ->).
      split; [discriminate | congruence].
    + apply ret_ok in H. destruct H as (-> & ->). tauto.
    + apply bind_ok in H. destruct H as ([] & s1 & _ & H).
      apply bind_ok in H. destruct H as ([] & s2 & _ & H).
      exact (IH _ _ _ H).
Qed.

(** *** What a repeated observation is compared with *)





(** *** Files: what is saved is what is loaded *)

(** X1.  [save_json] always returns.  When the write succeeds, [load_json]
    of the same path then returns the saved data; when the file could not be
    opened, it returns what it returned before; when the write broke off, it
    returns the empty dict.  Other paths load as before. *)
Theorem save_json_then_load_json path data s :
  exists s1,
    save_json env path data s = (Ok tt, s1) /\
    fst (load_json path s1)
    = match disk_write env (clock s) path with
      | WriteOk => Ok data
      | WriteRefused => fst (load_json path s)
      | WriteTorn => Ok (VDict [])
      end /\
    forall other,
      other <> path -> fst (load_json other s1) = fst (load_json other s).
Proof.
  unfold save_json, load_json, bind, tick, logging, emit, modify, gets, ret,
         lift.
  destruct s as [ps va sh dk ck tr]; simpl.
  destruct (disk_write env ck path); simpl; eexists;
    (split; [reflexivity|]); simpl; unfold write_file;
    rewrite ?String.eqb_refl; simpl;
    (split; [try reflexivity|]).
  - intros other Hne. apply String.eqb_neq in Hne. rewrite Hne.
    now destruct (dk other).
  - now destruct (dk path).
  - intros other Hne. now destruct (dk other).
  - intros other Hne. apply String.eqb_neq in Hne. rewrite Hne.
    now destruct (dk other).
Qed.

(** *** The notifier, step by step *)

Lemma smtp_do_accepted c s :
  smtp env (clock s) c = true ->
  smtp_do env c s = (Ok tt, smtp_step c true s).
Proof.
  intros H. unfold smtp_do, bind, tick, emit, modify, smtp_step.
  destruct s as [ps va sh dk ck tr]; simpl in *. now rewrite H.
Qed.

Lemma smtp_do_refused c s :
  smtp env (clock s) c = false ->
  smtp_do env c s = (Raise OSError, smtp_step c false s).
Proof.
  intros H. unfold smtp_do, bind, tick, emit, modify, smtp_step.
  destruct s as [ps va sh dk ck tr]; simpl in *. now rewrite H.
Qed.

Lemma bind_raise {A B} (m : M A) (k : A -> M B) s e s1 :
  m s = (Raise e, s1) -> bind m k s = (Raise e, s1).
Proof. unfold bind. now intros ->. Qed.




Lemma bind_ret {A B} (a : A) (k : A -> M B) s : bind (ret a) k s = k a s.
Proof. reflexivity. Qed.

Lemma bind_assoc {A B C} (m : M A) (f : A -> M B) (k : B -> M C) s :
  bind (bind m f) k s = bind m (fun a => bind (f a) k) s.
Proof. unfold bind. now destruct (m s) as [[a|e] s1]. Qed.



(** Events that hand no message to the SMTP server. *)
Lemma no_sendmail_no_delivery events :
  Forall (fun e => is_sendmail e = false) events ->
  delivered events = [] /\ attempted events = [].
Proof.
  induction 1 as [|e events He _ (IHd & IHa)]; [now split|].
  unfold delivered, attempted in *. simpl. rewrite IHd, IHa.
  destruct e as [| | | |[] ?|]; try discriminate; now split.
Qed.

Lemma serves_after {A B} rs (m : M A) (k : A -> M B) :
  only_emits (fun e => is_sendmail e = false) m ->
  (forall a, serves rs (k a)) -> serves rs (bind m k).
Proof.
  intros Hm Hk s. destruct (Hm s) as (_ & _ & _ & _ & ev1 & T1 & F1).
  destruct (no_sendmail_no_delivery _ F1) as (D1 & A1).
  unfold bind. destruct (m s) as [[a|e] s1]; simpl in *.
  - destruct (Hk a s1) as (ev2 & later & T2 & L2 & C2).
    exists (ev1 ++ ev2)%list, later.
    unfold delivered, attempted in *. rewrite !flat_map_app, D1, A1. simpl.
    split; [rewrite T2, T1; now rewrite app_assoc | auto].
  - exists ev1, rs. rewrite D1, A1. auto.
Qed.

Lemma serves_try_except {A} rs (m : M A) (h : exn -> M A) :
  serves rs m ->
  (forall e, only_emits (fun e => is_sendmail e = false) (h e)) ->
  serves rs (try_except m h).
Proof.
  intros Hm Hh s. destruct (Hm s) as (ev1 & later & T1 & L1 & C1).
  unfold try_except. destruct (m s) as [[a|e] s1]; simpl in *.
  - exists ev1, later. auto.
  - destruct (Hh e s1) as (_ & _ & _ & _ & ev2 & T2 & F2).
    destruct (no_sendmail_no_delivery _ F2) as (D2 & A2).
    exists (ev1 ++ ev2)%list, later.
    unfold delivered, attempted in *. rewrite !flat_map_app, D2, A2.
    rewrite !app_nil_r.
    split; [rewrite T2, T1; now rewrite app_assoc | auto].
Qed.

Lemma serves_deliveries {B} subject body (k : unit -> M B) rs :
  (forall a, only_emits (fun e => is_sendmail e = false) (k a)) ->
  serves rs
    (bind
       (for_each
          (fun recipient (_ : unit) =>
             bind (smtp_do env
                     (SmtpSendmail (EMAIL_FROM cfg) recipient subject body))
                  (fun _ => logging INFO (LogEmailSent recipient)))
          rs tt) k).
Proof.
  intros Hk. induction rs as [|r rs IH]; intros s.
  - simpl for_each. rewrite bind_ret.
    destruct (Hk tt s) as (_ & _ & _ & _ & ev & T & F).
    destruct (no_sendmail_no_delivery _ F) as (D & A).
    exists ev, []. rewrite D, A. auto.
  - simpl for_each.
    destruct (smtp env (clock s)
                (SmtpSendmail (EMAIL_FROM cfg) r subject body)) eqn:Hc.
    + pose proof (smtp_do_accepted _ s Hc) as R.
      set (s1 := set_trace
                   (trace s ++
                    [ EvSmtp (SmtpSendmail (EMAIL_FROM cfg) r subject body) true;
                      EvLog INFO (LogEmailSent r) ])%list
                   (set_clock (S (clock s)) s)).
      assert (E : forall C (h : unit -> M C),
                 bind (bind (smtp_do env
                               (SmtpSendmail (EMAIL_FROM cfg) r subject body))
                            (fun _ => logging INFO (LogEmailSent r))) h s
                 = h tt s1).
      { intros C h. apply bind_run. rewrite (bind_run _ _ _ _ _ R).
        unfold logging, emit, modify, smtp_step, s1. simpl.
        now rewrite <- app_assoc. }
      rewrite bind_assoc, E.
      destruct (IH s1) as (ev & later & T & L & C).
      exists (EvSmtp (SmtpSendmail (EMAIL_FROM cfg) r subject body) true
              :: EvLog INFO (LogEmailSent r) :: ev), later.
      rewrite T.
      unfold delivered, attempted in *. simpl.
      split; [now rewrite <- app_assoc|].
      split; [now f_equal|].
      destruct C as [C|C]; rewrite C; auto.
    + pose proof (smtp_do_refused _ s Hc) as R.
      rewrite (bind_raise _ _ _ _ _
                 (bind_raise _ _ _ _ _ (bind_raise _ _ _ _ _ R))).
      exists [EvSmtp (SmtpSendmail (EMAIL_FROM cfg) r subject body) false],
        (r :: rs).
      simpl. auto.
Qed.

(** X4.  [send_email] serves the recipients in order and stops at the first
    step the SMTP server refuses: those whose message was accepted are a
    prefix of the recipients, and at most one further message, to the
    recipient next in line, was handed over and refused. *)
Theorem send_email_serves_a_prefix subject message recipients rs s :
  py_iter (addressees cfg recipients) = Ok rs ->
  exists events later,
    trace (snd (send_email cfg env subject message recipients s))
    = (trace s ++ events)%list /\
    rs = (delivered events ++ later)%list /\
    (attempted events = delivered events \/
     attempted events = (delivered events ++ firstn 1 later)%list).
Proof.
  intros Hiter. revert s. change (serves rs (send_email cfg env subject message recipients)).
  unfold send_email, addressees in *.
  destruct (negb (truthy match recipients with
                         | VNone => default_recipients cfg
                         | _ => recipients
                         end)).
  - intros s. exists [EvLog ERROR LogNoRecipients], rs. simpl. auto.
  - apply serves_try_except.
    + cbv zeta. rewrite Hiter.
      apply serves_after.
      { apply smtp_do_only_emits. reflexivity. }
      intros _. apply serves_after.
      { destruct (SMTP_USE_TLS cfg);
          [apply smtp_do_only_emits; reflexivity | apply only_emits_ret]. }
      intros _. apply serves_after.
      { destruct (SMTP_USERNAME cfg) as [u|];
          [destruct (SMTP_PASSWORD cfg) as [pw|];
           [destruct (is_set (Some u) && is_set (Some pw))|]|];
          try apply only_emits_ret.
        apply smtp_do_only_emits. reflexivity. }
      intros _ s. rewrite (bind_lift _ _ _ _ eq_refl).
      apply serves_deliveries. intros _.
      apply smtp_do_only_emits. reflexivity.
    + intros e. apply only_emits_emit. reflexivity.
Qed.

(** *** The mail body: symbols become text *)

Lemma replace_plain key new t rest :
  starts_high key = true -> plain t = true ->
  replace_from key new 0 (t ++ rest) = (t ++ replace_from key new 0 rest)%string.
Proof.
  intros Hk. unfold plain. induction t as [|c t IH]; simpl; intros Ht.
  - reflexivity.
  - apply andb_true_iff in Ht. destruct Ht as (Hc & Ht).
    destruct key as [|kc key]; [discriminate|]. simpl in Hk.
    simpl String.prefix. destruct (ascii_dec kc c) as [->|_].
    + rewrite Hc in Hk. discriminate.
    + now rewrite IH.
Qed.

Lemma replace_other_bytes c key new w rest :
  forallb (fun b => negb (Ascii.eqb b c)) (list_ascii_of_string w) = true ->
  replace_from (String c key) new 0 (w ++ rest)
  = (w ++ replace_from (String c key) new 0 rest)%string.
Proof.
  induction w as [|b w IH]; simpl; intros Hw.
  - reflexivity.
  - apply andb_true_iff in Hw. destruct Hw as (Hb & Hw).
    destruct (ascii_dec c b) as [->|_].
    + rewrite Ascii.eqb_refl in Hb. discriminate.
    + now rewrite IH.
Qed.

Lemma clash_no_prefix s :
  forall t rest, clash s t = true -> String.prefix s (t ++ rest) = false.
Proof.
  induction s as [|a s IH]; intros [|b t] rest; simpl; try discriminate.
  destruct (ascii_dec a b) as [->|Hne].
  - rewrite Ascii.eqb_refl. apply IH.
  - reflexivity.
Qed.

Lemma replace_apart symbol new other rest :
  apart symbol other = true ->
  replace_from symbol new 0 (other ++ rest)
  = (other ++ replace_from symbol new 0 rest)%string.
Proof.
  unfold apart. intros H. apply andb_true_iff in H. destruct H as (Hc & Ht).
  destruct symbol as [|c key]; [discriminate|].
  destruct other as [|b tail]; [discriminate|].
  change (String b tail ++ rest)%string with (String b (tail ++ rest)).
  cbn [replace_from].
  change (String b (tail ++ rest)) with (String b tail ++ rest)%string.
  rewrite (clash_no_prefix _ _ rest Hc).
  now rewrite replace_other_bytes.
Qed.

Lemma prefix_of_append s rest : String.prefix s (s ++ rest) = true.
Proof.
  induction s as [|a s IH]; simpl.
  - now destruct rest.
  - destruct (ascii_dec a a); [exact IH | contradiction].
Qed.

Lemma replace_skips old new w rest :
  replace_from old new (String.length w) (w ++ rest)
  = replace_from old new 0 rest.
Proof. induction w as [|b w IH]; simpl; [reflexivity | exact IH]. Qed.

Lemma replace_here c key new rest :
  replace_from (String c key) new 0 (String c key ++ rest)
  = (new ++ replace_from (String c key) new 0 rest)%string.
Proof.
  change (String c key ++ rest)%string with (String c (key ++ rest)).
  cbn [replace_from].
  change (String c (key ++ rest)) with (String c key ++ rest)%string.
  rewrite prefix_of_append. simpl String.length. simpl Nat.pred.
  now rewrite replace_skips.
Qed.

Lemma table_is_sound : table_sound = true.
Proof. vm_compute. reflexivity. Qed.

Lemma replace_step done kv pieces :
  In kv emoji_map -> Forall well_formed pieces ->
  str_replace (fst kv) (snd kv) (replaced done pieces)
  = replaced (done ++ [kv]) pieces.
Proof.
  intros Hkv Hwf. unfold str_replace.
  pose proof table_is_sound as Sound. unfold table_sound in Sound.
  rewrite forallb_forall in Sound.
  pose proof (Sound kv Hkv) as Hk.
  apply andb_true_iff in Hk. destruct Hk as (Hk & Hothers).
  apply andb_true_iff in Hk. destruct Hk as (Hhigh & _).
  rewrite forallb_forall in Hothers.
  induction Hwf as [|p pieces Hp _ IH]; [reflexivity|].
  destruct p as [t|symbol text]; simpl in *.
  - rewrite replace_plain by assumption. now rewrite IH.
  - rewrite existsb_app. simpl. rewrite orb_false_r.
    pose proof (Sound _ Hp) as Ht.
    apply andb_true_iff in Ht. destruct Ht as (Ht & _).
    apply andb_true_iff in Ht. destruct Ht as (_ & Hplain).
    pose proof (Hothers _ Hp) as Hrest. simpl in *.
    destruct (existsb (fun kv0 => String.eqb symbol (fst kv0)) done); simpl.
    + rewrite replace_plain by assumption. now rewrite IH.
    + destruct (String.eqb symbol (fst kv)) eqn:E.
      * apply String.eqb_eq in E. apply String.eqb_eq in Hrest.
        subst symbol text.
        destruct (fst kv) as [|c key]; [discriminate|].
        now rewrite replace_here, IH.
      * now rewrite replace_apart, IH.
Qed.

Lemma replace_all todo :
  forall done pieces,
    incl todo emoji_map -> Forall well_formed pieces ->
    fold_left (fun formatted_message kv =>
                 str_replace (fst kv) (snd kv) formatted_message)
              todo (replaced done pieces)
    = replaced (done ++ todo) pieces.
Proof.
  induction todo as [|kv todo IH]; intros done pieces Hin Hwf; simpl.
  - now rewrite app_nil_r.
  - rewrite replace_step; [|apply Hin; now left | assumption].
    rewrite IH; [|intros x Hx; apply Hin; now right | assumption].
    now rewrite <- app_assoc.
Qed.

(** X5.  On a message made of text without emoji bytes and of symbols of
    the table, [format_for_email] replaces every symbol by the text the
    table gives it - [👤] by [Running:], the later of its two entries - and
    leaves the text as it is. *)
Theorem format_for_email_replaces_symbols pieces :
  Forall well_formed pieces ->
  format_for_email (written pieces) = shown pieces.
Proof.
  intros Hwf. unfold format_for_email.
  assert (E0 : written pieces = replaced [] pieces).
  { clear Hwf. induction pieces as [|[t|symbol text] pieces IH]; simpl;
      [reflexivity | now rewrite IH | now rewrite IH]. }
  rewrite E0, replace_all; [|apply incl_refl | assumption].
  simpl app. clear E0.
  induction Hwf as [|p pieces Hp _ IH]; [reflexivity|].
  destruct p as [t|symbol text].
  - unfold replaced, shown in *. cbn [fold_right]. now rewrite IH.
  - assert (E : existsb (fun kv => String.eqb symbol (fst kv)) emoji_map
                = true).
    { apply existsb_exists. exists (symbol, text). split; [exact Hp|].
      apply String.eqb_refl. }
    unfold replaced, shown in *. cbn [fold_right]. now rewrite E, IH.
Qed.

(** *** The subject of a mail about a new rental *)

Lemma string_ltb_irrefl s : string_ltb s s = false.
Proof.
  induction s as [|a s IH]; simpl; [reflexivity|].
  now rewrite Nat.ltb_irrefl.
Qed.

Lemma py_lt_ne a b : py_lt a b = Ok true -> py_ne a b = true.
Proof.
  unfold py_lt, py_ne.
  destruct a, b; simpl; unfold num_ltb, num_eqb; intros H;
    try discriminate H;
    try (match goal with
         | |- context [num_compare ?x ?y] =>
             destruct (num_compare x y) as [[]|]
         end; (reflexivity || discriminate H)).
  injection H as H1. destruct (String.eqb_spec s s0) as [->|_];
    [|reflexivity].
  rewrite string_ltb_irrefl in H1. discriminate.
Qed.

Lemma contains_at_start mark rest : str_contains mark (mark ++ rest) = true.
Proof.
  pose proof (prefix_of_append mark rest) as H.
  revert H. generalize (mark ++ rest)%string. intros t H.
  destruct t; cbn [str_contains]; now rewrite H.
Qed.

Lemma when_changed_keeps mark test line acc acc' :
  when_changed test line acc = Ok acc' ->
  (fst acc = true -> fst acc' = true) /\
  (any_contains mark (snd acc) = true -> any_contains mark (snd acc') = true).
Proof.
  intros H. apply when_changed_ok in H.
  destruct H as (F & added & L & _). split.
  - intros E. now rewrite F, E.
  - unfold any_contains. intros E. now rewrite L, existsb_app, E.
Qed.

Lemma compare_with_keeps mark old_data server_id o acc acc' :
  compare_with repr_other old_data server_id o acc = Ok acc' ->
  (fst acc = true -> fst acc' = true) /\
  (any_contains mark (snd acc) = true -> any_contains mark (snd acc') = true).
Proof.
  intros H. apply compare_with_ok in H.
  destruct H as (d & _ & F & added & L & _). split.
  - intros E. now rewrite F, E.
  - unfold any_contains. intros E. now rewrite L, existsb_app, E.
Qed.

Lemma compare_with_new_rental old_data server_id o acc acc' p :
  compare_with repr_other old_data server_id o acc = Ok acc' ->
  prior old_data "rented_gpus" (VInt 0) = Ok p ->
  py_lt p (rented_gpus o) = Ok true ->
  fst acc' = true /\ any_contains "🚀" (snd acc') = true.
Proof.
  unfold compare_with. intros H Hp Hlt. rsteps_in H.
  match goal with
  | E : prior old_data "rented_gpus" (VInt 0) = Ok ?x |- _ =>
      rewrite Hp in E; inversion E; subst x; clear E
  end.
  match goal with
  | E : when_changed (_ || py_ne p (rented_gpus o)) _ acc = Ok ?x |- _ =>
      assert (F1 : fst x = true /\ any_contains "🚀" (snd x) = true)
  end.
  { match goal with
    | E : when_changed (_ || py_ne p (rented_gpus o)) _ acc = Ok _ |- _ =>
        unfold when_changed in E;
        rewrite (py_lt_ne _ _ Hlt), orb_true_r, Hlt in E;
        cbn [rbind] in E; rsteps_in E; inversion E; subst; clear E
    end.
    match goal with
    | E : rbind (py_replace _ _ _) _ = Ok _ |- _ =>
        rsteps_in E; inversion E; subst; clear E
    end.
    split; [reflexivity|]. unfold any_contains. simpl snd.
    rewrite existsb_app. cbn [existsb].
    match goal with
    | |- context [str_contains _
                    (String ?a (String ?b (String ?c (String ?d ?r))))] =>
        change (String a (String b (String c (String d r))))
          with ("🚀" ++ r)%string
    end.
    rewrite contains_at_start. simpl. apply orb_true_r. }
  destruct F1 as (Fa & Fb).
  repeat match goal with
         | E : when_changed _ _ ?a = Ok ?b |- _ =>
             apply (when_changed_keeps "🚀") in E; destruct E as (? & ?)
         end.
  split; auto 10.
Qed.

Lemma process_server_new_rental all_server server_ids server l s l' s' :
  process_server repr_other all_server server_ids server l s = (Ok l', s') ->
  (changes_detected l = true /\ any_contains "🚀" (changes_lines l) = true ->
   changes_detected l' = true /\ any_contains "🚀" (changes_lines l') = true) /\
  match recorded repr_other all_server server_ids server with
  | Some ko =>
      rental_started (entries s) ko = true ->
      changes_detected l' = true /\ any_contains "🚀" (changes_lines l') = true
  | None => True
  end.
Proof.
  intros H. apply process_server_ok in H.
  destruct H as (id & skip & Hid & Hskip & H).
  unfold recorded. rewrite Hid, Hskip. destruct skip.
  - destruct H as (-> & ->). split; [tauto | exact I].
  - destruct H as (o & d & Ho & Hd & _ & _ & Hc). rewrite Ho.
    unfold rental_started, entries. rewrite Hd. simpl fst. simpl snd.
    destruct (assoc (str id) d) as [old|].
    + destruct old;
        try (split;
             [ intros (Fa & Fb);
               destruct (compare_with_keeps "🚀" _ _ _ _ _ Hc) as (Ka & Kb);
               split; [apply Ka, Fa | apply Kb, Fb]
             | match goal with
               | |- context [prior ?old "rented_gpus" (VInt 0)] =>
                   destruct (prior old "rented_gpus" (VInt 0)) as [p|] eqn:Hp;
                     [|discriminate]
               end;
               destruct (py_lt p (rented_gpus o)) as [[]|] eqn:Hlt;
                 try discriminate;
               intros _;
               exact (compare_with_new_rental _ _ _ _ _ _ Hc Hp Hlt) ]).
      destruct Hc as (Hf & Hl). split; [|discriminate].
      intros (_ & Fb). rewrite Hl. auto.
    + destruct Hc as (Hf & Hl). split; [|discriminate].
      intros (_ & Fb). rewrite Hl. auto.
Qed.

Lemma servers_loop_new_rental all_server server_ids machines :
  forall l s l' s',
    for_each (process_server repr_other all_server server_ids) machines l s
    = (Ok l', s') ->
    let rs := observed repr_other all_server server_ids machines in
    NoDup (map fst rs) ->
    (changes_detected l = true /\ any_contains "🚀" (changes_lines l) = true) \/
    existsb (rental_started (entries s)) rs = true ->
    changes_detected l' = true /\ any_contains "🚀" (changes_lines l') = true.
Proof.
  induction machines as [|server machines IH]; intros l s l' s' H; simpl in H.
  - apply ret_ok in H. destruct H as (-> & ->). simpl.
    intros _ [F|F]; [exact F | discriminate].
  - apply bind_ok in H. destruct H as (l1 & s1 & H1 & H).
    pose proof (process_server_new_rental _ _ _ _ _ _ _ H1) as (Keep & New).
    apply process_server_recorded in H1.
    specialize (IH _ _ _ _ H). clear H. cbv zeta in IH |- *.
    unfold observed. simpl flat_map.
    fold (observed repr_other all_server server_ids machines).
    set (rest := observed repr_other all_server server_ids machines) in *.
    destruct (recorded repr_other all_server server_ids server)
      as [[key o]|].
    + destruct H1 as (d & Hd & Hs1 & _). simpl app.
      intros ND. simpl in ND. apply NoDup_cons_iff in ND.
      destruct ND as (Hnotin & ND').
      intros [F|F]; [apply (IH ND'); left; apply Keep, F|].
      simpl existsb in F. apply orb_true_iff in F.
      destruct F as [F|F]; [apply (IH ND'); left; apply New, F|].
      apply (IH ND'). right. rewrite <- F. apply existsb_agree.
      intros ko Hin. unfold rental_started, entries. rewrite Hs1, Hd. simpl.
      rewrite assoc_set_other; [reflexivity|].
      intros E. apply Hnotin. rewrite <- E. now apply in_map.
    + destruct H1 as (-> & ->). simpl app. exact IH.
Qed.

Lemma rental_started_entry d rs :
  existsb (rental_started d) rs = true -> d <> [].
Proof.
  intros H ->. induction rs as [|ko rs IH]; simpl in H; [discriminate|].
  exact (IH H).
Qed.

Lemma mails_of_carried subject body events :
  Forall (fun e => is_notification e = true /\ carries subject body e) events ->
  Forall (fun m => m = (subject, body)) (mails events).
Proof.
  induction 1 as [|e events (_ & He) _ IH]; [constructor|].
  unfold mails in *. simpl.
  destruct e as [| | | |[] ?|]; simpl; try exact IH.
  destruct He as (-> & ->). now constructor.
Qed.

Lemma mails_of_requests events :
  Forall (fun e => is_http_get e || is_api_log e = true) events ->
  mails events = [].
Proof.
  induction 1 as [|e events He _ IH]; [reflexivity|].
  unfold mails in *. simpl. rewrite IH.
  destruct e as [| | | |[] ?|]; try reflexivity; discriminate.
Qed.

(** X6.  When an account has a monitored machine whose snapshot entry
    records fewer rented GPUs than the machine has now, the mail for the
    account is attempted and every message handed to the SMTP server has the
    subject [🚀 VastAI New Rental - <account>], whatever else changed on this
    or another machine of the account. *)
Theorem new_rental_names_the_subject account_name account_data s s' :
  process_account cfg env repr_other account_name account_data s
  = (Ok tt, s') ->
  NoDup (map fst (account_observed cfg env repr_other s account_data)) ->
  existsb (rental_started (entries s))
          (account_observed cfg env repr_other s account_data) = true ->
  exists events,
    trace s' = (trace s ++ events)%list /\
    notification_attempted events = true /\
    Forall (fun m => fst m = "🚀 VastAI New Rental - " ++ account_name)
           (mails events).
Proof.
  intros Hrun ND Hnew. apply process_account_ok in Hrun.
  destruct Hrun as (api_key & notify & server_ids & all_server & machines
                    & balance & earnings & Hkey & _ & Hids & Hall & _ & _
                    & Hmachines & s3 & gets & l & s4 & Hprev & _ & _ & _
                    & Htrace & _ & Hgets & Hloop & Hend).
  assert (Hobs : account_observed cfg env repr_other s account_data
                 = observed repr_other all_server server_ids machines).
  { unfold account_observed. now rewrite Hkey, Hids, Hall, Hmachines. }
  rewrite Hobs in ND, Hnew.
  assert (E3 : entries s3 = entries s) by (unfold entries; now rewrite Hprev).
  pose proof (servers_loop_new_rental _ _ _ _ _ _ _ Hloop ND) as Hl.
  rewrite E3 in Hl. destruct (Hl (or_intror Hnew)) as (Hflag & Hrocket).
  pose proof (servers_loop_ok _ _ _ _ _ _ _ Hloop) as Hok. cbv zeta in Hok.
  destruct Hok as (Hs4 & _ & _ & _ & Hlines & _).
  assert (Hsome : observed repr_other all_server server_ids machines <> []).
  { intros E. rewrite E in Hnew. discriminate. }
  assert (Hold : truthy (previous_status s) = true).
  { pose proof (rental_started_entry _ _ Hnew) as Hd. unfold entries in Hd.
    destruct (previous_status s) as [| | | | | |d]; try contradiction.
    now destruct d. }
  cbv zeta in Hend. rewrite Hold in Hend. simpl negb in Hend.
  assert (Hworth : worth_telling false (close_changes l) = true).
  { unfold worth_telling.
    rewrite close_changes_detected, Hflag, close_changes_account_lines, Hlines.
    simpl. now destruct (observed repr_other all_server server_ids machines). }
  rewrite Hworth in Hend. destruct Hend as (bs & es & _ & _ & Hmail).
  assert (Hsubject : email_subject account_name false (close_changes l)
                     = "🚀 VastAI New Rental - " ++ account_name).
  { unfold email_subject. rewrite close_changes_detected, Hflag.
    assert (any_contains "🚀" (changes_lines (close_changes l)) = true) as ->;
      [|reflexivity].
    unfold close_changes. destruct (changes_lines l) as [|line lines] eqn:E;
      [discriminate|].
    cbn [changes_lines]. unfold any_contains in *.
    now rewrite existsb_app, Hrocket. }
  rewrite Hsubject in Hmail.
  destruct (send_email_spec ("🚀 VastAI New Rental - " ++ account_name)
              (message_body account_name bs es (close_changes l)) notify s4)
    as (s'' & mail & Hmail' & _ & _ & _ & _ & T5 & Hatt & Hcar).
  rewrite Hmail in Hmail'. inversion Hmail'; subst s''; clear Hmail'.
  exists (gets ++ mail)%list. split; [|split].
  - rewrite T5, Hs4. simpl. rewrite Htrace. now rewrite app_assoc.
  - rewrite notification_attempted_app, Hatt. apply orb_true_r.
  - unfold mails. rewrite flat_map_app.
    fold (mails gets). fold (mails mail).
    rewrite (mails_of_requests _ Hgets). simpl.
    apply mails_of_carried in Hcar.
    eapply Forall_impl; [|exact Hcar]. now intros m ->.
Qed.

(** *** What a computation appends, whatever its outcome *)

Lemma appends_ret {A} P (a : A) : appends P (ret a).
Proof. intros s. exists []. simpl. now rewrite app_nil_r. Qed.

Lemma appends_lift {A} P (r : result A) : appends P (lift r).
Proof. intros s. exists []. simpl. now rewrite app_nil_r. Qed.

Lemma appends_gets {A} P (f : state -> A) : appends P (gets f).
Proof. intros s. exists []. simpl. now rewrite app_nil_r. Qed.

Lemma appends_emit (P : event -> Prop) e : P e -> appends P (emit e).
Proof. intros H s. exists [e]. simpl. split; [reflexivity | now constructor]. Qed.

Lemma appends_modify P (f : state -> state) :
  (forall s, trace (f s) = trace s) -> appends P (modify f).
Proof. intros H s. exists []. simpl. now rewrite H, app_nil_r. Qed.

Lemma appends_bind {A B} P (m : M A) (k : A -> M B) :
  appends P m -> (forall a, appends P (k a)) -> appends P (bind m k).
Proof.
  intros Hm Hk s. destruct (Hm s) as (ev1 & T1 & F1). unfold bind.
  destruct (m s) as [[a|e] s1]; simpl in *.
  - destruct (Hk a s1) as (ev2 & T2 & F2).
    exists (ev1 ++ ev2)%list. rewrite T2, T1, app_assoc.
    split; [reflexivity | now apply Forall_app].
  - now exists ev1.
Qed.

Lemma appends_tick {B} P (k : nat -> M B) :
  (forall t, appends P (k t)) -> appends P (bind tick k).
Proof.
  intros Hk s. unfold bind, tick.
  destruct (Hk (clock s) (set_clock (S (clock s)) s)) as (ev & T & F).
  exists ev. now destruct s.
Qed.

Lemma appends_for_each {A S} P (body : A -> S -> M S) l :
  (forall x acc, appends P (body x acc)) ->
  forall acc, appends P (for_each body l acc).
Proof.
  intros Hb. induction l as [|x l IH]; intros acc; simpl.
  - apply appends_ret.
  - apply appends_bind; [apply Hb | exact IH].
Qed.

Lemma only_emits_appends {A} (P Q : event -> Prop) (m : M A) :
  (forall e, P e -> Q e) -> only_emits P m -> appends Q m.
Proof.
  intros PQ H s. destruct (H s) as (_ & _ & _ & _ & ev & T & F).
  exists ev. split; [exact T|]. eapply Forall_impl; [exact PQ | exact F].
Qed.

Lemma appends_impl {A} (P Q : event -> Prop) (m : M A) :
  (forall e, P e -> Q e) -> appends P m -> appends Q m.
Proof.
  intros PQ H s. destruct (H s) as (ev & T & F).
  exists ev. split; [exact T|]. eapply Forall_impl; [exact PQ | exact F].
Qed.

Ltac append :=
  repeat first
    [ apply appends_ret
    | apply appends_lift
    | apply appends_gets
    | apply appends_emit; now repeat split
    | apply appends_modify; intros []; reflexivity
    | apply appends_for_each; intros ? ?
    | apply appends_tick; intros ?
    | apply appends_bind; [|intros ?]
    | match goal with
      | |- appends _ (if ?b then _ else _) => destruct b
      | |- appends _ (match ?x with _ => _ end) => destruct x
      end ].

Lemma call_vast_api_appends url api_key :
  appends within_account (call_vast_api env repr_other url api_key).
Proof.
  unfold call_vast_api, suspended, handle_shutdown, logging. cbv zeta.
  append.
Qed.

Lemma send_email_appends subject message recipients :
  appends within_account (send_email cfg env subject message recipients).
Proof.
  eapply only_emits_appends; [|apply send_email_only_emits].
  intros e (He & _).
  destruct e as [[] []| | | | |]; try discriminate; now split.
Qed.

Lemma process_account_appends account_name account_data :
  appends within_account
    (process_account cfg env repr_other account_name account_data).
Proof.
  unfold process_account, get_current_user, get_user_earnings,
    get_server_status, process_server, logging. cbv zeta.
  repeat first
    [ apply call_vast_api_appends
    | apply send_email_appends
    | apply appends_ret
    | apply appends_lift
    | apply appends_gets
    | apply appends_emit; now split
    | apply appends_modify; intros []; reflexivity
    | apply appends_for_each; intros ? ?
    | apply appends_bind; [|intros ?]
    | match goal with
      | |- appends _ (if ?b then _ else _) => destruct b
      end ].
Qed.

(** X7.  Whatever the outcome of [process_account] - it may return or
    raise - it reads and writes no file and waits for nothing: all it adds
    to the trace are HTTP requests, steps with the SMTP server and log
    lines. *)
Theorem process_account_touches_no_file account_name account_data s :
  exists events,
    trace (snd (process_account cfg env repr_other account_name account_data s))
    = (trace s ++ events)%list /\
    Forall (fun e => is_file_access e = false /\ is_wait e = false) events.
Proof. apply process_account_appends. Qed.

(** *** A turn that fails *)

Lemma fails_within_bind {A B} P (m : M A) (k : A -> M B) :
  appends P m -> (forall a, fails_within P (k a)) -> fails_within P (bind m k).
Proof.
  intros Hm Hk s e s1. destruct (Hm s) as (ev1 & T1 & F1). unfold bind.
  destruct (m s) as [[a|e0] s0]; simpl in *; intros H.
  - destruct (Hk a _ _ _ H) as (ev2 & T2 & F2).
    exists (ev1 ++ ev2)%list. rewrite T2, T1, app_assoc.
    split; [reflexivity | now apply Forall_app].
  - inversion H; subst. now exists ev1.
Qed.

Lemma load_json_appends path : appends before_saving (load_json path).
Proof.
  unfold load_json, logging.
  apply appends_bind; [apply appends_emit; now split|]. intros _.
  apply appends_bind; [apply appends_gets|]. intros d.
  destruct (d path); append.
Qed.

Lemma poll_iteration_fails_within :
  fails_within before_saving (poll_iteration cfg env repr_other).
Proof.
  unfold poll_iteration.
  apply fails_within_bind; [apply load_json_appends|]. intros ?.
  apply fails_within_bind; [append|]. intros ?.
  apply fails_within_bind; [apply load_json_appends|]. intros ?.
  apply fails_within_bind; [append|]. intros ?.
  apply fails_within_bind; [append|]. intros ?.
  apply fails_within_bind; [append|]. intros ?.
  apply fails_within_bind.
  { apply appends_for_each. intros kv _.
    eapply appends_impl; [|apply process_account_appends].
    intros e (Hf & Hw). split; [|exact Hw].
    destruct e; try reflexivity; discriminate. }
  intros _ s e s1 H. rewrite bind_gets in H.
  destruct (save_json_spec STATUS_FILE (previous_status s) s)
    as (sB & logs & Hsave & _).
  rewrite (bind_run _ _ _ _ _ Hsave) in H. discriminate.
Qed.

(** X8.  A turn of the loop that raises has not written the status file
    and is not followed by a wait: the exception leaves [monitor_servers]
    at once, and what the accounts processed so far changed in the snapshot
    is in memory only. *)
Theorem failed_turn_saves_nothing turns s e s1 :
  shutdown_event s = false ->
  poll_iteration cfg env repr_other s = (Raise e, s1) ->
  monitor_servers cfg env repr_other (S turns) s = (Raise e, s1) /\
  exists events,
    trace s1 = (trace s ++ events)%list /\
    Forall (fun ev => is_write ev = false /\ is_wait ev = false) events.
Proof.
  intros Hrun Hturn. split.
  - simpl monitor_servers. rewrite bind_gets, Hrun.
    now apply bind_raise.
  - exact (poll_iteration_fails_within _ _ _ Hturn).
Qed.

(** X9.  An account of the configuration that is a JSON object without
    [api_key], or without [machine_ids], makes [process_account] raise
    [KeyError] at once: no request is made, nothing is logged, the state is
    as it was. *)
Theorem account_without_key_raises account_name d s :
  assoc "api_key" d = None \/ assoc "machine_ids" d = None ->
  process_account cfg env repr_other account_name (VDict d) s
  = (Raise KeyError, s).
Proof.
  intros H. unfold process_account. rewrite bind_gets.
  unfold bind, lift. simpl py_getitem. simpl py_get.
  destruct (assoc "api_key" d) as [k|]; [|reflexivity].
  destruct H as [H|H]; [discriminate|]. now rewrite H.
Qed.

(** *** Start and stop *)

(** X10.  [main] first attempts the start mail.  When the loop ends, by
    returning or by an exception, the stop mail is attempted after it, and
    [main] ends as the loop did: the exception of the loop is raised again.
    Both mails go to the configured address with the subject and the text
    of lines 360 and 364. *)
Theorem main_brackets_the_loop turns s :
  exists s1 started,
    send_email cfg env (fst started_mail) (snd started_mail) VNone s
    = (Ok tt, s1) /\
    trace s1 = (trace s ++ started)%list /\
    notification_attempted started = true /\
    Forall (fun m => m = (fst started_mail,
                          format_for_email (snd started_mail)))
           (mails started) /\
    match monitor_servers cfg env repr_other turns s1 with
    | (Ok StillRunning, s2) =>
        main cfg env repr_other turns s = (Ok StillRunning, s2)
    | (r, s2) =>
        exists s3 stopped,
          main cfg env repr_other turns s = (r, s3) /\
          trace s3 = (trace s2 ++ stopped)%list /\
          notification_attempted stopped = true /\
          Forall (fun m => m = (fst stopped_mail,
                                format_for_email (snd stopped_mail)))
                 (mails stopped)
    end.
Proof.
  destruct (send_email_spec (fst started_mail) (snd started_mail) VNone s)
    as (s1 & started & R1 & _ & _ & _ & _ & T1 & A1 & C1).
  exists s1, started. do 3 (split; [assumption|]).
  split; [now apply mails_of_carried|].
  unfold main, bind.
  change (send_email cfg env "VastAI Bot Started"
            ("🟢 VastAIBot v" ++ VERSION ++ " started successfully") VNone s)
    with (send_email cfg env (fst started_mail) (snd started_mail) VNone s).
  rewrite R1.
  destruct (monitor_servers cfg env repr_other turns s1) as [r s2].
  destruct (send_email_spec (fst stopped_mail) (snd stopped_mail) VNone s2)
    as (s3 & stopped & R3 & _ & _ & _ & _ & T3 & A3 & C3).
  change (send_email cfg env "VastAI Bot Stopped"
            ("🔴 VastAIBot v" ++ VERSION ++ " stopped") VNone s2)
    with (send_email cfg env (fst stopped_mail) (snd stopped_mail) VNone s2).
  rewrite R3. apply mails_of_carried in C3.
  destruct r as [[]|e]; [| reflexivity |]; exists s3, stopped; auto.
Qed.

(** *** Which machines are looked at *)

(** X11.  The configured ids are compared as numbers: when none of them is
    a number - ids written as strings, say - and [-1] is therefore not among
    them, a machine with an integer id is passed over, and the locals and
    the state stay as they were. *)
Theorem ids_that_are_no_numbers_select_nothing server n ids l s :
  py_get server "id" VNone = Ok (VInt n) ->
  Forall (fun x => as_num x = None) ids ->
  py_in (VInt (-1)) (VList ids) = Ok false /\
  process_server repr_other false (VList ids) server l s = (Ok l, s).
Proof.
  intros Hid Hids.
  assert (E : forall m, existsb (py_eq (VInt m)) ids = false).
  { intros m. induction Hids as [|x ids Hx _ IH]; [reflexivity|].
    cbn [existsb]. rewrite IH, orb_false_r.
    destruct x; simpl in Hx; try discriminate Hx; reflexivity. }
  split; [cbn [py_in]; now rewrite E|].
  unfold process_server. rewrite (bind_lift _ _ _ _ Hid).
  cbn [py_str]. unfold skipped. rewrite py_int_str_of_int.
  cbn [rbind py_in]. rewrite E. reflexivity.
Qed.

(** X12.  A machine of the reply that has no id, or a null id, cannot be
    looked up among the configured ids: unless every machine is monitored,
    [int("None")] raises [ValueError] and the account is abandoned with the
    state as it was.  An element of the reply that is not an object raises
    [AttributeError] in either case. *)
Theorem machine_without_id_raises all_server server_ids server l s :
  (py_get server "id" VNone = Ok VNone ->
   process_server repr_other false server_ids server l s
   = (Raise ValueError, s)) /\
  ((forall d, server <> VDict d) ->
   process_server repr_other all_server server_ids server l s
   = (Raise AttributeError, s)).
Proof.
  split.
  - intros Hid. unfold process_server. rewrite (bind_lift _ _ _ _ Hid).
    reflexivity.
  - intros Hno. unfold process_server, bind, lift.
    destruct server as [| | | | | |d]; try reflexivity. now destruct (Hno d).
Qed.

(** *** A machine that is not listed *)

Lemma py_eq_truthy_zero v : truthy v = true -> py_eq v f0 = false.
Proof.
  destruct v as [|b|n|f|t|l0|d]; simpl; try reflexivity.
  - intros ->. reflexivity.
  - unfold num_eqb. simpl. intros H. apply negb_true_iff in H.
    apply Z.eqb_neq in H. destruct (n ?= 0) eqn:C; try reflexivity.
    apply Z.compare_eq in C. contradiction.
  - unfold num_eqb, SFeqb, float_zero. simpl. intros H.
    now apply negb_true_iff in H.
Qed.

(** X13.  For a machine that is not listed, the prices and the minimum GPU
    count are recorded as zero whatever the reply says, and the rented GPUs
    are the running rentals.  So when the entry of the machine records a
    price, the machine counts as changed. *)
Theorem unlisted_machine_is_recorded_at_zero server server_id o listed :
  observe repr_other server server_id = Ok o ->
  py_get server "listed" (VInt 0) = Ok listed ->
  truthy listed = false ->
  listed_gpu_cost o = f0 /\
  listed_storage_cost o = f0 /\
  listed_min_gpu_count o = VInt 0 /\
  py_get server "current_rentals_running" (VInt 0) = Ok (rented_gpus o) /\
  forall old_data price d,
    py_get old_data "listed_gpu_cost" VNone = Ok price ->
    truthy price = true ->
    differs old_data o = Ok d -> d = true.
Proof.
  unfold observe. intros H Hlisted Hfalse. rsteps_in H.
  match goal with
  | E : py_get server "listed" (VInt 0) = Ok ?x |- _ =>
      rewrite Hlisted in E; inversion E; subst x; clear E
  end.
  unfold py_or in *. rewrite Hfalse in *. simpl truthy in *.
  cbv iota in *.
  match goal with
  | E : Ok _ = Ok _ |- _ => inversion E; subst; clear E
  end.
  cbv beta iota in H. rsteps_in H. inversion H; subst; clear H.
  cbn [rented_gpus listed_gpu_cost listed_storage_cost listed_min_gpu_count].
  do 3 (split; [reflexivity|]). split; [assumption|].
  intros old_data price d Hprice Htruthy Hd.
  assert (Hp : prior old_data "listed_gpu_cost" f0 = Ok price).
  { unfold prior. rewrite Hprice. unfold rbind, py_or. now rewrite Htruthy. }
  assert (N : py_ne price f0 = true).
  { unfold py_ne. now rewrite py_eq_truthy_zero. }
  unfold differs in Hd. rewrite Hp in Hd. rsteps_in Hd.
  match goal with
  | E : Ok price = Ok ?x |- _ => inversion E; subst x; clear E
  end.
  inversion Hd; subst; clear Hd.
  cbn [listed_gpu_cost]. rewrite N, orb_true_r. reflexivity.
Qed.

(** *** A turn with nothing to do *)


(** *** A signal in the middle of a turn *)

Lemma simulates_ret {A} (a : A) : simulates (ret a) (ret a).
Proof. intros s s' H. now split. Qed.

Lemma simulates_lift {A} (r : result A) : simulates (lift r) (lift r).
Proof. intros s s' H. now split. Qed.

Lemma simulates_gets {A} (f : state -> A) :
  (forall s s', alike s s' -> f s = f s') -> simulates (gets f) (gets f).
Proof. intros Hf s s' H. simpl. split; [now rewrite (Hf s s' H) | exact H]. Qed.

Lemma simulates_modify (f f' : state -> state) :
  (forall s s', alike s s' -> alike (f s) (f' s')) ->
  simulates (modify f) (modify f').
Proof. intros Hf s s' H. simpl. split; [reflexivity | now apply Hf]. Qed.

Lemma simulates_emit e : simulates (emit e) (emit e).
Proof.
  apply simulates_modify. intros s s' (P & V & D & C & T).
  unfold alike, undisturbed in *. simpl. rewrite !filter_app.
  repeat split; congruence.
Qed.

Lemma simulates_bind {A B} (m m' : M A) (k k' : A -> M B) :
  simulates m m' -> (forall a, simulates (k a) (k' a)) ->
  simulates (bind m k) (bind m' k').
Proof.
  intros Hm Hk s s' H. destruct (Hm s s' H) as (E & H1). unfold bind.
  destruct (m s) as [[a|e] s1], (m' s') as [[a'|e'] s1']; simpl in *;
    try discriminate E.
  - inversion E; subst a'. now apply Hk.
  - inversion E; subst e'. split; [reflexivity | exact H1].
Qed.

Lemma simulates_tick {B} (k k' : nat -> M B) :
  (forall t, simulates (k t) (k' t)) -> simulates (bind tick k) (bind tick k').
Proof.
  intros Hk s s' H. unfold bind, tick.
  assert (C : clock s = clock s') by apply H. rewrite C.
  apply Hk. destruct H as (P & V & D & _ & T).
  unfold alike. simpl. auto.
Qed.

Lemma simulates_try_except {A} (m m' : M A) (h h' : exn -> M A) :
  simulates m m' -> (forall e, simulates (h e) (h' e)) ->
  simulates (try_except m h) (try_except m' h').
Proof.
  intros Hm Hh s s' H. destruct (Hm s s' H) as (E & H1). unfold try_except.
  destruct (m s) as [[a|e] s1], (m' s') as [[a'|e'] s1']; simpl in *;
    try discriminate E.
  - split; [exact E | exact H1].
  - inversion E; subst e'. now apply Hh.
Qed.

Lemma simulates_for_each {A S} (body body' : A -> S -> M S) l :
  (forall x acc, simulates (body x acc) (body' x acc)) ->
  forall acc, simulates (for_each body l acc) (for_each body' l acc).
Proof.
  intros Hb. induction l as [|x l IH]; intros acc; simpl.
  - apply simulates_ret.
  - apply simulates_bind; [apply Hb | exact IH].
Qed.

Ltac alike_fields :=
  let P := fresh in
  let V := fresh in
  let D := fresh in
  let C := fresh in
  let T := fresh in
  intros ? ? (P & V & D & C & T); unfold alike; simpl;
  rewrite ?D; repeat split; congruence.

Ltac simulate :=
  repeat first
    [ apply simulates_ret
    | apply simulates_lift
    | apply simulates_emit
    | apply simulates_gets; intros ? ? (? & ? & ? & ? & ?); assumption
    | apply simulates_modify; alike_fields
    | apply simulates_for_each; intros ? ?
    | apply simulates_tick; intros ?
    | apply simulates_try_except; [|intros ?]
    | apply simulates_bind; [|intros ?]
    | match goal with
      | |- simulates (if ?b then _ else _) _ => destruct b
      | |- simulates (match ?x with _ => _ end) _ => destruct x
      end ].

Lemma call_vast_api_simulates url api_key :
  simulates (call_vast_api env repr_other url api_key)
            (call_vast_api (without_signal env) repr_other url api_key).
Proof.
  unfold call_vast_api, suspended, logging. cbv zeta.
  cbn [http signal operator without_signal].
  apply simulates_tick. intros t.
  apply simulates_bind; [apply simulates_emit|]. intros _.
  apply simulates_bind.
  - apply simulates_bind; [apply simulates_modify; alike_fields|]. intros _.
    destruct (signal env t); [|apply simulates_ret].
    intros s s' (P & V & D & C & T). unfold handle_shutdown, logging, emit,
      bind, modify, ret, alike, undisturbed in *. simpl.
    rewrite filter_app. simpl. rewrite app_nil_r. repeat split; assumption.
  - intros _. simulate.
Qed.

Lemma send_email_simulates subject message recipients :
  simulates (send_email cfg env subject message recipients)
            (send_email cfg (without_signal env) subject message recipients).
Proof.
  unfold send_email, smtp_do, logging. cbv zeta.
  cbn [smtp without_signal]. simulate.
Qed.

Lemma process_account_simulates account_name account_data :
  simulates
    (process_account cfg env repr_other account_name account_data)
    (process_account cfg (without_signal env) repr_other account_name
       account_data).
Proof.
  unfold process_account, get_current_user, get_user_earnings,
    get_server_status, process_server, logging. cbv zeta.
  repeat first
    [ apply call_vast_api_simulates
    | apply send_email_simulates
    | apply simulates_ret
    | apply simulates_lift
    | apply simulates_emit
    | apply simulates_gets; intros ? ? (? & ? & ? & ? & ?); assumption
    | apply simulates_modify; alike_fields
    | apply simulates_for_each; intros ? ?
    | apply simulates_bind; [|intros ?]
    | match goal with
      | |- simulates (if ?b then _ else _) _ => destruct b
      end ].
Qed.

(** X15.  A signal that arrives while a request of a turn is awaited does
    not disturb the turn: compared with the same turn without the signal,
    the outcome is the same, and so are the snapshot in memory, the files,
    the number of steps made and the trace - requests, mails, reads and
    writes - apart from the log line of the signal handler. *)
Theorem signal_does_not_disturb_the_turn s :
  let r := poll_iteration cfg env repr_other s in
  let r0 := poll_iteration cfg (without_signal env) repr_other s in
  fst r = fst r0 /\
  previous_status (snd r) = previous_status (snd r0) /\
  disk (snd r) = disk (snd r0) /\
  clock (snd r) = clock (snd r0) /\
  undisturbed (trace (snd r)) = undisturbed (trace (snd r0)).
Proof.
  assert (H : simulates (poll_iteration cfg env repr_other)
                        (poll_iteration cfg (without_signal env) repr_other)).
  { unfold poll_iteration, load_json, save_json, logging. cbv zeta.
    cbn [disk_write without_signal].
    repeat first
      [ apply process_account_simulates
      | apply simulates_ret
      | apply simulates_lift
      | apply simulates_emit
      | apply simulates_gets; intros ? ? (? & ? & ? & ? & ?); assumption
      | apply simulates_modify; alike_fields
      | apply simulates_for_each; intros ? ?
      | apply simulates_tick; intros ?
      | apply simulates_bind; [|intros ?]
      | match goal with
        | |- simulates (match ?x with _ => _ end) _ => destruct x
        end ]. }
  intros r r0. destruct (H s s) as (E & P & _ & D & C & T).
  - unfold alike. auto.
  - auto.
Qed.

End Bot.

(** *** The notifier and the snapshot *)



(** C1 as stated fails: after the first poll recorded reliability 0.995,
    machine 101 comes back with reliability 0.75 and nothing else changed;
    the value differs from the recorded one, and processing neither sets the
    flag nor appends a change line. *)
Lemma reliability_change_alone_is_not_detected :
  py_get Scenario.after_first_poll.(previous_status) "101" VNone
  = Ok (VDict Scenario.entry_idle) /\
  py_ne (VFloat Scenario.f0995) (VFloat Scenario.f075) = true /\
  exists l',
    fst (Scenario.look_at (VList [VInt (-1)]) Scenario.idle_less_reliable)
    = Ok l' /\
    reliability (Scenario.seen Scenario.idle_less_reliable)
    = VFloat Scenario.f075 /\
    changes_detected l' = false /\
    changes_lines l' = [].
Proof.
  split; [vm_compute; reflexivity|].
  split; [vm_compute; reflexivity|].
  eexists. split; [vm_compute; reflexivity|].
  split; [vm_compute; reflexivity|].
  split; reflexivity.
Qed.

(** On the scenario: machine 101 comes back rented out, which is detected. *)
Lemma changes_detected_iff_compared_field_differs_witness :
  exists o,
    observe Scenario.repr_other Scenario.rented_out "101" = Ok o /\
    differs (VDict Scenario.entry_idle) o = Ok true /\
    changes_detected
      (Scenario.value_of Scenario.no_changes
         (fst (Scenario.look_at (VList [VInt (-1)]) Scenario.rented_out)))
    = true.
Proof.
  destruct (changes_detected_iff_compared_field_differs
              Scenario.repr_other true (VList [VInt (-1)]) Scenario.rented_out
              (VInt 101) Scenario.entry_idle Scenario.no_changes
              Scenario.after_first_poll
              (Scenario.value_of Scenario.no_changes
                 (fst (Scenario.look_at (VList [VInt (-1)])
                         Scenario.rented_out)))
              (snd (Scenario.look_at (VList [VInt (-1)]) Scenario.rented_out)))
    as (o & d & Ho & Hd & Hflag & _).
  - reflexivity.
  - reflexivity.
  - vm_compute; reflexivity.
  - vm_compute; reflexivity.
  - exists o. split; [exact Ho|].
    assert (Hd' : differs (VDict Scenario.entry_idle) o = Ok true).
    { vm_compute in Ho. inversion Ho; subst o. vm_compute; reflexivity. }
    split; [exact Hd'|].
    rewrite Hflag. rewrite Hd' in Hd. inversion Hd. reflexivity.
Defined.



(** C2 as stated fails: on the first run (no snapshot yet) of an account
    whose configured machine is not in the reply, no machine is monitored and
    no email is sent; the run ends with the "no changes" log line. *)
Lemma first_run_without_monitored_machine_sends_nothing :
  let s := init Scenario.disk0 in
  let r := process_account Scenario.cfg Scenario.env Scenario.repr_other
             "main" Scenario.account_of_102 s in
  truthy (previous_status s) = false /\
  fst r = Ok tt /\
  notification_attempted (trace (snd r)) = false /\
  trace (snd r)
  = [ EvHttpGet "https://console.vast.ai/api/v0/users/current"
        "Bearer key-1" 10;
      EvHttpGet "https://console.vast.ai/api/v0/user/earnings"
        "Bearer key-1" 10;
      EvHttpGet "https://console.vast.ai/api/v0/machines" "Bearer key-1" 10;
      EvLog INFO (LogNoChanges "main") ].
Proof. repeat split; vm_compute; reflexivity. Qed.

(** On the scenario: after the first poll, machine 101 rented out is a
    change, and an email is attempted. *)
Lemma notification_iff_new_or_changed_witness :
  let s := Scenario.after_first_poll in
  let s' := snd (process_account Scenario.cfg Scenario.env_rented
                   Scenario.repr_other "main" Scenario.account s) in
  existsb (new_or_changed (entries s))
    (observed Scenario.repr_other true (VList [VInt (-1)])
       [Scenario.rented_out]) = true /\
  exists events,
    trace s' = (trace s ++ events)%list /\
    notification_attempted events = true.
Proof.
  intros s s'. split; [vm_compute; reflexivity|].
  destruct (notification_iff_new_or_changed
              Scenario.cfg Scenario.env_rented Scenario.repr_other
              "main" Scenario.account s s' (VStr "key-1") (VList [VInt (-1)])
              true [Scenario.rented_out])
    as (events & Htrace & Hiff & _).
  - reflexivity.
  - reflexivity.
  - reflexivity.
  - vm_compute; reflexivity.
  - vm_compute. repeat constructor. intros [].
  - vm_compute; reflexivity.
  - exists events. split; [exact Htrace|].
    apply Hiff. vm_compute; reflexivity.
Defined.



(** On the scenario: the entry of machine 101 after the first poll. *)
Lemma snapshot_holds_last_observation_and_is_saved_witness :
  assoc "101" (entries Scenario.after_first_poll)
  = Some (VDict Scenario.entry_idle).
Proof.
  destruct (snapshot_holds_last_observation_and_is_saved
              Scenario.cfg Scenario.env Scenario.repr_other)
    as (_ & _ & Hturn).
  destruct (Hturn (init Scenario.disk0) Scenario.after_first_poll)
    as (accounts & before & logs & Hitems & Hentries & _).
  - vm_compute; reflexivity.
  - vm_compute in Hitems. inversion Hitems; subst accounts.
    rewrite Hentries. vm_compute. reflexivity.
Defined.

(** On the scenario: the first poll ends the same from a memory holding
    stale values. *)
Lemma turn_starts_by_reloading_witness :
  vast_accounts Scenario.after_first_poll = Scenario.config /\
  poll_iteration Scenario.cfg Scenario.env Scenario.repr_other
    (set_previous_status (VInt 7)
       (set_vast_accounts (VStr "stale") (init Scenario.disk0)))
  = (Ok tt, Scenario.after_first_poll).
Proof.
  destruct (turn_starts_by_reloading
              Scenario.cfg Scenario.env Scenario.repr_other
              (init Scenario.disk0) Scenario.after_first_poll)
    as (_ & Hconfig & _ & _ & Hmemory).
  - vm_compute; reflexivity.
  - split; [exact Hconfig | apply Hmemory].
Defined.

(** On the scenario: no turn with the event set; one turn, then the wait. *)
Lemma loop_waits_between_turns_and_stops_on_shutdown_witness :
  monitor_servers Scenario.cfg Scenario.env Scenario.repr_other 3
    (set_shutdown_event true (init Scenario.disk0))
  = (Ok Returned, set_shutdown_event true (init Scenario.disk0)) /\
  exists s2,
    monitor_servers Scenario.cfg Scenario.env Scenario.repr_other 1
      (init Scenario.disk0)
    = monitor_servers Scenario.cfg Scenario.env Scenario.repr_other 0 s2 /\
    trace s2
    = (trace Scenario.after_first_poll ++ [EvWait 300 TimedOut])%list /\
    shutdown_event s2 = false.
Proof.
  destruct (loop_waits_between_turns_and_stops_on_shutdown
              Scenario.cfg Scenario.env Scenario.repr_other)
    as (Hstop & Hturn & _ & _).
  split.
  - apply Hstop. reflexivity.
  - destruct (Hturn 0%nat (init Scenario.disk0) Scenario.after_first_poll)
      as (s2 & Hnext & _ & Hwait).
    + reflexivity.
    + vm_compute; reflexivity.
    + exists s2. split; [exact Hnext|]. exact Hwait.
Defined.

(** On the scenario: the account is processed to the end with the API
    down. *)
Lemma api_failure_is_absorbed_witness :
  exists s' events,
    process_account Scenario.cfg Scenario.env_down Scenario.repr_other
      "main" Scenario.account (init Scenario.disk0)
    = (Ok tt, s') /\
    previous_status s' = VDict [] /\
    notification_attempted events = false.
Proof.
  destruct (api_failure_is_absorbed
              Scenario.cfg Scenario.env_down Scenario.repr_other)
    as (_ & _ & H).
  destruct (H "main" Scenario.account (VStr "key-1") (VList [VInt (-1)]) true
              (init Scenario.disk0))
    as (_ & _ & _ & s' & events & Hrun & Hprev & _ & Hquiet);
    try reflexivity; try (intros url authorization; reflexivity).
  exists s', events. auto.
Defined.


(** *** The further properties at work *)


Lemma send_email_serves_a_prefix_witness :
  exists events later,
    trace (snd (send_email Scenario.cfg Scenario.env
                  "VastAI Status Update - main" "🟢 up"
                  (VList Scenario.two_recipients) (init Scenario.disk0)))
    = (trace (init Scenario.disk0) ++ events)%list /\
    Scenario.two_recipients = (delivered events ++ later)%list /\
    (attempted events = delivered events \/
     attempted events = (delivered events ++ firstn 1 later)%list).
Proof.
  apply (send_email_serves_a_prefix Scenario.cfg Scenario.env
           "VastAI Status Update - main" "🟢 up"
           (VList Scenario.two_recipients) Scenario.two_recipients
           (init Scenario.disk0)).
  reflexivity.
Defined.

Lemma format_for_email_replaces_symbols_witness :
  format_for_email "👤 main 💰 0.50$ 🏦 3.00$"
  = "Running: main Balance: 0.50$ Earnings: 3.00$".
Proof.
  apply (format_for_email_replaces_symbols Scenario.headline).
  unfold Scenario.headline.
  repeat (apply Forall_cons || apply Forall_nil);
    try reflexivity; simpl; tauto.
Defined.

Lemma new_rental_names_the_subject_witness :
  let s := Scenario.after_first_poll in
  let s' := snd (process_account Scenario.cfg Scenario.env_rented
                   Scenario.repr_other "main" Scenario.account s) in
  existsb (rental_started (entries s))
    (account_observed Scenario.cfg Scenario.env_rented Scenario.repr_other
       s Scenario.account) = true /\
  exists events,
    trace s' = (trace s ++ events)%list /\
    notification_attempted events = true /\
    Forall (fun m => fst m = "🚀 VastAI New Rental - " ++ "main")
           (mails events).
Proof.
  intros s s'. split; [vm_compute; reflexivity|].
  apply (new_rental_names_the_subject
           Scenario.cfg Scenario.env_rented Scenario.repr_other
           "main" Scenario.account s s').
  - vm_compute; reflexivity.
  - vm_compute. repeat constructor. intros [].
  - vm_compute; reflexivity.
Defined.

Lemma failed_turn_saves_nothing_witness :
  let s := init Scenario.disk_without_key in
  let s1 := snd (poll_iteration Scenario.cfg Scenario.env Scenario.repr_other
                   s) in
  monitor_servers Scenario.cfg Scenario.env Scenario.repr_other 3 s
  = (Raise KeyError, s1) /\
  exists events,
    trace s1 = (trace s ++ events)%list /\
    Forall (fun ev => is_write ev = false /\ is_wait ev = false) events.
Proof.
  intros s s1.
  apply (failed_turn_saves_nothing
           Scenario.cfg Scenario.env Scenario.repr_other 2 s KeyError s1).
  - reflexivity.
  - vm_compute; reflexivity.
Defined.

Lemma account_without_key_raises_witness :
  process_account Scenario.cfg Scenario.env Scenario.repr_other "main"
    (VDict Scenario.account_without_key) (init Scenario.disk_without_key)
  = (Raise KeyError, init Scenario.disk_without_key).
Proof.
  apply (account_without_key_raises
           Scenario.cfg Scenario.env Scenario.repr_other "main"
           Scenario.account_without_key (init Scenario.disk_without_key)).
  left. reflexivity.
Defined.

Lemma ids_that_are_no_numbers_select_nothing_witness :
  py_in (VInt (-1)) (VList [VStr "101"]) = Ok false /\
  process_server Scenario.repr_other false (VList [VStr "101"])
    Scenario.idle Scenario.no_changes Scenario.after_first_poll
  = (Ok Scenario.no_changes, Scenario.after_first_poll).
Proof.
  apply (ids_that_are_no_numbers_select_nothing
           Scenario.repr_other Scenario.idle 101 [VStr "101"]
           Scenario.no_changes Scenario.after_first_poll).
  - reflexivity.
  - repeat constructor.
Defined.

Lemma machine_without_id_raises_witness :
  process_server Scenario.repr_other false (VList [VInt 101])
    (VDict [ ("listed", VBool true) ]) Scenario.no_changes
    Scenario.after_first_poll
  = (Raise ValueError, Scenario.after_first_poll) /\
  process_server Scenario.repr_other true (VList [VInt (-1)])
    (VStr "101") Scenario.no_changes Scenario.after_first_poll
  = (Raise AttributeError, Scenario.after_first_poll).
Proof.
  split.
  - apply (machine_without_id_raises Scenario.repr_other false
             (VList [VInt 101]) (VDict [ ("listed", VBool true) ])
             Scenario.no_changes Scenario.after_first_poll).
    reflexivity.
  - apply (machine_without_id_raises Scenario.repr_other true
             (VList [VInt (-1)]) (VStr "101")
             Scenario.no_changes Scenario.after_first_poll).
    intros d. discriminate.
Defined.

Lemma unlisted_machine_is_recorded_at_zero_witness :
  let o := Scenario.seen Scenario.withdrawn in
  listed_gpu_cost o = f0 /\
  listed_storage_cost o = f0 /\
  listed_min_gpu_count o = VInt 0 /\
  Scenario.value_of false (differs (VDict Scenario.entry_idle) o) = true.
Proof.
  intros o.
  destruct (unlisted_machine_is_recorded_at_zero
              Scenario.repr_other Scenario.withdrawn "101" o (VBool false))
    as (H1 & H2 & H3 & _ & Hd).
  - vm_compute; reflexivity.
  - reflexivity.
  - reflexivity.
  - repeat (split; [assumption|]).
    apply (Hd (VDict Scenario.entry_idle) (VFloat Scenario.half)).
    + reflexivity.
    + reflexivity.
    + vm_compute; reflexivity.
Defined.


End Properties.
